(** * BigCache: bundle format, packer, lookup index and fault handler

    A shallow embedding of the C sources of [userfaultfd_bigcache]
    ([bigcache.h], [bigcache_index.c], [bigcache_packer.c],
    [uffd_handler.h], [uffd_handler.c]) and the properties of the bundle
    format, the packer, the loader with its lookup table and the page-fault
    routine.

    Conventions of the embedding.
    - A [uintN_t] is a [Z] in [0, 2^N); every operation that can leave the
      range is followed by its wrap-around ([u32], [u64]).  [size_t] is 64
      bits wide (the targets are LP64 Linux: aarch64 and x86-64).
    - A byte is a [Z] in [0, 256); memory is a [list Z] of bytes, structures
      are [packed] and little-endian.
    - A [const char *] is the list of bytes found from the pointer onwards;
      the C string it denotes is the part before the first NUL ([cstr]).
    - A pointer that may be [NULL] is an [option].
    - What the operating system answers (open, pread, ioctl, the allocator)
      is an explicit argument of the function that asks. *)

From Stdlib Require Import ZArith List Lia Bool String Ascii DecimalString.
From stdpp Require Import base list.
Import ListNotations.
Local Open Scope Z_scope.

(* ================================================================== *)
(** * Machine integers and bytes *)

Definition wrap (w x : Z) : Z := x mod 2 ^ w.
Definition u8 : Z -> Z := wrap 8.
Definition u16 : Z -> Z := wrap 16.
Definition u32 : Z -> Z := wrap 32.
Definition u64 : Z -> Z := wrap 64.
Definition size_t : Z -> Z := wrap 64.

(** Conversion of a 32-bit pattern to [int] (two's complement). *)
Definition to_int (x : Z) : Z :=
  let y := u32 x in if y <? 2 ^ 31 then y else y - 2 ^ 32.

(** Little-endian image of an integer on [n] bytes, and its inverse. *)
Fixpoint le_bytes (n : nat) (v : Z) : list Z :=
  match n with
  | O => []
  | S k => v mod 256 :: le_bytes k (v / 256)
  end.

Fixpoint le_value (bs : list Z) : Z :=
  match bs with
  | [] => 0
  | b :: rest => b + 256 * le_value rest
  end.

(** Memory: a buffer of bytes addressed from 0. *)
Definition mem : Type := list Z.

Definition zeros (n : Z) : list Z := repeat 0 (Z.to_nat n).

Definition mem_read (m : mem) (off n : Z) : list Z :=
  take (Z.to_nat n) (drop (Z.to_nat off) m).

(** The bytes from [off] to the end of the buffer: what a pointer
    [m + off] gives access to. *)
Definition mem_from (m : mem) (off : Z) : list Z := drop (Z.to_nat off) m.

(** A store of [bs] at [off].  The C code only stores inside the mapping;
    a store that would not fit leaves the buffer as it is. *)
Definition mem_write (m : mem) (off : Z) (bs : list Z) : mem :=
  if (0 <=? off) && (off + Z.of_nat (length bs) <=? Z.of_nat (length m)) then
    take (Z.to_nat off) m ++ bs ++ drop (Z.to_nat off + length bs) m
  else m.

(** Loads and stores of little-endian integers.  A load gives a value of
    its type whatever the buffer holds. *)
Definition read_u16 (m : mem) (off : Z) : Z := u16 (le_value (mem_read m off 2)).
Definition read_u32 (m : mem) (off : Z) : Z := u32 (le_value (mem_read m off 4)).
Definition read_u64 (m : mem) (off : Z) : Z := u64 (le_value (mem_read m off 8)).
Definition write_u16 (m : mem) (off v : Z) : mem := mem_write m off (le_bytes 2 v).
Definition write_u32 (m : mem) (off v : Z) : mem := mem_write m off (le_bytes 4 v).
Definition write_u64 (m : mem) (off v : Z) : mem := mem_write m off (le_bytes 8 v).

(* ================================================================== *)
(** * C strings *)

(** The string a [char *] denotes: the bytes before the first NUL. *)
Fixpoint cstr (s : list Z) : list Z :=
  match s with
  | [] => []
  | c :: rest => if c =? 0 then [] else c :: cstr rest
  end.

Definition strlen (s : list Z) : Z := Z.of_nat (length (cstr s)).

(** [strcmp]: difference of the first pair of bytes that differ, 0 when
    both strings end together. *)
Fixpoint strcmp (a b : list Z) : Z :=
  match a, b with
  | [], [] => 0
  | [], cb :: _ => 0 - cb
  | ca :: _, [] => ca
  | ca :: ra, cb :: rb =>
      if ca =? cb then (if ca =? 0 then 0 else strcmp ra rb) else ca - cb
  end.

(** [strncpy (dst, src, n)] stores exactly [n] bytes: the characters of
    [src], cut at [n], then NULs. *)
Definition strncpy (src : list Z) (n : Z) : list Z :=
  take (Z.to_nat n) (cstr src ++ zeros n).

(** [strdup] copies the string up to its terminator. *)
Definition strdup (s : list Z) : list Z := cstr s.

Fixpoint is_prefix (p s : list Z) : bool :=
  match p, s with
  | [], _ => true
  | _ :: _, [] => false
  | a :: p', b :: s' => (a =? b) && is_prefix p' s'
  end.

Fixpoint has_substring (needle hay : list Z) : bool :=
  is_prefix needle hay ||
  match hay with
  | [] => false
  | _ :: hay' => has_substring needle hay'
  end.

(** [strstr (hay, needle) != NULL]. *)
Definition strstr (hay needle : list Z) : bool :=
  has_substring (cstr needle) (cstr hay).

(** Bytes of a string literal. *)
Fixpoint bytes_of_string (s : string) : list Z :=
  match s with
  | EmptyString => []
  | String c rest => Z.of_N (N_of_ascii c) :: bytes_of_string rest
  end.

(** [%lu] and [%u]: decimal digits of an unsigned number. *)
Definition decimal (v : Z) : list Z :=
  bytes_of_string (NilZero.string_of_uint (N.to_uint (Z.to_N v))).

(* ================================================================== *)
(** * bigcache.h: constants and on-disk layout *)

Definition PAGE_SIZE : Z := 4096.
Definition BIGCACHE_MAGIC : Z := 0x42494743.
Definition BIGCACHE_VERSION : Z := 1.
Definition MAX_PATH_LEN : Z := 512.
Definition MAX_FILES : Z := 4096.

Definition PAGE_FLAG_EXECUTABLE : Z := Z.shiftl 1 0.

Definition EINVAL : Z := 22.
Definition ENOMEM : Z := 12.
Definition ENOENT : Z := 2.
Definition ENODATA : Z := 61.
Definition EEXIST : Z := 17.

(** [x & ~(PAGE_SIZE - 1)] on a [uint64_t]. *)
Definition page_align (x : Z) : Z := Z.land x (u64 (Z.lnot (PAGE_SIZE - 1))).

(** A [packed] structure is the sequence of its fields, without padding:
    its size is the sum of theirs and a field starts where the previous
    ones end. *)
Definition struct_decl : Type := list (string * Z).

Definition sizeof (s : struct_decl) : Z :=
  fold_right (fun f acc => snd f + acc) 0 s.

Fixpoint offsetof (s : struct_decl) (field : string) : Z :=
  match s with
  | [] => 0
  | (name, sz) :: rest =>
      if String.eqb name field then 0 else sz + offsetof rest field
  end.

Definition BigCacheHeader : struct_decl :=
  [ ("magic", 4); ("version", 4); ("num_pages", 4); ("num_files", 4);
    ("data_offset", 8); ("index_offset", 8); ("file_table_offset", 8);
    ("total_size", 8); ("checksum", 4); ("flags", 4);
    ("reserved", 32) ]%string.

Definition BigCachePageIndex : struct_decl :=
  [ ("file_id", 4); ("source_offset", 8); ("access_order", 4);
    ("flags", 2); ("reserved", 2) ]%string.

Definition BigCacheFileEntry : struct_decl :=
  [ ("file_id", 4); ("path_len", 4); ("total_pages", 4);
    ("original_size", 8); ("path", MAX_PATH_LEN) ]%string.

(* ================================================================== *)
(** * bigcache_index.c: hash and checksum *)

Definition FNV_OFFSET_BASIS : Z := 14695981039346656037.
Definition FNV_PRIME : Z := 1099511628211.

(** The first loop of [hash_fnv1a], over the characters of the path. *)
Fixpoint hash_str (str : list Z) (hash : Z) : Z :=
  match str with
  | [] => hash
  | c :: rest =>
      if c =? 0 then hash
      else hash_str rest (u64 (Z.lxor hash (u8 c) * FNV_PRIME))
  end.

Definition hash_fnv1a (str : list Z) (offset : Z) : Z :=
  fold_left
    (fun hash i =>
       u64 (Z.lxor hash (Z.land (Z.shiftr offset (i * 8)) 0xFF) * FNV_PRIME))
    [0; 1; 2; 3; 4; 5; 6; 7]
    (hash_str str FNV_OFFSET_BASIS).

(** One turn of the inner loop of [init_crc32_table]. *)
Definition crc32_shift (c : Z) : Z :=
  Z.lxor (Z.shiftr c 1) (if Z.land c 1 =? 0 then 0 else 0xEDB88320).

Definition crc32_table_entry (i : Z) : Z :=
  Nat.iter 8 crc32_shift i.

Definition crc32_table : list Z :=
  Eval cbv in map (fun i => crc32_table_entry (Z.of_nat i)) (seq 0 256).

Definition crc32_update (crc b : Z) : Z :=
  Z.lxor (nth (Z.to_nat (Z.land (Z.lxor crc b) 0xFF)) crc32_table 0)
         (Z.shiftr crc 8).

Definition bigcache_crc32 (data : list Z) : Z :=
  Z.lxor (fold_left crc32_update data 0xFFFFFFFF) 0xFFFFFFFF.

(* ================================================================== *)
(** * bigcache_packer.c *)

Definition INITIAL_CAPACITY : Z := 10000.

(** [PackerPageEntry]; [pe_file_path] is the whole [char [MAX_PATH_LEN]]
    array. *)
Record PackerPageEntry : Type := mkPackerPageEntry {
  pe_file_path : list Z;
  pe_offset : Z;
  pe_size : Z;
  pe_access_order : Z
}.

(** [BigCachePacker]: [entries] holds [entries[0 .. num_entries)] and
    [file_paths] holds [file_paths[0 .. num_files)]. *)
Record BigCachePacker : Type := mkBigCachePacker {
  entries : list PackerPageEntry;
  capacity : Z;
  file_paths : list (list Z)
}.

Definition num_entries (packer : BigCachePacker) : Z :=
  Z.of_nat (length (entries packer)).

Definition num_files (packer : BigCachePacker) : Z :=
  Z.of_nat (length (file_paths packer)).

Definition packer_create : BigCachePacker :=
  {| entries := []; capacity := INITIAL_CAPACITY; file_paths := [] |}.

(** The search loop of [find_or_add_file], from index [i]. *)
Fixpoint find_file (paths : list (list Z)) (path : list Z) (i : Z) : option Z :=
  match paths with
  | [] => None
  | p :: rest =>
      if strcmp p path =? 0 then Some i else find_file rest path (i + 1)
  end.

(** [strdup_ok]: whether the allocator serves the [strdup]. *)
Definition find_or_add_file (strdup_ok : bool) (packer : BigCachePacker)
    (path : list Z) : Z * BigCachePacker :=
  match find_file (file_paths packer) path 0 with
  | Some i => (to_int i, packer)
  | None =>
      if num_files packer >=? MAX_FILES then (-1, packer)
      else if negb strdup_ok then (-1, packer)
      else (to_int (num_files packer),
            {| entries := entries packer;
               capacity := capacity packer;
               file_paths := file_paths packer ++ [strdup path] |})
  end.

(** The loop of [page_exists]. *)
Fixpoint page_exists_loop (es : list PackerPageEntry) (path : list Z)
    (page_offset : Z) : Z :=
  match es with
  | [] => 0
  | e :: rest =>
      if (pe_offset e =? page_offset) && (strcmp (pe_file_path e) path =? 0)
      then 1
      else page_exists_loop rest path page_offset
  end.

Definition page_exists (packer : BigCachePacker) (path : list Z)
    (offset : Z) : Z :=
  page_exists_loop (entries packer) path (page_align offset).

(** What the allocator answers during one [packer_add_page]. *)
Record AllocEnv : Type := mkAllocEnv {
  realloc_ok : bool;
  strdup_ok : bool
}.

Definition alloc_succeeds : AllocEnv :=
  {| realloc_ok := true; strdup_ok := true |}.

(** [packer_add_page]: the returned packer is the state the call leaves
    behind (the entry stays appended when [find_or_add_file] fails). *)
Definition packer_add_page (env : AllocEnv) (packer : option BigCachePacker)
    (file_path : option (list Z)) (offset access_order : Z)
    : Z * option BigCachePacker :=
  match packer, file_path with
  | Some p, Some path =>
      let page_offset := page_align offset in
      if negb (page_exists p path page_offset =? 0) then (0, Some p)
      else
        let grow := num_entries p >=? capacity p in
        if grow && negb (realloc_ok env) then (- ENOMEM, Some p)
        else
          let new_capacity :=
            if grow then size_t (capacity p * 2) else capacity p in
          let entry :=
            {| pe_file_path := strncpy path (MAX_PATH_LEN - 1) ++ [0];
               pe_offset := page_offset;
               pe_size := PAGE_SIZE;
               pe_access_order := access_order |} in
          let p1 :=
            {| entries := entries p ++ [entry];
               capacity := new_capacity;
               file_paths := file_paths p |} in
          let '(id, p2) := find_or_add_file (strdup_ok env) p1 path in
          if id <? 0 then (- ENOMEM, Some p2) else (0, Some p2)
  | _, _ => (- EINVAL, packer)
  end.

(** ** The environment of [packer_build] *)

(** What a read of an open file at an offset finds: an error, or the bytes
    the file has from there. *)
Inductive PreadResult : Type :=
  | PreadError
  | PreadData (bytes : list Z).

(** The origin files: [open] of a path fails ([None]) or gives a file. *)
Definition SourceFs : Type := list Z -> option (Z -> PreadResult).

(** [pread (fd, buf, count, offset)]: at most [count] of the bytes found
    are transferred; their number is the return value. *)
Definition pread (file : Z -> PreadResult) (count offset : Z) : PreadResult :=
  match file offset with
  | PreadError => PreadError
  | PreadData bytes => PreadData (take (Z.to_nat count) bytes)
  end.

(** A regular file of the given content.  An offset beyond [off_t] is
    refused; past the end of the file nothing is found. *)
Definition file_pread (content : list Z) (offset : Z) : PreadResult :=
  if 2 ^ 63 <=? offset then PreadError
  else PreadData (mem_from content offset).

(** What creating the output file gives. *)
Inductive OutputOutcome : Type :=
  | OutOpenFails (errno : Z)
  | OutTruncateFails (errno : Z)
  | OutMmapFails (errno : Z)
  | OutMapped.

Record BuildEnv : Type := mkBuildEnv {
  output_outcome : OutputOutcome;
  source_fs : SourceFs;
  build_strdup_ok : Z -> bool
}.

(** The sizes and offsets computed at the head of [packer_build]. *)
Definition header_size : Z := sizeof BigCacheHeader.

Definition index_size (packer : BigCachePacker) : Z :=
  size_t (num_entries packer * sizeof BigCachePageIndex).

Definition file_table_size (packer : BigCachePacker) : Z :=
  size_t (num_files packer * sizeof BigCacheFileEntry).

Definition data_size (packer : BigCachePacker) : Z :=
  size_t (num_entries packer * PAGE_SIZE).

Definition index_offset (packer : BigCachePacker) : Z := header_size.

Definition file_table_offset (packer : BigCachePacker) : Z :=
  size_t (index_offset packer + index_size packer).

Definition data_offset (packer : BigCachePacker) : Z :=
  Z.land
    (size_t (file_table_offset packer + file_table_size packer
             + PAGE_SIZE - 1))
    (size_t (Z.lnot (PAGE_SIZE - 1))).

Definition total_size (packer : BigCachePacker) : Z :=
  size_t (data_offset packer + data_size packer).

(** Stores to the fields of a structure placed at [base]. *)
Definition field_off (s : struct_decl) (base : Z) (field : string) : Z :=
  base + offsetof s field.

(** The header block of [packer_build]: [memset] then the eight fields. *)
Definition write_header (packer : BigCachePacker) (out : mem) : mem :=
  let h := field_off BigCacheHeader 0 in
  let out := mem_write out 0 (zeros (sizeof BigCacheHeader)) in
  let out := write_u32 out (h "magic"%string) BIGCACHE_MAGIC in
  let out := write_u32 out (h "version"%string) BIGCACHE_VERSION in
  let out := write_u32 out (h "num_pages"%string) (u32 (num_entries packer)) in
  let out := write_u32 out (h "num_files"%string) (u32 (num_files packer)) in
  let out := write_u64 out (h "index_offset"%string) (index_offset packer) in
  let out := write_u64 out (h "file_table_offset"%string)
               (file_table_offset packer) in
  let out := write_u64 out (h "data_offset"%string) (data_offset packer) in
  write_u64 out (h "total_size"%string) (total_size packer).

(** Number of entries whose path is [path]: what the inner counting loop
    leaves in [total_pages]. *)
Definition count_pages (es : list PackerPageEntry) (path : list Z) : Z :=
  Z.of_nat (length (List.filter (fun e => strcmp (pe_file_path e) path =? 0) es)).

(** One turn of the file-table loop, for [file_paths[i]]. *)
Definition write_file_entry (packer : BigCachePacker) (out : mem)
    (i : Z) (path : list Z) : mem :=
  let fe := field_off BigCacheFileEntry
              (file_table_offset packer + i * sizeof BigCacheFileEntry) in
  let out := write_u32 out (fe "file_id"%string) (u32 i) in
  let out := mem_write out (fe "path"%string)
               (strncpy path (MAX_PATH_LEN - 1)) in
  let out := write_u32 out (fe "path_len"%string)
               (u32 (strlen (mem_from out (fe "path"%string)))) in
  let out := write_u32 out (fe "total_pages"%string) 0 in
  let out := write_u64 out (fe "original_size"%string) 0 in
  write_u32 out (fe "total_pages"%string)
    (u32 (count_pages (entries packer) path)).

Fixpoint write_file_table (packer : BigCachePacker) (paths : list (list Z))
    (i : Z) (out : mem) : mem :=
  match paths with
  | [] => out
  | path :: rest =>
      write_file_table packer rest (i + 1) (write_file_entry packer out i path)
  end.

(** The text [snprintf] formats for a page whose file cannot be opened. *)
Definition simulated_text (pe : PackerPageEntry) : list Z :=
  bytes_of_string "SIMULATED PAGE" ++ [10] ++
  bytes_of_string "File: " ++ cstr (pe_file_path pe) ++ [10] ++
  bytes_of_string "Offset: " ++ decimal (pe_offset pe) ++ [10] ++
  bytes_of_string "Order: " ++ decimal (pe_access_order pe) ++ [10].

(** [snprintf (buf, size, ...)]: at most [size - 1] characters, then NUL. *)
Definition snprintf (size : Z) (text : list Z) : list Z :=
  take (Z.to_nat (size - 1)) text ++ [0].

Definition page_flags (pe : PackerPageEntry) : Z :=
  if strstr (pe_file_path pe) (bytes_of_string ".so")
     || strstr (pe_file_path pe) (bytes_of_string ".odex")
     || strstr (pe_file_path pe) (bytes_of_string ".oat")
  then Z.lor 0 PAGE_FLAG_EXECUTABLE else 0.

(** State of the page loop of [packer_build]. *)
Record BuildState : Type := mkBuildState {
  bs_packer : BigCachePacker;
  bs_output : mem;
  successful_pages : Z;
  failed_pages : Z
}.

(** The data of page [i]: [open], [pread] and the two fallbacks.  The
    boolean tells whether the page counts as successful. *)
Definition write_page_data (fs : SourceFs) (pe : PackerPageEntry)
    (page_data : Z) (out : mem) : mem * bool :=
  match fs (cstr (pe_file_path pe)) with
  | Some file =>
      match pread file PAGE_SIZE (pe_offset pe) with
      | PreadData bytes =>
          let out := mem_write out page_data bytes in
          if Z.of_nat (length bytes) =? PAGE_SIZE then (out, true)
          else (mem_write out page_data (zeros PAGE_SIZE), false)
      | PreadError => (mem_write out page_data (zeros PAGE_SIZE), false)
      end
  | None =>
      let out := mem_write out page_data (zeros PAGE_SIZE) in
      (mem_write out page_data (snprintf 256 (simulated_text pe)), false)
  end.

(** The index record of page [i]: the four stores to [page_index[i]].  The
    offsets are those computed before the loop, from the packer [packer0]
    the build started with. *)
Definition write_page_index (packer0 : BigCachePacker) (i id : Z)
    (pe : PackerPageEntry) (out : mem) : mem :=
  let pi := field_off BigCachePageIndex
              (index_offset packer0 + i * sizeof BigCachePageIndex) in
  let out := write_u32 out (pi "file_id"%string) (u32 id) in
  let out := write_u64 out (pi "source_offset"%string) (pe_offset pe) in
  let out := write_u32 out (pi "access_order"%string) (pe_access_order pe) in
  write_u16 out (pi "flags"%string) (page_flags pe).

(** One turn of the page loop, for [entries[i]]. *)
Definition build_page (env : BuildEnv) (packer0 : BigCachePacker)
    (i : Z) (pe : PackerPageEntry) (st : BuildState) : BuildState :=
  let '(id, packer) :=
    find_or_add_file (build_strdup_ok env i) (bs_packer st)
                     (pe_file_path pe) in
  let out := write_page_index packer0 i id pe (bs_output st) in
  let page_data := data_offset packer0 + i * PAGE_SIZE in
  let '(out, ok) := write_page_data (source_fs env) pe page_data out in
  {| bs_packer := packer;
     bs_output := out;
     successful_pages := successful_pages st + (if ok then 1 else 0);
     failed_pages := failed_pages st + (if ok then 0 else 1) |}.

Fixpoint build_pages (env : BuildEnv) (packer0 : BigCachePacker)
    (es : list PackerPageEntry) (i : Z) (st : BuildState) : BuildState :=
  match es with
  | [] => st
  | pe :: rest =>
      build_pages env packer0 rest (i + 1) (build_page env packer0 i pe st)
  end.

(** The mapping when the page loop starts (header and file table written)
    and the state when it ends. *)
Definition before_pages (packer0 : BigCachePacker) : BuildState :=
  {| bs_packer := packer0;
     bs_output :=
       write_file_table packer0 (file_paths packer0) 0
         (write_header packer0 (zeros (total_size packer0)));
     successful_pages := 0;
     failed_pages := 0 |}.

Definition after_pages (env : BuildEnv) (packer0 : BigCachePacker)
    : BuildState :=
  build_pages env packer0 (entries packer0) 0 (before_pages packer0).

(** The checksum statement that follows the page loop. *)
Definition write_checksum (packer0 : BigCachePacker) (out : mem) : mem :=
  write_u32 out (field_off BigCacheHeader 0 "checksum"%string)
    (bigcache_crc32
       (mem_read out (4 * 2) (size_t (total_size packer0 - 4 * 2)))).

(** Result of [packer_build]: the return value, the packer as the call
    leaves it, the content of the output file when it was mapped, and the
    two counters printed at the end. *)
Record BuildResult : Type := mkBuildResult {
  build_ret : Z;
  build_packer : option BigCachePacker;
  build_output : option mem;
  build_successful : Z;
  build_simulated : Z
}.

Definition build_fails (ret : Z) (packer : option BigCachePacker)
    : BuildResult :=
  {| build_ret := ret; build_packer := packer; build_output := None;
     build_successful := 0; build_simulated := 0 |}.

Definition packer_build (env : BuildEnv) (packer : option BigCachePacker)
    (output_path : option (list Z)) : BuildResult :=
  match packer, output_path with
  | Some p, Some _ =>
      if num_entries p =? 0 then build_fails (- EINVAL) packer
      else
        match output_outcome env with
        | OutOpenFails errno => build_fails (- errno) packer
        | OutTruncateFails errno => build_fails (- errno) packer
        | OutMmapFails errno => build_fails (- errno) packer
        | OutMapped =>
            let st := after_pages env p in
            let out := write_checksum p (bs_output st) in
            {| build_ret := 0;
               build_packer := Some (bs_packer st);
               build_output := Some out;
               build_successful := successful_pages st;
               build_simulated := failed_pages st |}
        end
  | _, _ => build_fails (- EINVAL) packer
  end.

(* ================================================================== *)
(** * bigcache_index.c: loader and lookup table *)

(** A call either returns or dereferences a null pointer. *)
Inductive Outcome (A : Type) : Type :=
  | Returns (a : A)
  | NullDeref.
Arguments Returns {A} a.
Arguments NullDeref {A}.

(** [RuntimePageEntry]; [file_path] is the [strdup]ed string. *)
Record RuntimePageEntry : Type := mkRuntimePageEntry {
  file_path : list Z;
  source_offset : Z;
  bigcache_offset : Z;
  access_order : Z
}.

(** [PageLookupTable]: [buckets[k]] is the chain of bucket [k], head
    first.  A chain cell always carries an entry. *)
Record PageLookupTable : Type := mkPageLookupTable {
  buckets : list (list RuntimePageEntry);
  num_buckets : Z;
  table_entries : Z
}.

(** [calloc_ok]: whether the allocator serves the two [calloc]s. *)
Definition create_lookup_table (calloc_ok : bool) (n : Z)
    : option PageLookupTable :=
  if negb calloc_ok then None
  else
    let nb := size_t (n * 3) / 2 in
    let nb := if nb <? 1024 then 1024 else nb in
    Some {| buckets := repeat [] (Z.to_nat nb);
            num_buckets := nb;
            table_entries := 0 |}.

Definition bucket_index (table : PageLookupTable) (path : list Z)
    (offset : Z) : nat :=
  Z.to_nat (hash_fnv1a path offset mod num_buckets table).

Definition lookup_table_insert (alloc_ok : bool) (table : PageLookupTable)
    (path : list Z) (src_offset bc_offset order : Z) : Z * PageLookupTable :=
  let idx := bucket_index table path src_offset in
  if negb alloc_ok then (- ENOMEM, table)
  else
    let entry :=
      {| file_path := strdup path;
         source_offset := src_offset;
         bigcache_offset := bc_offset;
         access_order := order |} in
    (0, {| buckets := <[idx := entry :: nth idx (buckets table) []]>
                        (buckets table);
           num_buckets := num_buckets table;
           table_entries := size_t (table_entries table + 1) |}).

(** The [while (bucket)] loop of [lookup_table_find]. *)
Fixpoint find_in_chain (chain : list RuntimePageEntry) (path : list Z)
    (src_offset : Z) : option RuntimePageEntry :=
  match chain with
  | [] => None
  | entry :: next =>
      if (source_offset entry =? src_offset)
         && (strcmp (file_path entry) path =? 0)
      then Some entry
      else find_in_chain next path src_offset
  end.

Definition lookup_table_find (table : PageLookupTable) (path : list Z)
    (src_offset : Z) : option RuntimePageEntry :=
  find_in_chain (nth (bucket_index table path src_offset) (buckets table) [])
                path src_offset.

(** The header as [memcpy] leaves it in the context. *)
Record Header : Type := mkHeader {
  h_magic : Z;
  h_version : Z;
  h_num_pages : Z;
  h_num_files : Z;
  h_data_offset : Z;
  h_index_offset : Z;
  h_file_table_offset : Z;
  h_total_size : Z;
  h_checksum : Z;
  h_flags : Z;
  h_reserved : list Z
}.

Definition read_header (m : mem) : Header :=
  let h := field_off BigCacheHeader 0 in
  {| h_magic := read_u32 m (h "magic"%string);
     h_version := read_u32 m (h "version"%string);
     h_num_pages := read_u32 m (h "num_pages"%string);
     h_num_files := read_u32 m (h "num_files"%string);
     h_data_offset := read_u64 m (h "data_offset"%string);
     h_index_offset := read_u64 m (h "index_offset"%string);
     h_file_table_offset := read_u64 m (h "file_table_offset"%string);
     h_total_size := read_u64 m (h "total_size"%string);
     h_checksum := read_u32 m (h "checksum"%string);
     h_flags := read_u32 m (h "flags"%string);
     h_reserved := mem_read m (h "reserved"%string) 32 |}.

Definition zero_header : Header :=
  {| h_magic := 0; h_version := 0; h_num_pages := 0; h_num_files := 0;
     h_data_offset := 0; h_index_offset := 0; h_file_table_offset := 0;
     h_total_size := 0; h_checksum := 0; h_flags := 0;
     h_reserved := zeros 32 |}.

Definition MAP_FAILED : Z := 2 ^ 64 - 1.

(** [BigCacheContext].  [mapped_data] is the address of the mapping and
    [mapped] its content; [page_index] and [file_table] are kept as offsets
    into it. *)
Record BigCacheContext : Type := mkBigCacheContext {
  fd : Z;
  mapped_data : Z;
  mapped : mem;
  mapped_size : Z;
  header : Header;
  page_index : Z;
  file_table : Z;
  lookup_table : option PageLookupTable;
  hit_count : Z;
  miss_count : Z;
  total_bytes_served : Z;
  is_loaded : Z;
  is_preheated : Z
}.

Definition bigcache_create : BigCacheContext :=
  {| fd := -1; mapped_data := MAP_FAILED; mapped := []; mapped_size := 0;
     header := zero_header; page_index := 0; file_table := 0;
     lookup_table := None;
     hit_count := 0; miss_count := 0; total_bytes_served := 0;
     is_loaded := 0; is_preheated := 0 |}.

Definition bigcache_unload (ctx : BigCacheContext) : BigCacheContext :=
  {| fd := -1; mapped_data := MAP_FAILED; mapped := [];
     mapped_size := mapped_size ctx;
     header := header ctx;
     page_index := page_index ctx; file_table := file_table ctx;
     lookup_table := lookup_table ctx;
     hit_count := hit_count ctx; miss_count := miss_count ctx;
     total_bytes_served := total_bytes_served ctx;
     is_loaded := 0; is_preheated := 0 |}.

(** Page record [i] of the index region and the path of file record [id],
    as the loader reads them from the mapping. *)
Definition page_record_at (h : Header) (i : Z) : Z :=
  h_index_offset h + i * sizeof BigCachePageIndex.

Definition record_file_id (m : mem) (h : Header) (i : Z) : Z :=
  read_u32 m (field_off BigCachePageIndex (page_record_at h i)
                "file_id"%string).

Definition record_source_offset (m : mem) (h : Header) (i : Z) : Z :=
  read_u64 m (field_off BigCachePageIndex (page_record_at h i)
                "source_offset"%string).

Definition record_access_order (m : mem) (h : Header) (i : Z) : Z :=
  read_u32 m (field_off BigCachePageIndex (page_record_at h i)
                "access_order"%string).

(** [file_table[id].path] as a [char *] into the mapping.  A pointer past
    the end of the mapping gives the empty string here; the program
    faults on it.  [record_in_mapping] says when the reads of a load stay
    inside. *)
Definition file_entry_path (m : mem) (h : Header) (id : Z) : list Z :=
  mem_from m (field_off BigCacheFileEntry
                (h_file_table_offset h + id * sizeof BigCacheFileEntry)
                "path"%string).

Definition record_path (m : mem) (h : Header) (i : Z) : list Z :=
  file_entry_path m h (record_file_id m h i).

(** What opening and mapping the bundle gives. *)
Inductive FileOutcome : Type :=
  | LoadOpenFails (errno : Z)
  | LoadFstatFails (errno : Z)
  | LoadMmapFails (errno st_size : Z)
  | LoadMapped (new_fd addr : Z) (data : mem).

Record LoadEnv : Type := mkLoadEnv {
  load_file : FileOutcome;
  table_alloc_ok : bool;
  entry_alloc_ok : Z -> bool
}.

(** The loop that fills the lookup table: [remaining] turns from [i]. *)
Fixpoint fill_lookup_table (env : LoadEnv) (m : mem) (h : Header)
    (remaining : nat) (i : Z) (table : PageLookupTable)
    : Z * PageLookupTable :=
  match remaining with
  | O => (0, table)
  | S r =>
      let bc_offset := u64 (h_data_offset h + i * PAGE_SIZE) in
      let '(ret, table') :=
        lookup_table_insert (entry_alloc_ok env i) table
          (record_path m h i) (record_source_offset m h i)
          bc_offset (record_access_order m h i) in
      if ret <? 0 then (ret, table')
      else fill_lookup_table env m h r (i + 1) table'
  end.

(** Assignments to the fields of the context. *)
Definition set_fd (new_fd : Z) (ctx : BigCacheContext) : BigCacheContext :=
  {| fd := new_fd; mapped_data := mapped_data ctx; mapped := mapped ctx;
     mapped_size := mapped_size ctx; header := header ctx;
     page_index := page_index ctx; file_table := file_table ctx;
     lookup_table := lookup_table ctx;
     hit_count := hit_count ctx; miss_count := miss_count ctx;
     total_bytes_served := total_bytes_served ctx;
     is_loaded := is_loaded ctx; is_preheated := is_preheated ctx |}.

Definition set_mapping (addr : Z) (data : mem) (size : Z)
    (ctx : BigCacheContext) : BigCacheContext :=
  {| fd := fd ctx; mapped_data := addr; mapped := data;
     mapped_size := size; header := header ctx;
     page_index := page_index ctx; file_table := file_table ctx;
     lookup_table := lookup_table ctx;
     hit_count := hit_count ctx; miss_count := miss_count ctx;
     total_bytes_served := total_bytes_served ctx;
     is_loaded := is_loaded ctx; is_preheated := is_preheated ctx |}.

Definition set_header (h : Header) (ctx : BigCacheContext) : BigCacheContext :=
  {| fd := fd ctx; mapped_data := mapped_data ctx; mapped := mapped ctx;
     mapped_size := mapped_size ctx; header := h;
     page_index := page_index ctx; file_table := file_table ctx;
     lookup_table := lookup_table ctx;
     hit_count := hit_count ctx; miss_count := miss_count ctx;
     total_bytes_served := total_bytes_served ctx;
     is_loaded := is_loaded ctx; is_preheated := is_preheated ctx |}.

Definition set_pointers (index table : Z) (ctx : BigCacheContext)
    : BigCacheContext :=
  {| fd := fd ctx; mapped_data := mapped_data ctx; mapped := mapped ctx;
     mapped_size := mapped_size ctx; header := header ctx;
     page_index := index; file_table := table;
     lookup_table := lookup_table ctx;
     hit_count := hit_count ctx; miss_count := miss_count ctx;
     total_bytes_served := total_bytes_served ctx;
     is_loaded := is_loaded ctx; is_preheated := is_preheated ctx |}.

Definition set_lookup_table (table : option PageLookupTable)
    (ctx : BigCacheContext) : BigCacheContext :=
  {| fd := fd ctx; mapped_data := mapped_data ctx; mapped := mapped ctx;
     mapped_size := mapped_size ctx; header := header ctx;
     page_index := page_index ctx; file_table := file_table ctx;
     lookup_table := table;
     hit_count := hit_count ctx; miss_count := miss_count ctx;
     total_bytes_served := total_bytes_served ctx;
     is_loaded := is_loaded ctx; is_preheated := is_preheated ctx |}.

Definition set_is_loaded (v : Z) (ctx : BigCacheContext) : BigCacheContext :=
  {| fd := fd ctx; mapped_data := mapped_data ctx; mapped := mapped ctx;
     mapped_size := mapped_size ctx; header := header ctx;
     page_index := page_index ctx; file_table := file_table ctx;
     lookup_table := lookup_table ctx;
     hit_count := hit_count ctx; miss_count := miss_count ctx;
     total_bytes_served := total_bytes_served ctx;
     is_loaded := v; is_preheated := is_preheated ctx |}.

Definition set_hit_count (v : Z) (ctx : BigCacheContext) : BigCacheContext :=
  {| fd := fd ctx; mapped_data := mapped_data ctx; mapped := mapped ctx;
     mapped_size := mapped_size ctx; header := header ctx;
     page_index := page_index ctx; file_table := file_table ctx;
     lookup_table := lookup_table ctx;
     hit_count := v; miss_count := miss_count ctx;
     total_bytes_served := total_bytes_served ctx;
     is_loaded := is_loaded ctx; is_preheated := is_preheated ctx |}.

Definition set_miss_count (v : Z) (ctx : BigCacheContext) : BigCacheContext :=
  {| fd := fd ctx; mapped_data := mapped_data ctx; mapped := mapped ctx;
     mapped_size := mapped_size ctx; header := header ctx;
     page_index := page_index ctx; file_table := file_table ctx;
     lookup_table := lookup_table ctx;
     hit_count := hit_count ctx; miss_count := v;
     total_bytes_served := total_bytes_served ctx;
     is_loaded := is_loaded ctx; is_preheated := is_preheated ctx |}.

Definition set_total_bytes_served (v : Z) (ctx : BigCacheContext)
    : BigCacheContext :=
  {| fd := fd ctx; mapped_data := mapped_data ctx; mapped := mapped ctx;
     mapped_size := mapped_size ctx; header := header ctx;
     page_index := page_index ctx; file_table := file_table ctx;
     lookup_table := lookup_table ctx;
     hit_count := hit_count ctx; miss_count := miss_count ctx;
     total_bytes_served := v;
     is_loaded := is_loaded ctx; is_preheated := is_preheated ctx |}.

Definition bigcache_load (env : LoadEnv) (ctx : option BigCacheContext)
    (path : option (list Z)) : Z * option BigCacheContext :=
  match ctx, path with
  | Some c, Some _ =>
      match load_file env with
      | LoadOpenFails errno => (- errno, Some (set_fd (-1) c))
      | LoadFstatFails errno => (- errno, Some (set_fd (-1) c))
      | LoadMmapFails errno st_size =>
          (- errno, Some (set_fd (-1) (set_mapping MAP_FAILED [] st_size c)))
      | LoadMapped new_fd addr data =>
          let c := set_fd new_fd c in
          let c := set_mapping addr data (Z.of_nat (length data)) c in
          let c := set_header (read_header data) c in
          if negb (h_magic (header c) =? BIGCACHE_MAGIC) then
            (- EINVAL, Some (bigcache_unload c))
          else if negb (h_version (header c) =? BIGCACHE_VERSION) then
            (- EINVAL, Some (bigcache_unload c))
          else
            let c := set_pointers (h_index_offset (header c))
                       (h_file_table_offset (header c)) c in
            let created :=
              create_lookup_table (table_alloc_ok env)
                (h_num_pages (header c)) in
            let c := set_lookup_table created c in
            match created with
            | None => (- ENOMEM, Some (bigcache_unload c))
            | Some table =>
                let '(ret, table') :=
                  fill_lookup_table env data (header c)
                    (Z.to_nat (h_num_pages (header c))) 0 table in
                let c := set_lookup_table (Some table') c in
                if ret <? 0 then (ret, Some (bigcache_unload c))
                else (0, Some (set_is_loaded 1 c))
            end
      end
  | _, _ => (- EINVAL, ctx)
  end.

Definition count_miss (ctx : BigCacheContext) : BigCacheContext :=
  set_miss_count (u64 (miss_count ctx + 1)) ctx.

Definition count_hit (ctx : BigCacheContext) : BigCacheContext :=
  set_hit_count (u64 (hit_count ctx + 1)) ctx.

Definition count_served (ctx : BigCacheContext) : BigCacheContext :=
  set_total_bytes_served (u64 (total_bytes_served ctx + PAGE_SIZE)) ctx.

(** [bigcache_lookup]: the pointer returned ([None] is [NULL]) and the
    context after the call. *)
Definition bigcache_lookup (ctx : option BigCacheContext)
    (path : option (list Z)) (offset : Z)
    : Outcome (option Z * option BigCacheContext) :=
  match ctx, path with
  | Some c, Some f =>
      if is_loaded c =? 0 then Returns (None, ctx)
      else
        let page_offset := page_align offset in
        match lookup_table c with
        | None => NullDeref
        | Some table =>
            match lookup_table_find table f page_offset with
            | None => Returns (None, Some (count_miss c))
            | Some entry =>
                Returns (Some (mapped_data c + bigcache_offset entry),
                         Some (count_served (count_hit c)))
            end
        end
  | _, _ => Returns (None, ctx)
  end.

(** [bigcache_lookup_offset]: [out] is the cell [out_bigcache_offset]
    points to ([None] for a null pointer); the result carries the return
    value, the cell and the context after the call. *)
Definition bigcache_lookup_offset (ctx : option BigCacheContext)
    (path : option (list Z)) (offset : Z) (out : option Z)
    : Outcome (Z * option Z * option BigCacheContext) :=
  match ctx, path, out with
  | Some c, Some f, Some _ =>
      if is_loaded c =? 0 then Returns (- EINVAL, out, ctx)
      else
        let page_offset := page_align offset in
        match lookup_table c with
        | None => NullDeref
        | Some table =>
            match lookup_table_find table f page_offset with
            | None => Returns (- ENOENT, out, Some (count_miss c))
            | Some entry =>
                Returns (0, Some (bigcache_offset entry),
                         Some (count_hit c))
            end
        end
  | _, _, _ => Returns (- EINVAL, out, ctx)
  end.

(** [bigcache_verify]: the checksum is not looked at (the source leaves it
    as a TODO). *)
Definition bigcache_verify (ctx : option BigCacheContext) : Z :=
  match ctx with
  | Some c =>
      if is_loaded c =? 0 then - EINVAL
      else if negb (h_magic (header c) =? BIGCACHE_MAGIC) then -1
      else if negb (h_total_size (header c) =? mapped_size c) then -1
      else 0
  | None => - EINVAL
  end.

(* ================================================================== *)
(** * uffd_handler.c: the page-fault routine *)

(** [MemoryRegion]; the list of regions is the chain through [next]. *)
Record MemoryRegion : Type := mkMemoryRegion {
  base : Z;
  size : Z;
  region_file_path : list Z;
  file_offset_base : Z;
  prot : Z
}.

Record UffdConfig : Type := mkUffdConfig {
  enable_zero_fill : Z;
  enable_stats : Z;
  enable_logging : Z;
  handler_priority : Z;
  prefetch_ahead : Z
}.

Section Handler.

(** The three timing fields of the statistics are [double]s.  Their
    arithmetic is left abstract: a type with the operations the routine
    applies to it. *)
Variable double : Type.
Variable d_sub d_add d_div : double -> double -> double.
Variable d_gt : double -> double -> bool.
Variable d_of_u64 : Z -> double.

Record UffdStats : Type := mkUffdStats {
  total_faults : Z;
  cache_hits : Z;
  cache_misses : Z;
  zero_fills : Z;
  copy_errors : Z;
  total_handle_time_us : double;
  avg_handle_time_us : double;
  max_handle_time_us : double
}.

(** [UffdHandler]; [bigcache] is the context the handler points to. *)
Record UffdHandler : Type := mkUffdHandler {
  uffd : Z;
  running : Z;
  bigcache : option BigCacheContext;
  regions : list MemoryRegion;
  num_regions : Z;
  config : UffdConfig;
  stats : UffdStats;
  zero_page : Z
}.

Definition set_bigcache (b : option BigCacheContext) (h : UffdHandler)
    : UffdHandler :=
  {| uffd := uffd h; running := running h; bigcache := b;
     regions := regions h; num_regions := num_regions h;
     config := config h; stats := stats h; zero_page := zero_page h |}.

Definition set_stats (s : UffdStats) (h : UffdHandler) : UffdHandler :=
  {| uffd := uffd h; running := running h; bigcache := bigcache h;
     regions := regions h; num_regions := num_regions h;
     config := config h; stats := s; zero_page := zero_page h |}.

(** The scan of [_uffd_find_region]. *)
Fixpoint find_region (rs : list MemoryRegion) (target : Z)
    : option MemoryRegion :=
  match rs with
  | [] => None
  | region :: next =>
      let start := base region in
      let stop := u64 (start + size region) in
      if (start <=? target) && (target <? stop) then Some region
      else find_region next target
  end.

Definition _uffd_find_region (h : UffdHandler) (addr : Z)
    : option MemoryRegion :=
  find_region (regions h) addr.

(** What the clock and the kernel answer during one fault: the two
    readings of [get_time_us] and the result of [ioctl (UFFDIO_COPY)]
    ([None] on success, the [errno] otherwise). *)
Record FaultEnv : Type := mkFaultEnv {
  clock_start : double;
  clock_end : double;
  copy_errno : option Z
}.

Definition count_copy_error (s : UffdStats) : UffdStats :=
  {| total_faults := total_faults s; cache_hits := cache_hits s;
     cache_misses := cache_misses s; zero_fills := zero_fills s;
     copy_errors := u64 (copy_errors s + 1);
     total_handle_time_us := total_handle_time_us s;
     avg_handle_time_us := avg_handle_time_us s;
     max_handle_time_us := max_handle_time_us s |}.

(** The statistics block at the end of the routine. *)
Definition count_fault (cfg : UffdConfig) (cache_hit : bool)
    (elapsed : double) (s : UffdStats) : UffdStats :=
  let faults := u64 (total_faults s + 1) in
  let total_time := d_add (total_handle_time_us s) elapsed in
  {| total_faults := faults;
     cache_hits := if cache_hit then u64 (cache_hits s + 1) else cache_hits s;
     cache_misses :=
       if cache_hit then cache_misses s
       else if enable_zero_fill cfg =? 0 then u64 (cache_misses s + 1)
       else cache_misses s;
     zero_fills :=
       if cache_hit then zero_fills s
       else if enable_zero_fill cfg =? 0 then zero_fills s
       else u64 (zero_fills s + 1);
     copy_errors := copy_errors s;
     total_handle_time_us := total_time;
     avg_handle_time_us := d_div total_time (d_of_u64 faults);
     max_handle_time_us :=
       if d_gt elapsed (max_handle_time_us s) then elapsed
       else max_handle_time_us s |}.

(** [_uffd_handle_pagefault]: the return value and the handler after the
    call. *)
Definition _uffd_handle_pagefault (env : FaultEnv) (h : UffdHandler)
    (fault_addr fault_flags : Z) : Outcome (Z * UffdHandler) :=
  let page_addr := page_align fault_addr in
  match _uffd_find_region h page_addr with
  | None => Returns (- ENOENT, h)
  | Some region =>
      let offset_in_region := u64 (page_addr - base region) in
      let file_offset := u64 (file_offset_base region + offset_in_region) in
      match bigcache_lookup (bigcache h) (Some (region_file_path region))
              file_offset with
      | NullDeref => NullDeref
      | Returns (source_data, ctx) =>
          let h := set_bigcache ctx h in
          let cache_hit :=
            match source_data with Some _ => true | None => false end in
          if negb cache_hit && (enable_zero_fill (config h) =? 0) then
            Returns (- ENODATA, h)
          else
            match copy_errno env with
            | Some errno =>
                if negb (errno =? EEXIST) then
                  if negb (enable_stats (config h) =? 0) then
                    Returns (- errno,
                             set_stats (count_copy_error (stats h)) h)
                  else Returns (- errno, h)
                else
                  if negb (enable_stats (config h) =? 0) then
                    Returns (0,
                             set_stats
                               (count_fault (config h) cache_hit
                                  (d_sub (clock_end env) (clock_start env))
                                  (stats h)) h)
                  else Returns (0, h)
            | None =>
                if negb (enable_stats (config h) =? 0) then
                  Returns (0,
                           set_stats
                             (count_fault (config h) cache_hit
                                (d_sub (clock_end env) (clock_start env))
                                (stats h)) h)
                else Returns (0, h)
            end
      end
  end.

End Handler.

Arguments total_faults {double} _.
Arguments cache_hits {double} _.
Arguments cache_misses {double} _.
Arguments zero_fills {double} _.
Arguments copy_errors {double} _.
Arguments stats {double} _.
Arguments config {double} _.
Arguments regions {double} _.
Arguments bigcache {double} _.
Arguments copy_errno {double} _.

(* ================================================================== *)
(** * Reference definitions *)

(** The contexts and paths the guards of the two lookups turn away. *)
Definition lookup_refused (ctx : option BigCacheContext)
    (f : option (list Z)) : Prop :=
  ctx = None \/ f = None \/ exists c, ctx = Some c /\ is_loaded c = 0.

(** CRC-32 as the format describes it, bit by bit: reflected, the register
    starts at [init], each byte is xor-ed into its low end and followed by
    eight shifts to the right, each of which xors [poly] in when the bit
    shifted out is 1; the result is the register xor [xorout]. *)
Definition crc_shift_bit (poly c : Z) : Z :=
  if Z.odd c then Z.lxor (Z.shiftr c 1) poly else Z.shiftr c 1.

Definition crc_absorb_byte (poly crc b : Z) : Z :=
  Nat.iter 8 (crc_shift_bit poly) (Z.lxor crc (b mod 256)).

Definition crc_reference (poly init xorout : Z) (data : list Z) : Z :=
  Z.lxor (fold_left (crc_absorb_byte poly) data init) xorout.

Definition crc32_ieee : list Z -> Z :=
  crc_reference 0xEDB88320 0xFFFFFFFF 0xFFFFFFFF.

(* ================================================================== *)
(** * Records of a page in the packer *)

(** The test of [page_exists] on one entry, and the entries that pass it:
    the records the packer holds for the page [page_offset] of [path]. *)
Definition entry_matches (path : list Z) (page_offset : Z)
    (e : PackerPageEntry) : bool :=
  (pe_offset e =? page_offset) && (strcmp (pe_file_path e) path =? 0).

Definition records_of (packer : BigCachePacker) (path : list Z)
    (page_offset : Z) : list PackerPageEntry :=
  List.filter (entry_matches path page_offset) (entries packer).

(* ================================================================== *)
(** * What a built bundle holds for a page *)

(** Whether the page of an entry is read in full from its origin file. *)
Definition page_read_ok (fs : SourceFs) (pe : PackerPageEntry) : bool :=
  match fs (cstr (pe_file_path pe)) with
  | Some file =>
      match pread file PAGE_SIZE (pe_offset pe) with
      | PreadData bytes => Z.of_nat (length bytes) =? PAGE_SIZE
      | PreadError => false
      end
  | None => false
  end.

(** Whether the origin file of an entry cannot be opened, or its [pread]
    fails. *)
Definition page_unreadable (fs : SourceFs) (pe : PackerPageEntry) : bool :=
  match fs (cstr (pe_file_path pe)) with
  | Some file =>
      match pread file PAGE_SIZE (pe_offset pe) with
      | PreadData _ => false
      | PreadError => true
      end
  | None => true
  end.

(** The 4 KiB the data region holds for an entry: the page read, when it
    is read in full; zeros, when the read is short or fails; the
    ["SIMULATED PAGE"] text followed by zeros, when the file cannot be
    opened. *)
Definition page_image (fs : SourceFs) (pe : PackerPageEntry) : list Z :=
  match fs (cstr (pe_file_path pe)) with
  | Some file =>
      match pread file PAGE_SIZE (pe_offset pe) with
      | PreadData bytes =>
          if Z.of_nat (length bytes) =? PAGE_SIZE then bytes
          else zeros PAGE_SIZE
      | PreadError => zeros PAGE_SIZE
      end
  | None =>
      let text := snprintf 256 (simulated_text pe) in
      text ++ zeros (PAGE_SIZE - Z.of_nat (length text))
  end.

Definition count_if (f : PackerPageEntry -> bool) (es : list PackerPageEntry)
    : Z :=
  Z.of_nat (length (List.filter f es)).

(** The packers whose counts fit the 32-bit fields of the header. *)
Definition packer_in_range (packer : BigCachePacker) : Prop :=
  num_entries packer < 2 ^ 32 /\ num_files packer < 2 ^ 32.

(* ================================================================== *)
(** * Valid bundles

    The conditions of the format that the loader relies on without
    checking them: the data region lies inside the bundle, source offsets
    are page-aligned, and no two page records name the same page of the
    same file. *)

Definition record_ids (n : Z) : list Z := map Z.of_nat (seq 0 (Z.to_nat n)).

Definition same_page (m : mem) (h : Header) (i j : Z) : bool :=
  (strcmp (record_path m h i) (record_path m h j) =? 0)
  && (record_source_offset m h i =? record_source_offset m h j).

Definition valid_bundle (m : mem) : bool :=
  let h := read_header m in
  let ids := record_ids (h_num_pages h) in
  (h_data_offset h + h_num_pages h * PAGE_SIZE <=? h_total_size h)
  && forallb
       (fun i =>
          (page_align (record_source_offset m h i)
           =? record_source_offset m h i)
          && forallb (fun j => (i =? j) || negb (same_page m h i j)) ids)
       ids.

(** The entry the loader inserts for page record [i]. *)
Definition loaded_entry (m : mem) (h : Header) (i : Z) : RuntimePageEntry :=
  {| file_path := strdup (record_path m h i);
     source_offset := record_source_offset m h i;
     bigcache_offset := u64 (h_data_offset h + i * PAGE_SIZE);
     access_order := record_access_order m h i |}.

Definition key_match (path : list Z) (offset : Z) (e : RuntimePageEntry)
    : bool :=
  (source_offset e =? offset) && (strcmp (file_path e) path =? 0).

(** The lookup table as a log of insertions, most recent first: every
    bucket holds, in that order, the entries that hash to it. *)
Definition chain_of (t : PageLookupTable) (log : list RuntimePageEntry)
    (k : nat) : list RuntimePageEntry :=
  List.filter
    (fun e => Nat.eqb (bucket_index t (file_path e) (source_offset e)) k)
    log.

Definition table_models (t : PageLookupTable) (log : list RuntimePageEntry)
    : Prop :=
  0 < num_buckets t /\
  length (buckets t) = Z.to_nat (num_buckets t) /\
  forall k : nat,
    (k < length (buckets t))%nat -> nth k (buckets t) [] = chain_of t log k.

Definition loaded_entries (m : mem) (h : Header) (first count : nat)
    : list RuntimePageEntry :=
  map (fun k => loaded_entry m h (Z.of_nat k)) (seq first count).

(* ================================================================== *)
(** * A small trace and its bundle

    Three pages: the first page of a 5000-byte file, its second page (904
    bytes are left, a short read), and a page of a file that does not
    exist. *)

Definition path_a : list Z := bytes_of_string "/lib/a.so".
Definition path_missing : list Z := bytes_of_string "/data/missing".

Definition sample_fs : SourceFs :=
  fun path =>
    if strcmp path path_a =? 0 then Some (file_pread (repeat 170 5000))
    else None.

Definition sample_env : BuildEnv :=
  {| output_outcome := OutMapped;
     source_fs := sample_fs;
     build_strdup_ok := fun _ => true |}.

Definition add_page (packer : option BigCachePacker) (path : list Z)
    (offset order : Z) : option BigCachePacker :=
  snd (packer_add_page alloc_succeeds packer (Some path) offset order).

Definition sample_packer : BigCachePacker :=
  match
    add_page (add_page (add_page (Some packer_create) path_a 0 0)
                path_a 4100 1)
      path_missing 0 2
  with
  | Some p => p
  | None => packer_create
  end.

Definition out_bin : list Z := bytes_of_string "out.bin".

Definition sample_build : BuildResult :=
  Eval vm_compute in
    packer_build sample_env (Some sample_packer) (Some out_bin).

Definition sample_bundle : mem :=
  match build_output sample_build with
  | Some m => m
  | None => []
  end.

(** The three entries of the sample packer and the file behind the first
    two. *)
Definition sample_entry (i : nat) : PackerPageEntry :=
  nth i (entries sample_packer)
    {| pe_file_path := []; pe_offset := 0; pe_size := 0;
       pe_access_order := 0 |}.

Definition sample_file : Z -> PreadResult := file_pread (repeat 170 5000).

Definition load_env (data : mem) : LoadEnv :=
  {| load_file := LoadMapped 3 0x7f0000000000 data;
     table_alloc_ok := true;
     entry_alloc_ok := fun _ => true |}.

Definition load_bundle (data : mem) : Z * option BigCacheContext :=
  bigcache_load (load_env data) (Some bigcache_create) (Some out_bin).

(** A path of 512 characters, one more than an entry can hold. *)
Definition long_path : list Z := repeat 97 512.

(** The context a successful load of the sample bundle leaves. *)
Definition sample_ctx : BigCacheContext :=
  match snd (load_bundle sample_bundle) with
  | Some c => c
  | None => bigcache_create
  end.

(** The metadata of a bundle of 683 pages of [path_a] (pages 0 to 682 in
    order): header, index region and file table, as the packer's own
    stores lay them out, up to [data_offset].  It is the bundle file cut
    where its data region starts; the loader reads nothing beyond. *)
Definition entry_683 (k : Z) : PackerPageEntry :=
  {| pe_file_path := strncpy path_a (MAX_PATH_LEN - 1) ++ [0];
     pe_offset := PAGE_SIZE * k;
     pe_size := PAGE_SIZE;
     pe_access_order := k |}.

Definition packer_683 : BigCachePacker :=
  {| entries := map entry_683 (record_ids 683);
     capacity := INITIAL_CAPACITY;
     file_paths := [path_a] |}.

Fixpoint write_index (packer0 : BigCachePacker) (es : list PackerPageEntry)
    (i : Z) (out : mem) : mem :=
  match es with
  | [] => out
  | pe :: rest =>
      write_index packer0 rest (i + 1) (write_page_index packer0 i 0 pe out)
  end.

Definition metadata_683 : mem :=
  Eval vm_compute in
    write_index packer_683 (entries packer_683) 0
      (write_file_table packer_683 (file_paths packer_683) 0
         (write_header packer_683 (zeros (data_offset packer_683)))).

(** The lookup table [bigcache_load] leaves in the context for a file. *)
Definition loaded_table (data : mem) : option PageLookupTable :=
  match snd (load_bundle data) with
  | Some c => lookup_table c
  | None => None
  end.

(** A handler over the sample context, with statistics enabled and one
    registered region of three pages backed by [path_a].  For the sample
    the clock is read in whole microseconds. *)
Definition sample_config : UffdConfig :=
  {| enable_zero_fill := 1; enable_stats := 1; enable_logging := 0;
     handler_priority := 0; prefetch_ahead := 0 |}.

Definition sample_stats : UffdStats Z :=
  {| total_faults := 0; cache_hits := 0; cache_misses := 0;
     zero_fills := 0; copy_errors := 0;
     total_handle_time_us := 0; avg_handle_time_us := 0;
     max_handle_time_us := 0 |}.

Definition sample_region : MemoryRegion :=
  {| base := 0x10000; size := 0x3000; region_file_path := path_a;
     file_offset_base := 0; prot := 3 |}.

Definition sample_handler (rs : list MemoryRegion) : UffdHandler Z :=
  {| uffd := 5; running := 1; bigcache := Some sample_ctx;
     regions := rs; num_regions := Z.of_nat (length rs);
     config := sample_config; stats := sample_stats;
     zero_page := 0x20000 |}.

Definition sample_fault_env (result : option Z) : FaultEnv Z :=
  {| clock_start := 100; clock_end := 130; copy_errno := result |}.

Definition sample_pagefault (env : FaultEnv Z) (h : UffdHandler Z)
    (fault_addr : Z) : Outcome (Z * UffdHandler Z) :=
  _uffd_handle_pagefault Z Z.sub Z.add Z.div Z.gtb (fun n => n)
    env h fault_addr 0.

(** The bundle with its last byte (a byte of the third page) changed. *)
Definition corrupted_bundle : mem :=
  mem_write sample_bundle (Z.of_nat (length sample_bundle) - 1) [255].

(* ================================================================== *)
(** * Packers filled through [packer_add_page]

    What [packer_add_page] establishes for every entry it appends when it
    returns 0 for a path of at most 511 characters: the offset is
    page-aligned, the stored path is a C string of fewer than 512
    characters and is found in [file_paths], and no two entries record the
    same page of the same path. *)

Definition registered (packer : BigCachePacker) (pe : PackerPageEntry)
    : Prop :=
  find_file (file_paths packer) (pe_file_path pe) 0 <> None.

Definition entry_wf (packer : BigCachePacker) (e : PackerPageEntry) : Prop :=
  pe_offset e = page_align (pe_offset e) /\
  pe_size e = PAGE_SIZE /\
  strlen (pe_file_path e) < MAX_PATH_LEN /\
  find_file (file_paths packer) (pe_file_path e) 0 <> None.

Definition packer_wf (packer : BigCachePacker) : Prop :=
  Forall (entry_wf packer) (entries packer) /\
  (forall i j e e',
     entries packer !! i = Some e -> entries packer !! j = Some e' ->
     pe_offset e = pe_offset e' ->
     strcmp (pe_file_path e) (pe_file_path e') = 0 -> i = j) /\
  num_files packer <= MAX_FILES.

(** The 532 bytes of the file record [packer_build] writes for
    [file_paths[i]], and the 20 bytes of the index record it writes for an
    entry whose file has the id [id]. *)
Definition file_record_image (packer : BigCachePacker) (i : Z)
    (path : list Z) : list Z :=
  le_bytes 4 (u32 i) ++
  le_bytes 4 (u32 (Z.min (strlen path) (MAX_PATH_LEN - 1))) ++
  le_bytes 4 (u32 (count_pages (entries packer) path)) ++
  le_bytes 8 0 ++
  (strncpy path (MAX_PATH_LEN - 1) ++ [0]).

Definition index_record_image (id : Z) (pe : PackerPageEntry) : list Z :=
  le_bytes 4 (u32 id) ++
  le_bytes 8 (pe_offset pe) ++
  le_bytes 4 (pe_access_order pe) ++
  le_bytes 2 (page_flags pe) ++
  zeros 2.

(** The test [lookup_table_find] applies to the entry of page record [j]
    of a loaded bundle, for the key [(f, offset)]. *)
Definition record_matches (m : mem) (f : list Z) (offset : Z) (j : Z)
    : bool :=
  (record_source_offset m (read_header m) j =? offset)
  && (strcmp (record_path m (read_header m) j) f =? 0).

(** Two contexts that differ at most in their three counters. *)
Definition keeps_mapping (c c' : BigCacheContext) : Prop :=
  fd c' = fd c /\ mapped_data c' = mapped_data c /\
  mapped c' = mapped c /\ mapped_size c' = mapped_size c /\
  header c' = header c /\
  page_index c' = page_index c /\ file_table c' = file_table c /\
  lookup_table c' = lookup_table c /\
  is_loaded c' = is_loaded c /\ is_preheated c' = is_preheated c.

(** The reads of the loop of [bigcache_load] for page record [i]: the
    record itself, [page_index[i]], and the path of the file record it
    names, [file_table[file_id].path], which [lookup_table_insert] reads
    up to its terminator.  Both lie inside the mapping when the 20 bytes
    of the record do and a NUL follows the start of the path before the
    mapping ends.  [file_entry_path] gives the empty string for a path
    that starts beyond the mapping, where the program faults: a load is
    followed by the model only as far as its reads stay inside. *)
Definition record_in_mapping (m : mem) (i : Z) : bool :=
  let h := read_header m in
  (page_record_at h i + sizeof BigCachePageIndex <=? Z.of_nat (length m))
  && existsb (Z.eqb 0)
       (mem_from m
          (field_off BigCacheFileEntry
             (h_file_table_offset h
              + record_file_id m h i * sizeof BigCacheFileEntry)
             "path"%string)).

Definition records_in_mapping (m : mem) : bool :=
  forallb (record_in_mapping m) (record_ids (h_num_pages (read_header m))).

(** A file that passes the checks of magic and version has its records in
    the mapping. *)
Definition load_reads_mapping (env : LoadEnv) : Prop :=
  forall new_fd addr data,
    load_file env = LoadMapped new_fd addr data ->
    h_magic (read_header data) = BIGCACHE_MAGIC ->
    h_version (read_header data) = BIGCACHE_VERSION ->
    records_in_mapping data = true.

(* ================================================================== *)
(** * bigcache_index.c: preheating a range *)

(** What a routine that reads the mapping gives: its result, or the fact
    that it reads a byte outside the bytes of the mapped file, where the
    program faults (or, inside the last page, reads what follows the
    file's end); what happens then is not modelled. *)
Inductive Access (A : Type) : Type :=
  | Reads (a : A)
  | OutsideMapping.

Arguments Reads {A} a.
Arguments OutsideMapping {A}.

(** The loop [for (i = 0; i < length; i += PAGE_SIZE) sum += data[i]]:
    the values of [i] at which a byte is read. *)
Fixpoint touch_pages (turns : nat) (i length : Z) : list Z :=
  match turns with
  | O => []
  | S rest =>
      if i <? length then i :: touch_pages rest (size_t (i + PAGE_SIZE)) length
      else []
  end.

(** [bigcache_preheat_range]: the return value and the offsets in the
    mapping of the bytes the call reads, [data[i]] being the byte of the
    mapping at [start_offset + i].  The sum of the bytes is dropped by the
    routine. *)
Definition bigcache_preheat_range (ctx : option BigCacheContext)
    (start_order end_order : Z) : Access (Z * list Z) :=
  match ctx with
  | Some c =>
      if is_loaded c =? 0 then Reads (- EINVAL, [])
      else if (start_order >=? h_num_pages (header c))
              || (end_order >? h_num_pages (header c))
              || (start_order >=? end_order)
      then Reads (- EINVAL, [])
      else
        let start_offset :=
          size_t (h_data_offset (header c) + size_t (start_order * PAGE_SIZE))
        in
        let end_offset :=
          size_t (h_data_offset (header c) + size_t (end_order * PAGE_SIZE))
        in
        let length := size_t (end_offset - start_offset) in
        let data := mem_from (mapped c) start_offset in
        let touched :=
          touch_pages (Z.to_nat (length / PAGE_SIZE + 1)) 0 length in
        match mapM (fun i => data !! Z.to_nat i) touched with
        | Some _ => Reads (0, map (fun i => start_offset + i) touched)
        | None => OutsideMapping
        end
  | None => Reads (- EINVAL, [])
  end.

(* ================================================================== *)
(** * uffd_handler.c: regions, mappings and the event loop

    The functions are embedded as one thread runs them; the two mutexes
    are not modelled. *)

Definition EINTR : Z := 4.
Definition EAGAIN : Z := 11.
Definition UFFD_EVENT_PAGEFAULT : Z := 0x12.

(** [(size + PAGE_SIZE - 1) & ~(PAGE_SIZE - 1)] on a [size_t]. *)
Definition page_round_up (size : Z) : Z :=
  Z.land (size_t (size + PAGE_SIZE - 1)) (size_t (Z.lnot (PAGE_SIZE - 1))).

(** What the allocator and the kernel answer during one
    [uffd_handler_register_region]: the [calloc], the [strdup], and
    [ioctl (UFFDIO_REGISTER)] ([None] on success, the [errno] otherwise). *)
Record RegisterEnv : Type := mkRegisterEnv {
  region_calloc_ok : bool;
  region_strdup_ok : bool;
  register_errno : option Z
}.

(** The unlinking loop of [uffd_handler_unregister_region]: the list
    without the first region based at [addr], if there is one. *)
Fixpoint remove_region (rs : list MemoryRegion) (addr : Z)
    : option (list MemoryRegion) :=
  match rs with
  | [] => None
  | region :: next =>
      if base region =? addr then Some next
      else
        match remove_region next addr with
        | Some rest => Some (region :: rest)
        | None => None
        end
  end.

(** What the kernel delivers in one turn of the loop of
    [handler_thread_func]. *)
Inductive PollOutcome : Type :=
  | PollFails (errno : Z)
  | PollTimeout
  | PollReady (shutdown_in uffd_in : bool).

Inductive ReadOutcome : Type :=
  | ReadFails (errno : Z)
  | ReadShort (n : Z)
  | ReadMsg (event address flags : Z).

Record UffdioCopy : Type := mkUffdioCopy {
  copy_dst : Z;
  copy_src : Z;
  copy_len : Z;
  copy_mode : Z
}.

Inductive LoopStatus : Type :=
  | LoopExited
  | LoopPolling.

Section HandlerApi.

Variable double : Type.
Variable d_sub d_add d_div : double -> double -> double.
Variable d_gt : double -> double -> bool.
Variable d_of_u64 : Z -> double.

Definition set_regions (rs : list MemoryRegion) (n : Z)
    (h : UffdHandler double) : UffdHandler double :=
  {| uffd := uffd double h; running := running double h;
     bigcache := bigcache h;
     regions := rs; num_regions := n;
     config := config h; stats := stats h;
     zero_page := zero_page double h |}.

Definition set_running (v : Z) (h : UffdHandler double)
    : UffdHandler double :=
  {| uffd := uffd double h; running := v;
     bigcache := bigcache h;
     regions := regions h; num_regions := num_regions double h;
     config := config h; stats := stats h;
     zero_page := zero_page double h |}.

(** [uffd_handler_register_region]: the return value and the handler
    after the call.  A null [addr] is 0.  The new region is linked in at
    the head of the list; its [prot] is what [calloc] left there. *)
Definition uffd_handler_register_region (env : RegisterEnv)
    (handler : option (UffdHandler double)) (addr size : Z)
    (file_path : option (list Z)) (file_offset_base : Z)
    : Z * option (UffdHandler double) :=
  match handler, file_path with
  | Some h, Some path =>
      if (addr =? 0) || (size =? 0) then (- EINVAL, handler)
      else if negb (addr mod PAGE_SIZE =? 0) then (- EINVAL, handler)
      else
        let size :=
          if negb (size mod PAGE_SIZE =? 0) then page_round_up size
          else size in
        if negb (region_calloc_ok env) then (- ENOMEM, handler)
        else if negb (region_strdup_ok env) then (- ENOMEM, handler)
        else
          match register_errno env with
          | Some errno => (- errno, handler)
          | None =>
              let region :=
                {| base := addr; size := size;
                   region_file_path := strdup path;
                   file_offset_base := file_offset_base;
                   prot := 0 |} in
              (0, Some (set_regions (region :: regions h)
                          (num_regions double h + 1) h))
          end
  | _, _ => (- EINVAL, handler)
  end.

(** [uffd_handler_unregister_region].  A failure of
    [ioctl (UFFDIO_UNREGISTER)] is only logged. *)
Definition uffd_handler_unregister_region
    (handler : option (UffdHandler double)) (addr : Z)
    : Z * option (UffdHandler double) :=
  match handler with
  | Some h =>
      if addr =? 0 then (- EINVAL, handler)
      else
        match remove_region (regions h) addr with
        | Some rest =>
            (0, Some (set_regions rest (num_regions double h - 1) h))
        | None => (- ENOENT, handler)
        end
  | None => (- EINVAL, handler)
  end.

(** [uffd_handler_create_mapping]: [mmap_result] is what the anonymous
    [mmap] returns. *)
Definition uffd_handler_create_mapping (mmap_result : Z) (env : RegisterEnv)
    (handler : option (UffdHandler double)) (size : Z)
    (file_path : option (list Z)) (file_offset_base prot : Z)
    : Z * option (UffdHandler double) :=
  match handler, file_path with
  | Some _, Some _ =>
      if size =? 0 then (MAP_FAILED, handler)
      else
        let size := page_round_up size in
        let addr := mmap_result in
        if addr =? MAP_FAILED then (MAP_FAILED, handler)
        else
          let '(ret, handler') :=
            uffd_handler_register_region env handler addr size file_path
              file_offset_base in
          if ret <? 0 then (MAP_FAILED, handler') else (addr, handler')
  | _, _ => (MAP_FAILED, handler)
  end.

(** [uffd_handler_destroy_mapping]: the value returned is that of
    [munmap]. *)
Definition uffd_handler_destroy_mapping (munmap_result : Z)
    (handler : option (UffdHandler double)) (addr size : Z)
    : Z * option (UffdHandler double) :=
  match handler with
  | Some _ =>
      if addr =? 0 then (- EINVAL, handler)
      else
        (munmap_result, snd (uffd_handler_unregister_region handler addr))
  | None => (- EINVAL, handler)
  end.

(** The request [_uffd_handle_pagefault] hands to [ioctl (UFFDIO_COPY)]
    ([struct uffdio_copy]); [None] when the routine returns before the
    copy. *)
Definition pagefault_copy_request (h : UffdHandler double) (fault_addr : Z)
    : Outcome (option UffdioCopy) :=
  let page_addr := page_align fault_addr in
  match _uffd_find_region double h page_addr with
  | None => Returns None
  | Some region =>
      let offset_in_region := u64 (page_addr - base region) in
      let file_offset := u64 (file_offset_base region + offset_in_region) in
      match bigcache_lookup (bigcache h) (Some (region_file_path region))
              file_offset with
      | NullDeref => NullDeref
      | Returns (Some source_data, _) =>
          Returns (Some {| copy_dst := page_addr; copy_src := source_data;
                           copy_len := PAGE_SIZE; copy_mode := 0 |})
      | Returns (None, _) =>
          if enable_zero_fill (config h) =? 0 then Returns None
          else
            Returns (Some {| copy_dst := page_addr;
                             copy_src := zero_page double h;
                             copy_len := PAGE_SIZE; copy_mode := 0 |})
      end
  end.

(** One turn of the loop of [handler_thread_func], as the environment
    shapes it: whether [uffd_handler_stop] has cleared [running] before
    the loop condition is read, what [poll] and [read] give, and the
    environment of the fault routine. *)
Record LoopTurn : Type := mkLoopTurn {
  stop_requested : bool;
  poll_outcome : PollOutcome;
  read_outcome : ReadOutcome;
  fault_env : FaultEnv double
}.

(** [handler_thread_func] over the turns the environment provides: the
    loop has exited, or is still polling when the turns are used up. *)
Fixpoint handler_thread_func (turns : list LoopTurn) (h : UffdHandler double)
    : Outcome (LoopStatus * UffdHandler double) :=
  match turns with
  | [] => Returns (LoopPolling, h)
  | turn :: rest =>
      let h := if stop_requested turn then set_running 0 h else h in
      if running double h =? 0 then Returns (LoopExited, h)
      else
        match poll_outcome turn with
        | PollFails errno =>
            if errno =? EINTR then handler_thread_func rest h
            else Returns (LoopExited, h)
        | PollTimeout => handler_thread_func rest h
        | PollReady shutdown_in uffd_in =>
            if shutdown_in then Returns (LoopExited, h)
            else if uffd_in then
              match read_outcome turn with
              | ReadFails errno =>
                  if errno =? EAGAIN then handler_thread_func rest h
                  else Returns (LoopExited, h)
              | ReadShort _ => handler_thread_func rest h
              | ReadMsg event address flags =>
                  if event =? UFFD_EVENT_PAGEFAULT then
                    match
                      _uffd_handle_pagefault double d_sub d_add d_div d_gt
                        d_of_u64 (fault_env turn) h address flags
                    with
                    | NullDeref => NullDeref
                    | Returns (_, h') => handler_thread_func rest h'
                    end
                  else handler_thread_func rest h
              end
            else handler_thread_func rest h
        end
  end.

End HandlerApi.

Arguments running {double} _.
Arguments zero_page {double} _.
Arguments num_regions {double} _.
Arguments stop_requested {double} _.
Arguments poll_outcome {double} _.
Arguments read_outcome {double} _.
Arguments fault_env {double} _.

(** The turns on which the loop of [handler_thread_func] ends: [running]
    was cleared, [poll] failed with something else than [EINTR], the
    shutdown pipe is readable, or the [read] of the event failed with
    something else than [EAGAIN]. *)
Definition turn_exits {double : Type} (turn : LoopTurn double) : bool :=
  stop_requested turn ||
  match poll_outcome turn with
  | PollFails errno => negb (errno =? EINTR)
  | PollTimeout => false
  | PollReady shutdown_in uffd_in =>
      shutdown_in ||
      (uffd_in &&
       match read_outcome turn with
       | ReadFails errno => negb (errno =? EAGAIN)
       | _ => false
       end)
  end.


(* ================================================================== *)
(** * preloader.c: the [mmap] hook *)

Definition MAP_PRIVATE : Z := 2.

Definition should_intercept (path : option (list Z)) : Z :=
  match path with
  | None => 0
  | Some p =>
      if strstr p (bytes_of_string ".so") then 1
      else if strstr p (bytes_of_string ".dex") then 1
      else if strstr p (bytes_of_string ".odex") then 1
      else if strstr p (bytes_of_string ".oat") then 1
      else if strstr p (bytes_of_string ".vdex") then 1
      else if strstr p (bytes_of_string ".art") then 1
      else if strstr p (bytes_of_string ".apk") then 1
      else if strstr p (bytes_of_string ".jar") then 1
      else 0
  end.

Section Preloader.

Variable double : Type.

(** The part of [g_preloader] the hook works on.  [original_mmap] is the
    pointer [dlsym] gave, [None] when it is null, as in the zero-filled
    state and in every state [preloader_init] leaves when it returns
    before its last step.  [preloader_init] creates the handler over
    [g_preloader.bigcache], so the two pointers name one context: it is
    kept once, inside the handler. *)
Record PreloaderState : Type := mkPreloaderState {
  original_mmap : option (Z -> Z -> Z -> Z -> Z -> Z -> Z);
  enabled : Z;
  uffd_handler : option (UffdHandler double);
  intercepted_count : Z;
  bypassed_count : Z;
  total_intercepted_size : Z
}.

(** The three places where the hook falls back to the original [mmap]:
    [bypassed_count++], then the call through the pointer. *)
Definition bypass (handler : option (UffdHandler double))
    (st : PreloaderState) (addr length prot flags fd offset : Z)
    : Outcome (Z * PreloaderState) :=
  match original_mmap st with
  | None => NullDeref
  | Some mmap =>
      Returns
        (mmap addr length prot flags fd offset,
         {| original_mmap := original_mmap st;
            enabled := enabled st;
            uffd_handler := handler;
            intercepted_count := intercepted_count st;
            bypassed_count := bypassed_count st + 1;
            total_intercepted_size := total_intercepted_size st |})
  end.

(** [preloader_mmap]: [mmap_result] is what the anonymous [mmap] of
    [uffd_handler_create_mapping] returns. *)
Definition preloader_mmap (mmap_result : Z)
    (env : RegisterEnv) (st : PreloaderState)
    (addr length prot flags fd offset : Z) (pathname : option (list Z))
    : Outcome (Z * PreloaderState) :=
  match uffd_handler st with
  | None => bypass None st addr length prot flags fd offset
  | Some h =>
      if (enabled st =? 0)
         || (Z.land flags MAP_PRIVATE =? 0)
         || (should_intercept pathname =? 0)
      then bypass (Some h) st addr length prot flags fd offset
      else
        match
          bigcache_lookup_offset (bigcache h) pathname (u64 offset) (Some 0)
        with
        | NullDeref => NullDeref
        | Returns (found, _, ctx) =>
            let h := set_bigcache double ctx h in
            if found <? 0 then
              bypass (Some h) st addr length prot flags fd offset
            else
              let '(result, handler) :=
                uffd_handler_create_mapping double mmap_result env (Some h)
                  length pathname (u64 offset) prot in
              if result =? MAP_FAILED then
                bypass handler st addr length prot flags fd offset
              else
                Returns
                  (result,
                   {| original_mmap := original_mmap st;
                      enabled := enabled st;
                      uffd_handler := handler;
                      intercepted_count := intercepted_count st + 1;
                      bypassed_count := bypassed_count st;
                      total_intercepted_size :=
                        size_t (total_intercepted_size st + length) |})
        end
  end.

End Preloader.

Arguments original_mmap {double} _.
Arguments enabled {double} _.
Arguments uffd_handler {double} _.
Arguments intercepted_count {double} _.
Arguments bypassed_count {double} _.
Arguments total_intercepted_size {double} _.

(* ================================================================== *)
(** * generate_bigcache.c *)

Module Generator.

(** The generator declares the on-disk structures itself: its file record
    keeps [path] before [total_pages]. *)
Definition BigCacheFileEntry : struct_decl :=
  [ ("file_id", 4); ("path_len", 4); ("path", MAX_PATH_LEN);
    ("total_pages", 4); ("original_size", 8) ]%string.

(** [FileEntry], the generator's record of a file in memory; [path] is the
    whole [char [MAX_PATH_LEN]] array. *)
Record FileEntry : Type := mkFileEntry {
  path : list Z;
  file_id : Z;
  total_pages : Z;
  original_size : Z
}.

(** The record the file-table loop of [generate_bigcache] hands to
    [write]: the initialiser, [memset] of the path, [strncpy]. *)
Definition file_entry_bytes (f : FileEntry) : list Z :=
  let fe := field_off BigCacheFileEntry 0 in
  let entry := zeros (sizeof BigCacheFileEntry) in
  let entry := write_u32 entry (fe "file_id"%string) (file_id f) in
  let entry := write_u32 entry (fe "path_len"%string)
                 (u32 (strlen (path f))) in
  let entry := write_u32 entry (fe "total_pages"%string) (total_pages f) in
  let entry := write_u64 entry (fe "original_size"%string)
                 (original_size f) in
  let entry := mem_write entry (fe "path"%string) (zeros MAX_PATH_LEN) in
  mem_write entry (fe "path"%string) (strncpy (path f) (MAX_PATH_LEN - 1)).

(** [read_source_page]: [open], [lseek] (whether it succeeds is
    [lseek_ok]) and [read]; the return value and the page buffer after the
    call. *)
Definition read_source_page (fs : SourceFs) (lseek_ok : bool)
    (path : list Z) (offset : Z) (buffer : mem) : Z * mem :=
  match fs (cstr path) with
  | None => (-1, mem_write buffer 0 (zeros PAGE_SIZE))
  | Some file =>
      if negb lseek_ok then (-1, mem_write buffer 0 (zeros PAGE_SIZE))
      else
        match pread file PAGE_SIZE offset with
        | PreadError => (-1, mem_write buffer 0 (zeros PAGE_SIZE))
        | PreadData bytes =>
            let buffer := mem_write buffer 0 bytes in
            let n := Z.of_nat (length bytes) in
            if n <? PAGE_SIZE then
              (0, mem_write buffer n (zeros (PAGE_SIZE - n)))
            else (0, buffer)
        end
  end.

End Generator.

(* ================================================================== *)
(** * More sample data *)

(** A packer whose file table is full: 4096 files, no page yet. *)
Definition numbered_path (k : nat) : list Z :=
  bytes_of_string "/f/" ++ decimal (Z.of_nat k).

Definition full_packer : BigCachePacker :=
  {| entries := [];
     capacity := INITIAL_CAPACITY;
     file_paths := map numbered_path (seq 0 4096) |}.

(** The sample bundle with the offset of its second record set to that of
    the first: two records for page 0 of [path_a]. *)
Definition twice_bundle : mem :=
  write_u64 sample_bundle
    (field_off BigCachePageIndex (88 + 1 * 20) "source_offset"%string) 0.

(** The context a load of a file leaves, starting from a fresh one. *)
Definition ctx_after (data : mem) : BigCacheContext :=
  match snd (load_bundle data) with
  | Some c => c
  | None => bigcache_create
  end.

(** What a call returned, when it returned. *)
Definition returned {A : Type} (o : Outcome A) (otherwise : A) : A :=
  match o with
  | Returns a => a
  | NullDeref => otherwise
  end.

(** An environment in which a registration succeeds, and the sample
    handler after one: 5000 bytes at 0x40000 backed by [path_missing] from
    its offset 4096 on. *)
Definition register_succeeds : RegisterEnv :=
  {| region_calloc_ok := true; region_strdup_ok := true;
     register_errno := None |}.

Definition sample_registered : UffdHandler Z :=
  match
    snd (uffd_handler_register_region Z register_succeeds
           (Some (sample_handler [sample_region])) 0x40000 5000
           (Some path_missing) 4096)
  with
  | Some h => h
  | None => sample_handler []
  end.

(** Four turns of the handler thread: a timeout, a fault on the second
    page of the sample region, an interrupted [poll], and a turn before
    which [uffd_handler_stop] has run. *)
Definition sample_turn (stop : bool) (p : PollOutcome) (r : ReadOutcome)
    : LoopTurn Z :=
  {| stop_requested := stop; poll_outcome := p; read_outcome := r;
     fault_env := sample_fault_env None |}.

Definition sample_turns : list (LoopTurn Z) :=
  [ sample_turn false PollTimeout (ReadShort 0);
    sample_turn false (PollReady false true)
      (ReadMsg UFFD_EVENT_PAGEFAULT 0x11008 0);
    sample_turn false (PollFails EINTR) (ReadShort 0);
    sample_turn true PollTimeout (ReadShort 0) ].

(** The preloader's state over the sample handler with no region yet, the
    original [mmap] answering 0x60000 to every call; and the state
    [preloader_init] leaves when the environment disables it. *)
Definition sample_preloader : PreloaderState Z :=
  {| original_mmap := Some (fun _ _ _ _ _ _ => 0x60000);
     enabled := 1;
     uffd_handler := Some (sample_handler []);
     intercepted_count := 0;
     bypassed_count := 0;
     total_intercepted_size := 0 |}.

Definition disabled_preloader : PreloaderState Z :=
  {| original_mmap := None;
     enabled := 0;
     uffd_handler := None;
     intercepted_count := 0;
     bypassed_count := 0;
     total_intercepted_size := 0 |}.

(** A file of the generator, its path in the zero-filled array of 512
    characters. *)
Definition sample_file_entry : Generator.FileEntry :=
  {| Generator.path :=
       strncpy (bytes_of_string "/system/lib64/libart.so") MAX_PATH_LEN;
     Generator.file_id := 0;
     Generator.total_pages := 2;
     Generator.original_size := 5000 |}.

(* ================================================================== *)
(** * Sanity checks of the primitives *)

Example sizeof_header : sizeof BigCacheHeader = 88.
Proof. reflexivity. Qed.

Example crc32_check_value :
  bigcache_crc32 (bytes_of_string "123456789") = 0xCBF43926.
Proof. vm_compute. reflexivity. Qed.

Example strcmp_terminated :
  strcmp (bytes_of_string "ab" ++ [0; 7]) (bytes_of_string "ab") = 0.
Proof. reflexivity. Qed.

Example decimal_4096 : decimal 4096 = bytes_of_string "4096".
Proof. reflexivity. Qed.

Example sample_build_counts :
  build_ret sample_build = 0 /\
  build_successful sample_build = 1 /\ build_simulated sample_build = 2.
Proof. vm_compute. auto. Qed.

Example sample_checksum :
  h_checksum (read_header sample_bundle) =
  bigcache_crc32 (mem_read (mem_write sample_bundle 48 (zeros 4)) 8 (16384 - 8)).
Proof. vm_compute. reflexivity. Qed.

Example sample_load_verify :
  fst (load_bundle corrupted_bundle) = 0 /\
  bigcache_verify (snd (load_bundle corrupted_bundle)) = 0.
Proof. vm_compute. auto. Qed.

(* ================================================================== *)
(** * Machine integers *)

Lemma wrap_range (w x : Z) : 0 <= w -> 0 <= wrap w x < 2 ^ w.
Proof.
  intros Hw. unfold wrap. apply Z.mod_pos_bound. apply Z.pow_pos_nonneg; lia.
Qed.

Lemma wrap_small (w x : Z) : 0 <= x < 2 ^ w -> wrap w x = x.
Proof. intros H. unfold wrap. apply Z.mod_small. exact H. Qed.

Lemma u32_range (x : Z) : 0 <= u32 x < 2 ^ 32.
Proof. apply wrap_range. lia. Qed.

Lemma u64_range (x : Z) : 0 <= u64 x < 2 ^ 64.
Proof. apply wrap_range. lia. Qed.

Lemma u32_small (x : Z) : 0 <= x < 2 ^ 32 -> u32 x = x.
Proof. apply wrap_small. Qed.

Lemma u64_small (x : Z) : 0 <= x < 2 ^ 64 -> u64 x = x.
Proof. apply wrap_small. Qed.

Lemma size_t_small (x : Z) : 0 <= x < 2 ^ 64 -> size_t x = x.
Proof. apply wrap_small. Qed.

Lemma read_u32_range (m : mem) (off : Z) : 0 <= read_u32 m off < 2 ^ 32.
Proof. apply u32_range. Qed.

Lemma read_u64_range (m : mem) (off : Z) : 0 <= read_u64 m off < 2 ^ 64.
Proof. apply u64_range. Qed.

(** ** Page alignment *)

Lemma page_mask_value : u64 (Z.lnot (PAGE_SIZE - 1)) = 2 ^ 64 - 4096.
Proof. reflexivity. Qed.

Lemma page_align_idempotent (x : Z) : page_align (page_align x) = page_align x.
Proof.
  unfold page_align. rewrite <- Z.land_assoc, Z.land_diag. reflexivity.
Qed.

(** On a 64-bit value [page_align] is the C expression [x & ~0xFFF]. *)
Lemma page_align_lnot (x : Z) :
  0 <= x < 2 ^ 64 -> page_align x = Z.land x (Z.lnot 0xFFF).
Proof.
  intros Hx. unfold page_align, u64, wrap.
  rewrite <- Z.land_ones by lia.
  change (PAGE_SIZE - 1) with 0xFFF.
  rewrite (Z.land_comm (Z.lnot 0xFFF)), Z.land_assoc.
  rewrite (Z.land_ones x 64) by lia.
  rewrite Z.mod_small by exact Hx. reflexivity.
Qed.

Lemma page_align_div (x : Z) :
  page_align x = 4096 * ((x mod 2 ^ 64) / 4096).
Proof.
  unfold page_align. rewrite page_mask_value.
  replace (2 ^ 64 - 4096) with (Z.ldiff (Z.ones 64) (Z.ones 12))
    by reflexivity.
  rewrite Z.ldiff_land, Z.land_assoc, <- Z.ldiff_land.
  rewrite Z.land_ones, Z.ldiff_ones_r by lia.
  rewrite Z.shiftl_mul_pow2, Z.shiftr_div_pow2 by lia.
  change (2 ^ 12) with 4096. lia.
Qed.

Lemma page_align_range (x : Z) : 0 <= page_align x < 2 ^ 64.
Proof.
  rewrite page_align_div.
  pose proof (Z.mod_pos_bound x (2 ^ 64) ltac:(lia)) as Hm.
  pose proof (Z.mul_div_le (x mod 2 ^ 64) 4096 ltac:(lia)).
  pose proof (Z.div_pos (x mod 2 ^ 64) 4096 ltac:(lia) ltac:(lia)).
  lia.
Qed.

(* ================================================================== *)
(** * C strings *)

Lemma strcmp_eq (a b : list Z) : strcmp a b = 0 <-> cstr a = cstr b.
Proof.
  revert b. induction a as [|ca ra IH]; intros [|cb rb]; simpl.
  - tauto.
  - destruct (Z.eqb_spec cb 0); split; intros; try lia; congruence.
  - destruct (Z.eqb_spec ca 0); split; intros; try lia; congruence.
  - destruct (Z.eqb_spec ca cb) as [->|Hne].
    + destruct (Z.eqb_spec cb 0); [tauto|].
      rewrite IH. split; intros H; [f_equal; exact H | congruence].
    + destruct (Z.eqb_spec ca 0), (Z.eqb_spec cb 0);
        split; intros; try lia; congruence.
Qed.

Lemma strcmp_refl (a : list Z) : strcmp a a = 0.
Proof. apply strcmp_eq. reflexivity. Qed.

Lemma cstr_idempotent (s : list Z) : cstr (cstr s) = cstr s.
Proof.
  induction s as [|c r IH]; simpl; [reflexivity|].
  destruct (Z.eqb_spec c 0) as [|Hc]; simpl; [reflexivity|].
  destruct (Z.eqb_spec c 0); [contradiction|]. rewrite IH. reflexivity.
Qed.

Lemma strcmp_eqb_cstr_l (a b : list Z) :
  (strcmp (cstr a) b =? 0) = (strcmp a b =? 0).
Proof.
  destruct (Z.eqb_spec (strcmp a b) 0) as [H|H].
  - apply Z.eqb_eq. apply strcmp_eq. rewrite cstr_idempotent.
    apply strcmp_eq. exact H.
  - apply Z.eqb_neq. intros H'. apply H. apply strcmp_eq.
    apply strcmp_eq in H'. rewrite cstr_idempotent in H'. exact H'.
Qed.

Lemma hash_str_cstr (s : list Z) (h : Z) : hash_str (cstr s) h = hash_str s h.
Proof.
  revert h. induction s as [|c r IH]; intros h; simpl; [reflexivity|].
  destruct (Z.eqb_spec c 0) as [|Hc]; simpl; [reflexivity|].
  destruct (Z.eqb_spec c 0); [contradiction|]. apply IH.
Qed.

Lemma hash_fnv1a_cstr (s : list Z) (offset : Z) :
  hash_fnv1a (cstr s) offset = hash_fnv1a s offset.
Proof. unfold hash_fnv1a. rewrite hash_str_cstr. reflexivity. Qed.

Lemma hash_fnv1a_strcmp (a b : list Z) (offset : Z) :
  strcmp a b = 0 -> hash_fnv1a a offset = hash_fnv1a b offset.
Proof.
  intros H. apply strcmp_eq in H.
  rewrite <- (hash_fnv1a_cstr a), <- (hash_fnv1a_cstr b), H. reflexivity.
Qed.

(* ================================================================== *)
(** * Lookup: null arguments, alignment *)

Lemma bigcache_lookup_page_align
    (ctx : option BigCacheContext) (f : option (list Z)) (off : Z) :
  bigcache_lookup ctx f off = bigcache_lookup ctx f (page_align off).
Proof.
  unfold bigcache_lookup. rewrite page_align_idempotent. reflexivity.
Qed.

(** C7.  For every context (loaded or not), every path and every 64-bit
    offset, [bigcache_lookup] called with [off] and called with
    [off & ~0xFFF] return the same pointer and leave the same context. *)
Theorem bigcache_lookup_page_aligned
    (ctx : option BigCacheContext) (f : option (list Z)) (off : Z) :
  0 <= off < 2 ^ 64 ->
  bigcache_lookup ctx f off = bigcache_lookup ctx f (Z.land off (Z.lnot 0xFFF)).
Proof.
  intros Hoff. rewrite <- page_align_lnot by exact Hoff.
  apply bigcache_lookup_page_align.
Qed.

(** Offset 4100 on the loaded sample bundle. *)
Lemma bigcache_lookup_page_aligned_witness :
  bigcache_lookup (snd (load_bundle sample_bundle)) (Some path_a) 4100 =
  bigcache_lookup (snd (load_bundle sample_bundle)) (Some path_a)
    (Z.land 4100 (Z.lnot 0xFFF)).
Proof.
  apply (bigcache_lookup_page_aligned
           (snd (load_bundle sample_bundle)) (Some path_a) 4100).
  lia.
Defined.

(** The same closure for [bigcache_lookup_offset]. *)
Lemma bigcache_lookup_offset_page_aligned
    (ctx : option BigCacheContext) (f : option (list Z)) (off : Z)
    (out : option Z) :
  bigcache_lookup_offset ctx f off out =
  bigcache_lookup_offset ctx f (page_align off) out.
Proof.
  unfold bigcache_lookup_offset. rewrite page_align_idempotent. reflexivity.
Qed.

(** C10.  With a null context, a context that is not loaded, or a null
    path, [bigcache_lookup] returns [NULL], [bigcache_lookup_offset]
    returns [-EINVAL] and leaves the output cell alone, and the context
    (so [hit_count] and [miss_count]) is the one passed in. *)
Theorem lookup_refused_leaves_counters
    (ctx : option BigCacheContext) (f : option (list Z)) (off : Z)
    (out : option Z) :
  lookup_refused ctx f ->
  bigcache_lookup ctx f off = Returns (None, ctx) /\
  bigcache_lookup_offset ctx f off out = Returns (- EINVAL, out, ctx).
Proof.
  intros [-> | [-> | (c & -> & Hc)]]; unfold bigcache_lookup,
    bigcache_lookup_offset.
  - split; reflexivity.
  - destruct ctx; split; reflexivity.
  - rewrite Hc. destruct f, out; split; reflexivity.
Qed.

(** A context that was created and never loaded. *)
Lemma lookup_refused_leaves_counters_witness :
  bigcache_lookup (Some bigcache_create) (Some path_a) 4100
    = Returns (None, Some bigcache_create) /\
  bigcache_lookup_offset (Some bigcache_create) (Some path_a) 4100 (Some 7)
    = Returns (- EINVAL, Some 7, Some bigcache_create).
Proof.
  apply (lookup_refused_leaves_counters (Some bigcache_create)
           (Some path_a) 4100 (Some 7)).
  right. right. exists bigcache_create. split; reflexivity.
Defined.

(** The counters move only when the context is loaded: a lookup that
    changes [hit_count] or [miss_count] was made on a loaded context. *)
Lemma bigcache_lookup_counts_only_loaded
    (c c' : BigCacheContext) (f : option (list Z)) (off : Z) (r : option Z) :
  bigcache_lookup (Some c) f off = Returns (r, Some c') ->
  hit_count c' <> hit_count c \/ miss_count c' <> miss_count c ->
  is_loaded c <> 0.
Proof.
  intros Hl Hch Hz. unfold bigcache_lookup in Hl. rewrite Hz in Hl.
  destruct f; simpl in Hl; inversion Hl; subst; destruct Hch; congruence.
Qed.

(* ================================================================== *)
(** * The lookup table *)

Lemma find_in_chain_find (chain : list RuntimePageEntry) (f : list Z)
    (off : Z) :
  find_in_chain chain f off = find (key_match f off) chain.
Proof.
  induction chain as [|e rest IH]; simpl; [reflexivity|].
  unfold key_match at 1. rewrite IH. reflexivity.
Qed.

Lemma find_filter_implied {A : Type} (P Q : A -> bool) (l : list A) :
  (forall x, P x = true -> Q x = true) ->
  find P (List.filter Q l) = find P l.
Proof.
  intros HPQ. induction l as [|x l IH]; [reflexivity|].
  cbn [List.filter find]. destruct (Q x) eqn:HQ.
  - simpl. rewrite IH. reflexivity.
  - destruct (P x) eqn:HP.
    + rewrite (HPQ x HP) in HQ. discriminate.
    + exact IH.
Qed.

Lemma find_unique {A : Type} (P : A -> bool) (l : list A) (x : A) :
  In x l -> P x = true ->
  (forall y, In y l -> P y = true -> y = x) ->
  find P l = Some x.
Proof.
  induction l as [|a l IH]; intros Hin HP Huniq; [destruct Hin|].
  simpl. destruct (P a) eqn:Ha.
  - f_equal. apply Huniq; [left; reflexivity | exact Ha].
  - destruct Hin as [->|Hin]; [congruence|].
    apply IH; auto. intros y Hy. apply Huniq. right. exact Hy.
Qed.

Lemma bucket_index_lt (t : PageLookupTable) (f : list Z) (off : Z) :
  0 < num_buckets t ->
  (bucket_index t f off < Z.to_nat (num_buckets t))%nat.
Proof.
  intros Hnb. unfold bucket_index.
  pose proof (Z.mod_pos_bound (hash_fnv1a f off) (num_buckets t) Hnb).
  lia.
Qed.

Lemma bucket_index_key_match (t : PageLookupTable) (f : list Z) (off : Z)
    (e : RuntimePageEntry) :
  key_match f off e = true ->
  bucket_index t (file_path e) (source_offset e) = bucket_index t f off.
Proof.
  unfold key_match. intros H. apply andb_true_iff in H as [Ho Hs].
  apply Z.eqb_eq in Ho, Hs. unfold bucket_index.
  rewrite Ho, (hash_fnv1a_strcmp _ _ off Hs). reflexivity.
Qed.

Lemma table_models_find (t : PageLookupTable) (log : list RuntimePageEntry)
    (f : list Z) (off : Z) :
  table_models t log ->
  lookup_table_find t f off = find (key_match f off) log.
Proof.
  intros (Hnb & Hlen & Hch). unfold lookup_table_find.
  rewrite Hch by (rewrite Hlen; apply bucket_index_lt; exact Hnb).
  rewrite find_in_chain_find. unfold chain_of.
  apply find_filter_implied. intros e He.
  apply Nat.eqb_eq. apply bucket_index_key_match. exact He.
Qed.

Lemma create_lookup_table_buckets (n : Z) (t : PageLookupTable) :
  0 <= n < 2 ^ 32 ->
  create_lookup_table true n = Some t ->
  num_buckets t = Z.max 1024 (n * 3 / 2).
Proof.
  intros Hn Hc. unfold create_lookup_table in Hc. simpl in Hc.
  rewrite size_t_small in Hc by lia.
  inversion Hc; subst; clear Hc. simpl.
  destruct (Z.ltb_spec (n * 3 / 2) 1024); lia.
Qed.

Lemma table_models_create (ok : bool) (n : Z) (t : PageLookupTable) :
  create_lookup_table ok n = Some t -> table_models t [].
Proof.
  unfold create_lookup_table. destruct ok; simpl; [|discriminate].
  intros Hc. inversion Hc; subst; clear Hc. simpl.
  set (nb := if size_t (n * 3) / 2 <? 1024 then 1024 else size_t (n * 3) / 2).
  assert (Hnb : 0 < nb).
  { subst nb. destruct (Z.ltb_spec (size_t (n * 3) / 2) 1024); lia. }
  repeat split.
  - exact Hnb.
  - apply repeat_length.
  - intros k _. unfold chain_of. simpl. apply nth_repeat.
Qed.

Lemma bucket_index_strdup (t t' : PageLookupTable) (path : list Z) (so : Z) :
  num_buckets t' = num_buckets t ->
  bucket_index t' (strdup path) so = bucket_index t path so.
Proof.
  intros Hnb. unfold bucket_index, strdup.
  rewrite hash_fnv1a_cstr, Hnb. reflexivity.
Qed.

Lemma chain_of_num_buckets (t t' : PageLookupTable)
    (log : list RuntimePageEntry) (k : nat) :
  num_buckets t' = num_buckets t -> chain_of t' log k = chain_of t log k.
Proof.
  intros Hnb. unfold chain_of, bucket_index. rewrite Hnb. reflexivity.
Qed.

Lemma chain_of_cons (t : PageLookupTable) (e : RuntimePageEntry)
    (log : list RuntimePageEntry) (k : nat) :
  chain_of t (e :: log) k =
  if Nat.eqb (bucket_index t (file_path e) (source_offset e)) k
  then e :: chain_of t log k else chain_of t log k.
Proof. reflexivity. Qed.

Lemma table_models_insert (t : PageLookupTable)
    (log : list RuntimePageEntry) (path : list Z) (so bo ord : Z) :
  table_models t log ->
  exists t',
    lookup_table_insert true t path so bo ord = (0, t') /\
    num_buckets t' = num_buckets t /\
    table_models t'
      ({| file_path := strdup path; source_offset := so;
          bigcache_offset := bo; access_order := ord |} :: log).
Proof.
  intros (Hnb & Hlen & Hch). unfold lookup_table_insert. cbn [negb].
  set (idx := bucket_index t path so).
  set (e := {| file_path := strdup path; source_offset := so;
               bigcache_offset := bo; access_order := ord |}).
  set (t' := {| buckets := <[idx:=e :: nth idx (buckets t) []]> (buckets t);
                num_buckets := num_buckets t;
                table_entries := size_t (table_entries t + 1) |}).
  assert (Hnb' : num_buckets t' = num_buckets t) by reflexivity.
  exists t'. split; [reflexivity|]. split; [exact Hnb'|].
  assert (Hidx : (idx < length (buckets t))%nat).
  { rewrite Hlen. apply bucket_index_lt. exact Hnb. }
  assert (Hlen' : length (buckets t') = length (buckets t)).
  { subst t'. cbn [buckets]. apply length_insert. }
  split; [rewrite Hnb'; exact Hnb|].
  split; [rewrite Hlen', Hnb'; exact Hlen|].
  intros k Hk. rewrite Hlen' in Hk.
  rewrite chain_of_cons, (chain_of_num_buckets t t' log k Hnb').
  replace (bucket_index t' (file_path e) (source_offset e)) with idx
    by (symmetry; apply bucket_index_strdup; exact Hnb').
  subst t'. cbn [buckets]. rewrite !nth_lookup.
  destruct (Nat.eqb_spec idx k) as [<-|Hne].
  - rewrite list_lookup_insert_eq by exact Hidx. cbn [default].
    f_equal. rewrite <- nth_lookup. rewrite Hch by exact Hidx. reflexivity.
  - rewrite list_lookup_insert_ne by exact Hne.
    rewrite <- nth_lookup. rewrite Hch by exact Hk. reflexivity.
Qed.

Lemma fill_lookup_table_models (env : LoadEnv) (m : mem) (h : Header)
    (n i : nat) (t t' : PageLookupTable) (log : list RuntimePageEntry)
    (ret : Z) :
  table_models t log ->
  fill_lookup_table env m h n (Z.of_nat i) t = (ret, t') ->
  (ret <? 0) = false ->
  num_buckets t' = num_buckets t /\
  table_models t' (rev (loaded_entries m h i n) ++ log).
Proof.
  revert i t log. induction n as [|n IH]; intros i t log Hm Hfill Hret.
  - simpl in Hfill. inversion Hfill; subst. split; [reflexivity|exact Hm].
  - cbn [fill_lookup_table] in Hfill.
    destruct (entry_alloc_ok env (Z.of_nat i)) eqn:Hok.
    + destruct (table_models_insert t log (record_path m h (Z.of_nat i))
                  (record_source_offset m h (Z.of_nat i))
                  (u64 (h_data_offset h + Z.of_nat i * PAGE_SIZE))
                  (record_access_order m h (Z.of_nat i)) Hm)
        as (t1 & Hins & Hnb1 & Hm1).
      rewrite Hins in Hfill. change (0 <? 0) with false in Hfill.
      cbv iota in Hfill.
      replace (Z.of_nat i + 1) with (Z.of_nat (S i)) in Hfill by lia.
      destruct (IH (S i) t1 _ Hm1 Hfill Hret) as (Hnb' & Hm').
      split; [congruence|].
      unfold loaded_entries in *. cbn [seq map rev].
      rewrite <- app_assoc. exact Hm'.
    + unfold lookup_table_insert in Hfill. cbn [negb] in Hfill.
      change (- ENOMEM <? 0) with true in Hfill. cbv iota in Hfill.
      inversion Hfill; subst. discriminate.
Qed.

(* ================================================================== *)
(** * The loader *)

(** What a successful [bigcache_load] leaves in the context. *)
Lemma bigcache_load_success (env : LoadEnv) (c c' : BigCacheContext)
    (path : list Z) (new_fd addr : Z) (data : mem) :
  load_file env = LoadMapped new_fd addr data ->
  bigcache_load env (Some c) (Some path) = (0, Some c') ->
  exists t0 t ret,
    create_lookup_table (table_alloc_ok env)
      (h_num_pages (read_header data)) = Some t0 /\
    fill_lookup_table env data (read_header data)
      (Z.to_nat (h_num_pages (read_header data))) 0 t0 = (ret, t) /\
    (ret <? 0) = false /\
    lookup_table c' = Some t /\ is_loaded c' = 1 /\
    mapped_data c' = addr /\ mapped c' = data /\
    header c' = read_header data /\
    mapped_size c' = Z.of_nat (length data) /\
    hit_count c' = hit_count c /\ miss_count c' = miss_count c.
Proof.
  intros Hfile Hload. unfold bigcache_load in Hload.
  rewrite Hfile in Hload. cbv zeta in Hload.
  cbn [header set_fd set_mapping set_header set_pointers set_lookup_table]
    in Hload.
  destruct (h_magic (read_header data) =? BIGCACHE_MAGIC);
    cbn [negb] in Hload; [|inversion Hload].
  destruct (h_version (read_header data) =? BIGCACHE_VERSION);
    cbn [negb] in Hload; [|inversion Hload].
  destruct (create_lookup_table (table_alloc_ok env)
              (h_num_pages (read_header data))) as [t0|] eqn:Hcreate;
    [|inversion Hload].
  destruct (fill_lookup_table env data (read_header data)
              (Z.to_nat (h_num_pages (read_header data))) 0 t0)
    as [ret t] eqn:Hfill.
  destruct (ret <? 0) eqn:Hret.
  - inversion Hload; subst. discriminate.
  - inversion Hload; subst; clear Hload.
    exists t0, t, ret. repeat split; try reflexivity; assumption.
Qed.

Lemma create_lookup_table_calloc (ok : bool) (n : Z) (t : PageLookupTable) :
  create_lookup_table ok n = Some t -> create_lookup_table true n = Some t.
Proof. unfold create_lookup_table. destruct ok; [auto|discriminate]. Qed.

(** The table of a loaded context finds, for a key, the record inserted
    last among those that carry it. *)
Lemma bigcache_load_table (env : LoadEnv) (c c' : BigCacheContext)
    (path : list Z) (new_fd addr : Z) (data : mem) :
  load_file env = LoadMapped new_fd addr data ->
  bigcache_load env (Some c) (Some path) = (0, Some c') ->
  exists t,
    lookup_table c' = Some t /\
    create_lookup_table true (h_num_pages (read_header data)) <> None /\
    num_buckets t = Z.max 1024 (h_num_pages (read_header data) * 3 / 2) /\
    forall f off,
      lookup_table_find t f off =
      find (key_match f off)
        (rev (loaded_entries data (read_header data) 0
                (Z.to_nat (h_num_pages (read_header data))))).
Proof.
  intros Hfile Hload.
  destruct (bigcache_load_success env c c' path new_fd addr data Hfile Hload)
    as (t0 & t & ret & Hcreate & Hfill & Hret & Htab & _).
  apply create_lookup_table_calloc in Hcreate.
  pose proof (table_models_create _ _ _ Hcreate) as Hm0.
  destruct (fill_lookup_table_models env data (read_header data) _ 0 t0 t []
              ret Hm0 Hfill Hret) as (Hnb & Hm).
  rewrite app_nil_r in Hm.
  exists t. split; [exact Htab|]. split; [congruence|]. split.
  - rewrite Hnb. apply create_lookup_table_buckets; [|exact Hcreate].
    pose proof (read_u32_range data
                  (field_off BigCacheHeader 0 "num_pages"%string)) as Hr.
    exact Hr.
  - intros f off. apply table_models_find. exact Hm.
Qed.

(** C8 (as the code has it).  After a successful [bigcache_load] of a
    bundle whose header counts [n] page records, the lookup table has
    [max (1024, floor (3 n / 2))] buckets: at least 1024, and at least
    [1.5 n] rounded down (twice the bucket count may fall one short of
    [3 n]). *)
Theorem bigcache_load_bucket_count (env : LoadEnv) (c c' : BigCacheContext)
    (path : list Z) (new_fd addr : Z) (data : mem) :
  load_file env = LoadMapped new_fd addr data ->
  bigcache_load env (Some c) (Some path) = (0, Some c') ->
  exists t,
    lookup_table c' = Some t /\
    num_buckets t = Z.max 1024 (h_num_pages (read_header data) * 3 / 2) /\
    1024 <= num_buckets t /\
    3 * h_num_pages (read_header data) <= 2 * num_buckets t + 1.
Proof.
  intros Hfile Hload.
  destruct (bigcache_load_table env c c' path new_fd addr data Hfile Hload)
    as (t & Htab & _ & Hnb & _).
  exists t. split; [exact Htab|]. split; [exact Hnb|].
  pose proof (Z.div_mod (h_num_pages (read_header data) * 3) 2 ltac:(lia)).
  pose proof (Z.mod_pos_bound (h_num_pages (read_header data) * 3) 2
                ltac:(lia)).
  lia.
Qed.

(** The table of the loaded sample bundle. *)
Lemma bigcache_load_bucket_count_witness :
  exists t,
    lookup_table sample_ctx = Some t /\
    num_buckets t
      = Z.max 1024 (h_num_pages (read_header sample_bundle) * 3 / 2) /\
    1024 <= num_buckets t /\
    3 * h_num_pages (read_header sample_bundle) <= 2 * num_buckets t + 1.
Proof.
  apply (bigcache_load_bucket_count (load_env sample_bundle) bigcache_create
           sample_ctx out_bin 3 0x7f0000000000
           sample_bundle).
  - reflexivity.
  - vm_compute. reflexivity.
Defined.

(** C8 as stated fails: for 683 records the table gets 1024 buckets, fewer
    than 1.5 * 683 = 1024.5.  This is what [create_lookup_table] computes,
    and what [bigcache_load] leaves in the context for a bundle whose
    header counts 683 page records. *)
Lemma bucket_count_below_one_and_a_half :
  (exists t,
     create_lookup_table true 683 = Some t /\
     num_buckets t = 1024 /\
     2 * num_buckets t < 3 * 683) /\
  h_num_pages (read_header metadata_683) = 683 /\
  fst (load_bundle metadata_683) = 0 /\
  option_map num_buckets (loaded_table metadata_683) = Some 1024 /\
  2 * 1024 < 3 * h_num_pages (read_header metadata_683).
Proof.
  split; [|split; [|split; [|split]]].
  - eexists. split; [reflexivity|]. split; reflexivity.
  - vm_compute. reflexivity.
  - vm_compute. reflexivity.
  - vm_compute. reflexivity.
  - vm_compute. reflexivity.
Qed.

(* ================================================================== *)
(** * Lookup after load *)

Lemma in_record_ids (n i : Z) : In i (record_ids n) <-> 0 <= i < n.
Proof.
  unfold record_ids. rewrite in_map_iff. split.
  - intros (k & <- & Hk). apply in_seq in Hk. lia.
  - intros Hi. exists (Z.to_nat i). split; [lia|]. apply in_seq. lia.
Qed.

Lemma valid_bundle_spec (data : mem) :
  valid_bundle data = true ->
  h_data_offset (read_header data)
    + h_num_pages (read_header data) * PAGE_SIZE
    <= h_total_size (read_header data) /\
  forall i, 0 <= i < h_num_pages (read_header data) ->
    page_align (record_source_offset data (read_header data) i)
      = record_source_offset data (read_header data) i /\
    forall j, 0 <= j < h_num_pages (read_header data) ->
      same_page data (read_header data) i j = true -> i = j.
Proof.
  unfold valid_bundle. cbv zeta. intros H.
  apply andb_true_iff in H as [Hsize Hrec]. split.
  - apply Z.leb_le. exact Hsize.
  - intros i Hi. rewrite forallb_forall in Hrec.
    specialize (Hrec i (proj2 (in_record_ids _ _) Hi)).
    apply andb_true_iff in Hrec as [Hal Huniq]. split.
    + apply Z.eqb_eq. exact Hal.
    + intros j Hj Hsame. rewrite forallb_forall in Huniq.
      specialize (Huniq j (proj2 (in_record_ids _ _) Hj)).
      rewrite Hsame in Huniq. cbn [negb] in Huniq.
      rewrite orb_false_r in Huniq. apply Z.eqb_eq. exact Huniq.
Qed.

Lemma in_loaded_entries (m : mem) (h : Header) (n : nat)
    (e : RuntimePageEntry) :
  In e (rev (loaded_entries m h 0 n)) <->
  exists j, 0 <= j < Z.of_nat n /\ e = loaded_entry m h j.
Proof.
  rewrite <- in_rev. unfold loaded_entries. rewrite in_map_iff. split.
  - intros (k & <- & Hk). apply in_seq in Hk.
    exists (Z.of_nat k). split; [lia|reflexivity].
  - intros (j & Hj & ->). exists (Z.to_nat j). split.
    + f_equal. lia.
    + apply in_seq. lia.
Qed.

(** In a valid bundle the table finds, for the path and offset of record
    [i], the entry of record [i]. *)
Lemma valid_bundle_find (data : mem) (i : Z) (f : list Z) :
  valid_bundle data = true ->
  0 <= i < h_num_pages (read_header data) ->
  strcmp (record_path data (read_header data) i) f = 0 ->
  find
    (key_match f (record_source_offset data (read_header data) i))
    (rev (loaded_entries data (read_header data) 0
            (Z.to_nat (h_num_pages (read_header data)))))
  = Some (loaded_entry data (read_header data) i).
Proof.
  intros Hvalid Hi Hf.
  destruct (valid_bundle_spec data Hvalid) as (_ & Hrec).
  set (h := read_header data) in *.
  apply find_unique.
  - apply in_loaded_entries. exists i. split; [lia|reflexivity].
  - unfold key_match, loaded_entry. cbn [source_offset file_path].
    rewrite Z.eqb_refl. unfold strdup. rewrite strcmp_eqb_cstr_l.
    apply Z.eqb_eq in Hf. rewrite Hf. reflexivity.
  - intros e He Hmatch. apply in_loaded_entries in He as (j & Hj & ->).
    f_equal. symmetry.
    destruct (Hrec i Hi) as (_ & Huniq). apply (Huniq j); [lia|].
    unfold key_match, loaded_entry in Hmatch.
    cbn [source_offset file_path] in Hmatch.
    apply andb_true_iff in Hmatch as [Ho Hs].
    unfold strdup in Hs. rewrite strcmp_eqb_cstr_l in Hs.
    apply Z.eqb_eq in Ho, Hs. unfold same_page. fold h.
    rewrite Ho, Z.eqb_refl, andb_true_r. apply Z.eqb_eq.
    apply strcmp_eq. apply strcmp_eq in Hf, Hs. congruence.
Qed.

(** C4.  After [bigcache_load] has succeeded on a valid bundle, for every
    page record [i], with [f] its file path and [off] its source offset,
    [bigcache_lookup_offset (f, off)] returns 0 and stores
    [data_offset + i * 4096], and [bigcache_lookup (f, off)] returns the
    pointer [mapped_data + data_offset + i * 4096]; each call counts one
    hit. *)
Theorem bigcache_lookup_finds_record (env : LoadEnv)
    (c c' : BigCacheContext) (path : list Z) (new_fd addr : Z) (data : mem)
    (i : Z) (f : list Z) (out0 : Z) :
  load_file env = LoadMapped new_fd addr data ->
  bigcache_load env (Some c) (Some path) = (0, Some c') ->
  valid_bundle data = true ->
  0 <= i < h_num_pages (read_header data) ->
  strcmp (record_path data (read_header data) i) f = 0 ->
  bigcache_lookup_offset (Some c') (Some f)
    (record_source_offset data (read_header data) i) (Some out0)
  = Returns (0,
             Some (h_data_offset (read_header data) + i * 4096),
             Some (count_hit c')) /\
  bigcache_lookup (Some c') (Some f)
    (record_source_offset data (read_header data) i)
  = Returns (Some (addr + (h_data_offset (read_header data) + i * 4096)),
             Some (count_served (count_hit c'))).
Proof.
  intros Hfile Hload Hvalid Hi Hf.
  destruct (bigcache_load_success env c c' path new_fd addr data Hfile Hload)
    as (_ & _ & _ & _ & _ & _ & _ & Hloaded & Haddr & _).
  destruct (bigcache_load_table env c c' path new_fd addr data Hfile Hload)
    as (t & Htab & _ & _ & Hfind).
  destruct (valid_bundle_spec data Hvalid) as (Hsize & Hrec).
  destruct (Hrec i Hi) as (Halign & _).
  pose proof (valid_bundle_find data i f Hvalid Hi Hf) as Hentry.
  assert (Htot : 0 <= h_total_size (read_header data) < 2 ^ 64)
    by exact (read_u64_range data
                (field_off BigCacheHeader 0 "total_size"%string)).
  assert (Hdo : 0 <= h_data_offset (read_header data) < 2 ^ 64)
    by exact (read_u64_range data
                (field_off BigCacheHeader 0 "data_offset"%string)).
  assert (Hoff : bigcache_offset (loaded_entry data (read_header data) i)
                 = h_data_offset (read_header data) + i * 4096).
  { unfold loaded_entry. cbn [bigcache_offset]. apply u64_small.
    unfold PAGE_SIZE in *. lia. }
  unfold bigcache_lookup_offset, bigcache_lookup.
  rewrite Hloaded, Htab, Halign, Hfind, Hentry, Hoff, Haddr.
  split; reflexivity.
Qed.

(** The second record of the sample bundle, looked up after a load. *)
Lemma bigcache_lookup_finds_record_witness :
  bigcache_lookup_offset (Some sample_ctx) (Some path_a)
    (record_source_offset sample_bundle (read_header sample_bundle) 1)
    (Some 0)
  = Returns (0,
             Some (h_data_offset (read_header sample_bundle) + 1 * 4096),
             Some (count_hit sample_ctx)) /\
  bigcache_lookup (Some sample_ctx) (Some path_a)
    (record_source_offset sample_bundle (read_header sample_bundle) 1)
  = Returns (Some (0x7f0000000000
                   + (h_data_offset (read_header sample_bundle) + 1 * 4096)),
             Some (count_served (count_hit sample_ctx))).
Proof.
  apply (bigcache_lookup_finds_record (load_env sample_bundle)
           bigcache_create sample_ctx out_bin
           3 0x7f0000000000 sample_bundle 1 path_a 0).
  - reflexivity.
  - vm_compute. reflexivity.
  - vm_compute. reflexivity.
  - replace (h_num_pages (read_header sample_bundle)) with 3
      by (vm_compute; reflexivity).
    lia.
  - vm_compute. reflexivity.
Defined.

(* ================================================================== *)
(** * The packer: duplicates *)

Lemma cstr_nonzero (s : list Z) : Forall (fun c => c <> 0) (cstr s).
Proof.
  induction s as [|c r IH]; simpl; [constructor|].
  destruct (Z.eqb_spec c 0); constructor; assumption.
Qed.

Lemma cstr_take_padded (l : list Z) (n k : nat) :
  Forall (fun c => c <> 0) l ->
  cstr (take n (l ++ repeat 0 k) ++ [0]) = take n l.
Proof.
  intros Hl. revert n. induction Hl as [|c l Hc Hl IH]; intros n.
  - rewrite take_nil. simpl. destruct n, k; reflexivity.
  - destruct n as [|n]; [reflexivity|]. simpl.
    destruct (Z.eqb_spec c 0); [contradiction|]. rewrite IH. reflexivity.
Qed.

(** The string an entry keeps of a path: its first 511 characters. *)
Lemma cstr_stored_path (path : list Z) :
  cstr (strncpy path (MAX_PATH_LEN - 1) ++ [0])
  = take (Z.to_nat (MAX_PATH_LEN - 1)) (cstr path).
Proof. unfold strncpy, zeros. apply cstr_take_padded, cstr_nonzero. Qed.

Lemma strcmp_stored_path (path : list Z) :
  strlen path < MAX_PATH_LEN ->
  strcmp (strncpy path (MAX_PATH_LEN - 1) ++ [0]) path = 0.
Proof.
  intros Hlen. apply strcmp_eq. rewrite cstr_stored_path.
  apply take_ge. unfold strlen, MAX_PATH_LEN in *. lia.
Qed.

Lemma page_exists_loop_filter (es : list PackerPageEntry) (path : list Z)
    (po : Z) :
  page_exists_loop es path po =
  match List.filter (entry_matches path po) es with [] => 0 | _ :: _ => 1 end.
Proof.
  induction es as [|e es IH]; [reflexivity|].
  cbn [page_exists_loop List.filter]. fold (entry_matches path po e).
  destruct (entry_matches path po e); [reflexivity|exact IH].
Qed.

Lemma find_or_add_file_entries (ok : bool) (p : BigCachePacker)
    (path : list Z) :
  entries (snd (find_or_add_file ok p path)) = entries p.
Proof.
  unfold find_or_add_file.
  destruct (find_file (file_paths p) path 0); [reflexivity|].
  destruct (num_files p >=? MAX_FILES); [reflexivity|].
  destruct ok; reflexivity.
Qed.

(** C6 (as the code has it).  For a path of at most 511 characters, when
    the page is not yet recorded and the first call is not refused for lack
    of memory: after [add_page (path, o, k)] and then
    [add_page (path, o', k')], with [o] and [o'] in the same page, the
    packer holds exactly one record for that page of that path, its
    [access_order] is [k], and the second call returns 0 and changes
    nothing. *)
Theorem packer_add_page_duplicate (env1 env2 : AllocEnv)
    (p : BigCachePacker) (path : list Z) (o o' k k' : Z) :
  strlen path < MAX_PATH_LEN ->
  page_align o = page_align o' ->
  page_exists p path o = 0 ->
  num_entries p < capacity p \/ realloc_ok env1 = true ->
  exists r1 p1 e,
    packer_add_page env1 (Some p) (Some path) o k = (r1, Some p1) /\
    packer_add_page env2 (Some p1) (Some path) o' k' = (0, Some p1) /\
    records_of p1 path (page_align o) = [e] /\
    pe_access_order e = k /\ pe_offset e = page_align o.
Proof.
  intros Hlen Halign Hfresh Hmem.
  set (entry := {| pe_file_path := strncpy path (MAX_PATH_LEN - 1) ++ [0];
                   pe_offset := page_align o;
                   pe_size := PAGE_SIZE;
                   pe_access_order := k |}).
  set (pa := {| entries := entries p ++ [entry];
                capacity := if num_entries p >=? capacity p
                            then size_t (capacity p * 2) else capacity p;
                file_paths := file_paths p |}).
  assert (Hmatch : entry_matches path (page_align o) entry = true).
  { unfold entry_matches, entry. cbn [pe_offset pe_file_path].
    rewrite Z.eqb_refl, (strcmp_stored_path path Hlen). reflexivity. }
  assert (Hnone : List.filter (entry_matches path (page_align o)) (entries p)
                  = []).
  { unfold page_exists in Hfresh. rewrite page_exists_loop_filter in Hfresh.
    destruct (List.filter _ (entries p)); [reflexivity|discriminate]. }
  assert (Hfirst : exists r1,
             packer_add_page env1 (Some p) (Some path) o k
             = (r1, Some (snd (find_or_add_file (strdup_ok env1) pa path)))).
  { unfold packer_add_page. cbv zeta. unfold page_exists at 1.
    rewrite page_align_idempotent. fold (page_exists p path o).
    rewrite Hfresh. change (negb (0 =? 0)) with false. cbv iota.
    assert (Hgo : (num_entries p >=? capacity p) && negb (realloc_ok env1)
                  = false).
    { destruct Hmem as [Hcap | ->].
      - replace (num_entries p >=? capacity p) with false; [reflexivity|].
        symmetry. rewrite Z.geb_leb. apply Z.leb_gt. exact Hcap.
      - apply andb_false_r. }
    rewrite Hgo. fold entry. fold pa.
    destruct (find_or_add_file (strdup_ok env1) pa path) as [id p2].
    destruct (id <? 0); eexists; reflexivity. }
  destruct Hfirst as (r1 & Hfirst).
  set (p1 := snd (find_or_add_file (strdup_ok env1) pa path)) in *.
  assert (Hentries : entries p1 = entries p ++ [entry]).
  { subst p1. rewrite find_or_add_file_entries. reflexivity. }
  assert (Hrec : records_of p1 path (page_align o) = [entry]).
  { unfold records_of. rewrite Hentries, List.filter_app, Hnone.
    cbn [List.filter app]. rewrite Hmatch. reflexivity. }
  exists r1, p1, entry. split; [exact Hfirst|]. split.
  - unfold packer_add_page. cbv zeta. unfold page_exists.
    rewrite page_align_idempotent, <- Halign, page_exists_loop_filter.
    fold (records_of p1 path (page_align o)). rewrite Hrec. reflexivity.
  - split; [exact Hrec|]. split; reflexivity.
Qed.

(** Two additions of one page of [path_a] to an empty packer. *)
Lemma packer_add_page_duplicate_witness :
  exists r1 p1 e,
    packer_add_page alloc_succeeds (Some packer_create) (Some path_a) 4100 7
      = (r1, Some p1) /\
    packer_add_page alloc_succeeds (Some p1) (Some path_a) 8191 9
      = (0, Some p1) /\
    records_of p1 path_a (page_align 4100) = [e] /\
    pe_access_order e = 7 /\ pe_offset e = page_align 4100.
Proof.
  apply (packer_add_page_duplicate alloc_succeeds alloc_succeeds
           packer_create path_a 4100 8191 7 9).
  - vm_compute. reflexivity.
  - vm_compute. reflexivity.
  - vm_compute. reflexivity.
  - left. vm_compute. reflexivity.
Defined.

(** C6, the code at a path that does not fit an entry.  Two calls of
    [packer_add_page] for the same page of a path of 512 characters, at
    offsets 0 and 100 with the access orders 0 and 5: both return 0, and
    the second appends a second record for the page.  The entry stores the
    first 511 characters of the path, and [page_exists] compares what is
    stored with the whole path, so the page is not found after it has been
    added: the packer ends with two records for one page of the stored
    path, with the access orders 0 and 5, and none that matches the path
    given. *)
Theorem packer_add_page_long_path_twice :
  strlen long_path = 512 /\
  page_align 0 = page_align 100 /\
  exists p1 p2,
    packer_add_page alloc_succeeds (Some packer_create) (Some long_path) 0 0
      = (0, Some p1) /\
    packer_add_page alloc_succeeds (Some p1) (Some long_path) 100 5
      = (0, Some p2) /\
    num_entries p1 = 1 /\
    page_exists p1 long_path 100 = 0 /\
    num_entries p2 = 2 /\
    map (fun e => (pe_offset e, pe_access_order e)) (entries p2)
      = [(0, 0); (0, 5)] /\
    map (fun e => cstr (pe_file_path e)) (entries p2)
      = [repeat 97 511; repeat 97 511] /\
    records_of p2 long_path 0 = [] /\
    records_of p2 (take 511 long_path) 0 = entries p2.
Proof.
  split; [vm_compute; reflexivity|].
  split; [vm_compute; reflexivity|].
  eexists. eexists.
  split; [vm_compute; reflexivity|].
  split; [vm_compute; reflexivity|].
  repeat split; vm_compute; reflexivity.
Qed.

(* ================================================================== *)
(** * The page-fault routine: error returns and statistics *)

Section HandlerFacts.

Variable double : Type.
Variable d_sub d_add d_div : double -> double -> double.
Variable d_gt : double -> double -> bool.
Variable d_of_u64 : Z -> double.

(** C9 (as the code has it).  Of the error returns of
    [_uffd_handle_pagefault], the failed copy [ioctl] counts: with
    statistics enabled it adds one to [copy_errors] and leaves every other
    statistic (the four other counters and the three times) as it was;
    the handler it leaves differs from the one it was given only in
    [copy_errors] and in the context the lookup returned.  The return for
    a fault address that lies in no registered region is [-ENOENT] and
    leaves the handler, statistics included, as it was. *)
Theorem uffd_handle_pagefault_error_counters
    (env : FaultEnv double) (h : UffdHandler double)
    (fault_addr fault_flags : Z) :
  (_uffd_find_region double h (page_align fault_addr) = None ->
   _uffd_handle_pagefault double d_sub d_add d_div d_gt d_of_u64
     env h fault_addr fault_flags = Returns (- ENOENT, h)) /\
  (forall region source_data ctx errno,
     _uffd_find_region double h (page_align fault_addr) = Some region ->
     bigcache_lookup (bigcache h) (Some (region_file_path region))
       (u64 (file_offset_base region
             + u64 (page_align fault_addr - base region)))
       = Returns (source_data, ctx) ->
     source_data <> None \/ enable_zero_fill (config h) <> 0 ->
     copy_errno env = Some errno ->
     errno <> EEXIST ->
     enable_stats (config h) <> 0 ->
     exists h',
       _uffd_handle_pagefault double d_sub d_add d_div d_gt d_of_u64
         env h fault_addr fault_flags = Returns (- errno, h') /\
       copy_errors (stats h') = (copy_errors (stats h) + 1) mod 2 ^ 64 /\
       total_faults (stats h') = total_faults (stats h) /\
       cache_hits (stats h') = cache_hits (stats h) /\
       cache_misses (stats h') = cache_misses (stats h) /\
       zero_fills (stats h') = zero_fills (stats h) /\
       total_handle_time_us double (stats h')
         = total_handle_time_us double (stats h) /\
       avg_handle_time_us double (stats h')
         = avg_handle_time_us double (stats h) /\
       max_handle_time_us double (stats h')
         = max_handle_time_us double (stats h) /\
       bigcache h' = ctx /\
       regions h' = regions h /\ config h' = config h /\
       uffd double h' = uffd double h /\
       running h' = running h /\
       num_regions h' = num_regions h /\
       zero_page h' = zero_page h).
Proof.
  split.
  - intros Hnone. unfold _uffd_handle_pagefault. cbv zeta.
    rewrite Hnone. reflexivity.
  - intros region source_data ctx errno Hreg Hlook Hsrc Herr Hne Hstats.
    unfold _uffd_handle_pagefault. cbv zeta.
    rewrite Hreg, Hlook. cbn [config set_bigcache stats].
    assert (Hgo : negb match source_data with
                       | Some _ => true | None => false end
                  && (enable_zero_fill (config h) =? 0) = false).
    { destruct source_data; [reflexivity|]. cbn [negb andb].
      apply Z.eqb_neq. destruct Hsrc as [Hs|Hz]; [congruence|exact Hz]. }
    rewrite Hgo, Herr.
    apply Z.eqb_neq in Hne, Hstats. rewrite Hne, Hstats.
    cbn [negb]. eexists. split; [reflexivity|].
    cbn. repeat split.
Qed.

End HandlerFacts.

(** A fault outside every region, and a fault whose copy fails with
    [EFAULT], on the sample handler, whose counters are all zero. *)
Lemma uffd_handle_pagefault_error_counters_witness :
  sample_pagefault (sample_fault_env None) (sample_handler []) 0x11004
    = Returns (- ENOENT, sample_handler []) /\
  exists h',
    sample_pagefault (sample_fault_env (Some 14))
      (sample_handler [sample_region]) 0x11004
      = Returns (Z.opp 14, h') /\
    copy_errors (stats h') = 1 /\
    total_faults (stats h') = 0 /\
    cache_hits (stats h') = 0 /\
    cache_misses (stats h') = 0 /\
    zero_fills (stats h') = 0 /\
    bigcache h' = Some (count_served (count_hit sample_ctx)) /\
    regions h' = [sample_region].
Proof.
  split.
  - apply (proj1 (uffd_handle_pagefault_error_counters Z Z.sub Z.add Z.div
                    Z.gtb (fun n => n) (sample_fault_env None)
                    (sample_handler []) 0x11004 0)).
    reflexivity.
  - destruct (proj2 (uffd_handle_pagefault_error_counters Z Z.sub Z.add
                       Z.div Z.gtb (fun n => n) (sample_fault_env (Some 14))
                       (sample_handler [sample_region]) 0x11004 0)
                sample_region (Some (0x7f0000000000 + 8192))
                (Some (count_served (count_hit sample_ctx))) 14)
      as (h' & Hret & Hce & Htf & Hch & Hcm & Hzf & _ & _ & _ & Hbc & Hrs
          & _).
    + reflexivity.
    + vm_compute. reflexivity.
    + left. discriminate.
    + reflexivity.
    + vm_compute. discriminate.
    + vm_compute. discriminate.
    + exists h'. repeat split; assumption.
Defined.

(** C9 as stated fails: with statistics enabled, a fault outside every
    region returns an error and every counter of the statistics keeps its
    value. *)
Lemma uffd_no_region_counts_nothing :
  enable_stats (config (sample_handler [])) = 1 /\
  exists h',
    sample_pagefault (sample_fault_env None) (sample_handler []) 0x11004
      = Returns (- ENOENT, h') /\
    stats h' = stats (sample_handler []).
Proof.
  split; [reflexivity|]. eexists. split; reflexivity.
Qed.

(** The miss with zero-fill disabled returns [-ENODATA] before the
    statistics block, which is where [cache_misses] is counted. *)
Lemma uffd_miss_without_zero_fill
    (double : Type) (d_sub d_add d_div : double -> double -> double)
    (d_gt : double -> double -> bool) (d_of_u64 : Z -> double)
    (env : FaultEnv double) (h : UffdHandler double)
    (fault_addr fault_flags : Z) (region : MemoryRegion)
    (ctx : option BigCacheContext) :
  _uffd_find_region double h (page_align fault_addr) = Some region ->
  bigcache_lookup (bigcache h) (Some (region_file_path region))
    (u64 (file_offset_base region
          + u64 (page_align fault_addr - base region)))
    = Returns (None, ctx) ->
  enable_zero_fill (config h) = 0 ->
  _uffd_handle_pagefault double d_sub d_add d_div d_gt d_of_u64
    env h fault_addr fault_flags
  = Returns (- ENODATA, set_bigcache double ctx h).
Proof.
  intros Hreg Hlook Hz. unfold _uffd_handle_pagefault. cbv zeta.
  rewrite Hreg, Hlook. cbn [config set_bigcache]. rewrite Hz. reflexivity.
Qed.

(* ================================================================== *)
(** * Memory: reads after stores *)

Lemma length_le_bytes (n : nat) (v : Z) : length (le_bytes n v) = n.
Proof. revert v. induction n; intros v; simpl; [reflexivity|]. f_equal. apply IHn. Qed.

Lemma le_value_le_bytes (n : nat) (v : Z) :
  le_value (le_bytes n v) = v mod 256 ^ Z.of_nat n.
Proof.
  revert v. induction n as [|n IH]; intros v.
  - simpl. rewrite Z.mod_1_r. reflexivity.
  - cbn [le_bytes le_value]. rewrite IH.
    rewrite Nat2Z.inj_succ, Z.pow_succ_r by lia.
    rewrite Z.rem_mul_r by lia. reflexivity.
Qed.

Lemma length_zeros (n : Z) : length (zeros n) = Z.to_nat n.
Proof. apply repeat_length. Qed.

Lemma length_mem_write (m : mem) (off : Z) (bs : list Z) :
  length (mem_write m off bs) = length m.
Proof.
  unfold mem_write.
  destruct ((0 <=? off) && (off + Z.of_nat (length bs) <=? Z.of_nat (length m)))
    eqn:Hin; [|reflexivity].
  apply andb_true_iff in Hin as [H0 H1].
  apply Z.leb_le in H0, H1.
  rewrite !length_app, length_take, length_drop. lia.
Qed.

Lemma mem_write_in_bounds (m : mem) (off : Z) (bs : list Z) :
  0 <= off -> off + Z.of_nat (length bs) <= Z.of_nat (length m) ->
  mem_write m off bs =
  take (Z.to_nat off) m ++ bs ++ drop (Z.to_nat off + length bs) m.
Proof.
  intros H0 H1. unfold mem_write.
  rewrite (proj2 (Z.leb_le 0 off) H0), (proj2 (Z.leb_le _ _) H1).
  reflexivity.
Qed.

Lemma length_mem_read (m : mem) (a n : Z) :
  0 <= a -> 0 <= n -> a + n <= Z.of_nat (length m) ->
  Z.of_nat (length (mem_read m a n)) = n.
Proof.
  intros Ha Hn Hb. unfold mem_read. rewrite length_take, length_drop. lia.
Qed.

(** A read below or above a store sees what was there before. *)
Lemma mem_read_write_other (m : mem) (off : Z) (bs : list Z) (a n : Z) :
  0 <= a -> 0 <= n ->
  a + n <= off \/ off + Z.of_nat (length bs) <= a ->
  mem_read (mem_write m off bs) a n = mem_read m a n.
Proof.
  intros Ha Hn Hdis. unfold mem_write.
  destruct ((0 <=? off) && (off + Z.of_nat (length bs) <=? Z.of_nat (length m)))
    eqn:Hin; [|reflexivity].
  apply andb_true_iff in Hin as [H0 H1].
  apply Z.leb_le in H0, H1. unfold mem_read.
  destruct Hdis as [Hlow|Hhigh].
  - rewrite drop_app_le by (rewrite length_take; lia).
    rewrite take_app_le by (rewrite length_drop, length_take; lia).
    rewrite !take_drop_commute, take_take. f_equal. f_equal. lia.
  - rewrite app_assoc.
    rewrite drop_app_ge by (rewrite length_app, length_take; lia).
    rewrite length_app, length_take, drop_drop. f_equal. f_equal. lia.
Qed.

(** A read at the place of a store sees the bytes stored, then what
    followed them. *)
Lemma mem_read_write_prefix (m : mem) (off : Z) (bs : list Z) (n : Z) :
  0 <= off -> off + Z.of_nat (length bs) <= Z.of_nat (length m) ->
  Z.of_nat (length bs) <= n ->
  mem_read (mem_write m off bs) off n =
  bs ++ mem_read m (off + Z.of_nat (length bs)) (n - Z.of_nat (length bs)).
Proof.
  intros H0 H1 Hn. rewrite mem_write_in_bounds by assumption.
  unfold mem_read.
  rewrite drop_app_length' by (rewrite length_take; lia).
  rewrite take_app, firstn_all2 by lia.
  f_equal. f_equal; [lia|]. f_equal. lia.
Qed.

Lemma mem_read_write_same (m : mem) (off : Z) (bs : list Z) :
  0 <= off -> off + Z.of_nat (length bs) <= Z.of_nat (length m) ->
  mem_read (mem_write m off bs) off (Z.of_nat (length bs)) = bs.
Proof.
  intros H0 H1. rewrite mem_read_write_prefix by lia.
  rewrite Z.sub_diag. unfold mem_read. rewrite take_0. apply app_nil_r.
Qed.

Lemma drop_repeat {A : Type} (x : A) (n k : nat) :
  drop k (repeat x n) = repeat x (n - k).
Proof.
  revert k. induction n as [|n IH]; intros [|k]; simpl; auto.
Qed.

Lemma take_repeat {A : Type} (x : A) (n k : nat) :
  (k <= n)%nat -> take k (repeat x n) = repeat x k.
Proof.
  revert k. induction n as [|n IH]; intros [|k] Hk; simpl; auto; try lia.
  f_equal. apply IH. lia.
Qed.

Lemma mem_read_zeros (n a k : Z) :
  0 <= a -> 0 <= k -> a + k <= n -> mem_read (zeros n) a k = zeros k.
Proof.
  intros Ha Hk Hb. unfold mem_read, zeros.
  rewrite drop_repeat, take_repeat by lia. reflexivity.
Qed.

(** Storing back what a buffer holds leaves it as it is; a second store
    over a first one of the same length replaces it. *)
Lemma mem_write_read_back (m : mem) (off n : Z) :
  0 <= off -> 0 <= n -> off + n <= Z.of_nat (length m) ->
  mem_write m off (mem_read m off n) = m.
Proof.
  intros H0 Hn H1.
  pose proof (length_mem_read m off n H0 Hn H1) as Hlen.
  rewrite mem_write_in_bounds by lia.
  unfold mem_read in *.
  replace (Z.to_nat off + length (take (Z.to_nat n) (drop (Z.to_nat off) m)))%nat
    with (Z.to_nat off + Z.to_nat n)%nat by lia.
  rewrite <- drop_drop, take_drop. apply take_drop.
Qed.

Lemma mem_write_write (m : mem) (off : Z) (bs bs' : list Z) :
  0 <= off -> off + Z.of_nat (length bs) <= Z.of_nat (length m) ->
  length bs' = length bs ->
  mem_write (mem_write m off bs) off bs' = mem_write m off bs'.
Proof.
  intros H0 H1 Hlen.
  rewrite (mem_write_in_bounds (mem_write m off bs))
    by (rewrite ?length_mem_write; lia).
  rewrite (mem_write_in_bounds m off bs') by lia.
  rewrite (mem_write_in_bounds m off bs) by lia.
  rewrite take_app_length' by (rewrite length_take; lia).
  f_equal. f_equal. rewrite Hlen, app_assoc.
  rewrite drop_app_length' by (rewrite length_app, length_take; lia).
  reflexivity.
Qed.

Lemma read_u32_write_u32 (m : mem) (off v : Z) :
  0 <= off -> off + 4 <= Z.of_nat (length m) ->
  read_u32 (write_u32 m off v) off = u32 v.
Proof.
  intros H0 H1. unfold read_u32, write_u32.
  change 4 with (Z.of_nat (length (le_bytes 4 v))) at 1.
  rewrite mem_read_write_same by (rewrite ?length_le_bytes; lia).
  rewrite le_value_le_bytes. unfold u32, wrap.
  change (256 ^ Z.of_nat 4) with (2 ^ 32). apply Z.mod_mod. lia.
Qed.

Lemma read_u64_write_u64 (m : mem) (off v : Z) :
  0 <= off -> off + 8 <= Z.of_nat (length m) ->
  read_u64 (write_u64 m off v) off = u64 v.
Proof.
  intros H0 H1. unfold read_u64, write_u64.
  change 8 with (Z.of_nat (length (le_bytes 8 v))) at 1.
  rewrite mem_read_write_same by (rewrite ?length_le_bytes; lia).
  rewrite le_value_le_bytes. unfold u64, wrap.
  change (256 ^ Z.of_nat 8) with (2 ^ 64). apply Z.mod_mod. lia.
Qed.

Lemma mem_read_write_inside (m : mem) (off : Z) (bs : list Z) (a n : Z) :
  0 <= off -> off + Z.of_nat (length bs) <= Z.of_nat (length m) ->
  off <= a -> 0 <= n -> a + n <= off + Z.of_nat (length bs) ->
  mem_read (mem_write m off bs) a n = mem_read bs (a - off) n.
Proof.
  intros H0 H1 Ha Hn Hb. rewrite mem_write_in_bounds by assumption.
  unfold mem_read.
  rewrite drop_app_ge by (rewrite length_take; lia).
  rewrite length_take.
  rewrite drop_app_le by lia.
  rewrite take_app_le by (rewrite length_drop; lia).
  f_equal. f_equal. lia.
Qed.

Ltac field_offsets :=
  unfold field_off;
  repeat match goal with
    | |- context [offsetof ?s ?f] =>
        let v := eval vm_compute in (offsetof s f) in
        change (offsetof s f) with v
    | |- context [sizeof ?s] =>
        let v := eval vm_compute in (sizeof s) in
        change (sizeof s) with v
    end.

Ltac mem_side :=
  rewrite ?length_mem_write, ?length_le_bytes, ?length_zeros; lia.

Ltac peel_writes :=
  repeat (rewrite mem_read_write_other by mem_side).

(* ================================================================== *)
(** * The layout of a built bundle *)

Lemma packer_layout (p : BigCachePacker) :
  packer_in_range p ->
  index_offset p = 88 /\
  file_table_offset p = 88 + 20 * num_entries p /\
  file_table_offset p + 532 * num_files p <= data_offset p /\
  data_offset p < file_table_offset p + 532 * num_files p + 4096 /\
  data_offset p mod 4096 = 0 /\
  total_size p = data_offset p + 4096 * num_entries p /\
  total_size p < 2 ^ 64.
Proof.
  intros [Hn Hf].
  assert (Hn0 : 0 <= num_entries p) by (unfold num_entries; lia).
  assert (Hf0 : 0 <= num_files p) by (unfold num_files; lia).
  assert (Hio : index_offset p = 88) by reflexivity.
  assert (Hfto : file_table_offset p = 88 + 20 * num_entries p).
  { unfold file_table_offset, index_size. rewrite Hio.
    change (sizeof BigCachePageIndex) with 20.
    rewrite !size_t_small by (rewrite ?size_t_small; lia). lia. }
  assert (Hdo : data_offset p
                = 4096 * ((file_table_offset p + 532 * num_files p + 4095)
                          / 4096)).
  { unfold data_offset, file_table_size.
    change (sizeof BigCacheFileEntry) with 532.
    change (Z.land ?x (size_t (Z.lnot (PAGE_SIZE - 1)))) with (page_align x).
    rewrite page_align_div. unfold PAGE_SIZE.
    rewrite (size_t_small (num_files p * 532)) by lia.
    rewrite size_t_small by lia.
    rewrite Z.mod_small by lia. f_equal. f_equal. lia. }
  pose proof (Z.div_mod (file_table_offset p + 532 * num_files p + 4095) 4096
                ltac:(lia)) as Hdm.
  pose proof (Z.mod_pos_bound
                (file_table_offset p + 532 * num_files p + 4095) 4096
                ltac:(lia)) as Hmb.
  assert (Htot : total_size p = data_offset p + 4096 * num_entries p).
  { unfold total_size, data_size. unfold PAGE_SIZE.
    rewrite (size_t_small (num_entries p * 4096)) by lia.
    rewrite size_t_small by lia. lia. }
  repeat split; try assumption; try lia.
  rewrite Hdo, Z.mul_comm. apply Z.mod_mul. lia.
Qed.

(* ================================================================== *)
(** * The phases of [packer_build] *)

Lemma length_write_header (p : BigCachePacker) (out : mem) :
  length (write_header p out) = length out.
Proof.
  unfold write_header, write_u32, write_u64. cbv zeta.
  rewrite !length_mem_write. reflexivity.
Qed.

(** The header block leaves everything from byte 88 on as it was. *)
Lemma write_header_frame (p : BigCachePacker) (out : mem) (a n : Z) :
  88 <= a -> 0 <= n ->
  mem_read (write_header p out) a n = mem_read out a n.
Proof.
  intros Ha Hn. unfold write_header, write_u32, write_u64. cbv zeta.
  field_offsets. peel_writes. reflexivity.
Qed.

(** The fields of the header after the header block. *)
Lemma write_header_fields (p : BigCachePacker) (out : mem) :
  88 <= Z.of_nat (length out) ->
  read_header (write_header p out) =
  {| h_magic := BIGCACHE_MAGIC;
     h_version := BIGCACHE_VERSION;
     h_num_pages := u32 (num_entries p);
     h_num_files := u32 (num_files p);
     h_data_offset := u64 (data_offset p);
     h_index_offset := u64 (index_offset p);
     h_file_table_offset := u64 (file_table_offset p);
     h_total_size := u64 (total_size p);
     h_checksum := 0;
     h_flags := 0;
     h_reserved := zeros 32 |}.
Proof.
  intros Hlen. unfold read_header, write_header. cbv zeta.
  unfold read_u32, read_u64, write_u32, write_u64.
  field_offsets. change (0 + ?x) with x.
  f_equal.
  all: peel_writes.
  all: try (match goal with
            | |- context [mem_read (mem_write _ ?o (le_bytes ?k ?v)) ?o _] =>
                change (mem_read (mem_write ?m o (le_bytes k v)) o ?w)
                  with (mem_read (mem_write m o (le_bytes k v)) o
                          (Z.of_nat (length (le_bytes k v))));
                rewrite mem_read_write_same by mem_side;
                rewrite le_value_le_bytes
            end).
  all: try (unfold u32, u64, wrap; first
            [ change (256 ^ Z.of_nat 4) with (2 ^ 32)
            | change (256 ^ Z.of_nat 8) with (2 ^ 64) ];
            rewrite ?Z.mod_mod by lia; reflexivity).
  all: rewrite mem_read_write_inside by mem_side.
  all: rewrite mem_read_zeros by lia; reflexivity.
Qed.

Lemma length_strncpy (src : list Z) (n : Z) :
  0 <= n -> length (strncpy src n) = Z.to_nat n.
Proof.
  intros Hn. unfold strncpy.
  rewrite length_take, length_app, length_zeros. lia.
Qed.

Lemma length_write_file_entry (p : BigCachePacker) (out : mem) (i : Z)
    (path : list Z) :
  length (write_file_entry p out i path) = length out.
Proof.
  unfold write_file_entry, write_u32, write_u64. cbv zeta.
  rewrite !length_mem_write. reflexivity.
Qed.

(** A file record is stored at or above its own address. *)
Lemma write_file_entry_frame (p : BigCachePacker) (out : mem) (i : Z)
    (path : list Z) (a n : Z) :
  0 <= a -> 0 <= n ->
  a + n <= file_table_offset p + i * sizeof BigCacheFileEntry ->
  mem_read (write_file_entry p out i path) a n = mem_read out a n.
Proof.
  intros Ha Hn Hb. unfold write_file_entry, write_u32, write_u64. cbv zeta.
  revert Hb. field_offsets. intros Hb.
  repeat (rewrite mem_read_write_other
            by (rewrite ?length_le_bytes, ?length_strncpy by (unfold MAX_PATH_LEN; lia);
                unfold MAX_PATH_LEN; lia)).
  reflexivity.
Qed.

Lemma length_write_file_table (p : BigCachePacker) (paths : list (list Z))
    (i : Z) (out : mem) :
  length (write_file_table p paths i out) = length out.
Proof.
  revert i out. induction paths as [|path rest IH]; intros i out;
    [reflexivity|].
  cbn [write_file_table]. rewrite IH. apply length_write_file_entry.
Qed.

Lemma write_file_table_frame (p : BigCachePacker) (paths : list (list Z))
    (i : Z) (out : mem) (a n : Z) :
  0 <= a -> 0 <= n -> 0 <= i ->
  a + n <= file_table_offset p + i * sizeof BigCacheFileEntry ->
  mem_read (write_file_table p paths i out) a n = mem_read out a n.
Proof.
  revert i out. induction paths as [|path rest IH]; intros i out Ha Hn Hi Hb;
    [reflexivity|].
  cbn [write_file_table].
  rewrite IH; [apply write_file_entry_frame; assumption|lia..|].
  revert Hb. change (sizeof BigCacheFileEntry) with 532. lia.
Qed.

(** ** One page *)

Lemma pread_length (file : Z -> PreadResult) (count offset : Z)
    (bytes : list Z) :
  0 <= count ->
  pread file count offset = PreadData bytes ->
  Z.of_nat (length bytes) <= count.
Proof.
  intros Hc. unfold pread. destruct (file offset); [discriminate|].
  intros H. inversion H; subst. rewrite length_take. lia.
Qed.

Lemma length_snprintf (size : Z) (text : list Z) :
  1 <= size -> Z.of_nat (length (snprintf size text)) <= size.
Proof.
  intros Hs. unfold snprintf. rewrite length_app, length_take. simpl. lia.
Qed.

Lemma length_write_page_data (fs : SourceFs) (pe : PackerPageEntry)
    (pd : Z) (out : mem) :
  length (fst (write_page_data fs pe pd out)) = length out.
Proof.
  unfold write_page_data.
  destruct (fs (cstr (pe_file_path pe))) as [file|].
  - destruct (pread file PAGE_SIZE (pe_offset pe)) as [|bytes].
    + apply length_mem_write.
    + destruct (Z.of_nat (length bytes) =? PAGE_SIZE); cbn [fst];
        rewrite !length_mem_write; reflexivity.
  - cbn [fst]. rewrite !length_mem_write. reflexivity.
Qed.

(** The data of a page is stored inside its own 4 KiB. *)
Lemma write_page_data_frame (fs : SourceFs) (pe : PackerPageEntry)
    (pd : Z) (out : mem) (a n : Z) :
  0 <= a -> 0 <= n ->
  a + n <= pd \/ pd + PAGE_SIZE <= a ->
  mem_read (fst (write_page_data fs pe pd out)) a n = mem_read out a n.
Proof.
  intros Ha Hn Hdis. unfold write_page_data.
  pose proof (length_snprintf 256 (simulated_text pe) ltac:(lia)) as Hs.
  assert (Hz : Z.of_nat (length (zeros PAGE_SIZE)) = PAGE_SIZE)
    by (rewrite length_zeros; unfold PAGE_SIZE; lia).
  destruct (fs (cstr (pe_file_path pe))) as [file|].
  - destruct (pread file PAGE_SIZE (pe_offset pe)) as [|bytes] eqn:Hread.
    + cbn [fst]. apply mem_read_write_other; [assumption|assumption|].
      rewrite Hz. exact Hdis.
    + pose proof (pread_length file PAGE_SIZE _ bytes
                    ltac:(unfold PAGE_SIZE; lia) Hread) as Hb.
      destruct (Z.of_nat (length bytes) =? PAGE_SIZE); cbn [fst].
      * apply mem_read_write_other; [assumption|assumption|lia].
      * rewrite mem_read_write_other by (rewrite ?Hz; lia).
        apply mem_read_write_other; [assumption|assumption|lia].
  - cbn [fst].
    rewrite mem_read_write_other by (unfold PAGE_SIZE in *; lia).
    apply mem_read_write_other; [assumption|assumption|].
    rewrite Hz. exact Hdis.
Qed.

(** What the data region holds for a page once its turn of the loop is
    over, and whether the page counted as successful. *)
Lemma write_page_data_image (fs : SourceFs) (pe : PackerPageEntry)
    (pd : Z) (out : mem) :
  0 <= pd -> pd + PAGE_SIZE <= Z.of_nat (length out) ->
  mem_read (fst (write_page_data fs pe pd out)) pd PAGE_SIZE
    = page_image fs pe /\
  snd (write_page_data fs pe pd out) = page_read_ok fs pe.
Proof.
  intros H0 Hb. unfold write_page_data, page_image, page_read_ok.
  assert (Hz : Z.of_nat (length (zeros PAGE_SIZE)) = PAGE_SIZE)
    by (rewrite length_zeros; unfold PAGE_SIZE; lia).
  destruct (fs (cstr (pe_file_path pe))) as [file|].
  - destruct (pread file PAGE_SIZE (pe_offset pe)) as [|bytes] eqn:Hread.
    + cbn [fst snd]. split; [|reflexivity].
      rewrite <- Hz at 2. apply mem_read_write_same; rewrite ?Hz; lia.
    + destruct (Z.eqb_spec (Z.of_nat (length bytes)) PAGE_SIZE) as [He|Hne];
        cbn [fst snd]; (split; [|reflexivity]).
      * rewrite <- He. apply mem_read_write_same; lia.
      * rewrite <- Hz at 2.
        apply mem_read_write_same; rewrite ?length_mem_write, ?Hz; lia.
  - cbn [fst snd]. split; [|reflexivity]. cbv zeta.
    pose proof (length_snprintf 256 (simulated_text pe) ltac:(lia)) as Hs.
    set (text := snprintf 256 (simulated_text pe)) in *.
    rewrite mem_read_write_prefix
      by (rewrite ?length_mem_write; unfold PAGE_SIZE in *; lia).
    f_equal.
    rewrite mem_read_write_inside by (unfold PAGE_SIZE in *; lia).
    apply mem_read_zeros; unfold PAGE_SIZE in *; lia.
Qed.

Lemma write_page_data_ok (fs : SourceFs) (pe : PackerPageEntry)
    (pd : Z) (out : mem) :
  snd (write_page_data fs pe pd out) = page_read_ok fs pe.
Proof.
  unfold write_page_data, page_read_ok.
  destruct (fs (cstr (pe_file_path pe))) as [file|]; [|reflexivity].
  destruct (pread file PAGE_SIZE (pe_offset pe)) as [|bytes]; [reflexivity|].
  destruct (Z.of_nat (length bytes) =? PAGE_SIZE); reflexivity.
Qed.

Lemma build_page_unfold (env : BuildEnv) (p : BigCachePacker) (i : Z)
    (pe : PackerPageEntry) (st : BuildState) :
  let found := find_or_add_file (build_strdup_ok env i) (bs_packer st)
                 (pe_file_path pe) in
  let written :=
    write_page_data (source_fs env) pe (data_offset p + i * PAGE_SIZE)
      (write_page_index p i (fst found) pe (bs_output st)) in
  build_page env p i pe st =
  {| bs_packer := snd found;
     bs_output := fst written;
     successful_pages :=
       successful_pages st + (if snd written then 1 else 0);
     failed_pages := failed_pages st + (if snd written then 0 else 1) |}.
Proof.
  cbv zeta. unfold build_page.
  destruct (find_or_add_file _ _ _) as [id pk]. cbn [fst snd].
  destruct (write_page_data _ _ _ _) as [o ok]. reflexivity.
Qed.

Lemma length_write_page_index (p : BigCachePacker) (i id : Z)
    (pe : PackerPageEntry) (out : mem) :
  length (write_page_index p i id pe out) = length out.
Proof.
  unfold write_page_index, write_u16, write_u32, write_u64. cbv zeta.
  rewrite !length_mem_write. reflexivity.
Qed.

(** An index record is stored inside its own 20 bytes. *)
Lemma write_page_index_frame (p : BigCachePacker) (i id : Z)
    (pe : PackerPageEntry) (out : mem) (a n : Z) :
  0 <= a -> 0 <= n ->
  a + n <= index_offset p + i * 20 \/ index_offset p + (i + 1) * 20 <= a ->
  mem_read (write_page_index p i id pe out) a n = mem_read out a n.
Proof.
  intros Ha Hn Hdis.
  unfold write_page_index, write_u16, write_u32, write_u64. cbv zeta.
  field_offsets. peel_writes. reflexivity.
Qed.

Lemma length_build_page (env : BuildEnv) (p : BigCachePacker) (i : Z)
    (pe : PackerPageEntry) (st : BuildState) :
  length (bs_output (build_page env p i pe st)) = length (bs_output st).
Proof.
  rewrite build_page_unfold. cbn [bs_output].
  rewrite length_write_page_data. apply length_write_page_index.
Qed.

(** A turn of the page loop stores inside the index record and the data
    page of its own index. *)
Lemma build_page_frame (env : BuildEnv) (p : BigCachePacker) (i : Z)
    (pe : PackerPageEntry) (st : BuildState) (a n : Z) :
  0 <= a -> 0 <= n ->
  a + n <= index_offset p + i * 20 \/
  index_offset p + (i + 1) * 20 <= a ->
  a + n <= data_offset p + i * PAGE_SIZE \/
  data_offset p + (i + 1) * PAGE_SIZE <= a ->
  mem_read (bs_output (build_page env p i pe st)) a n
  = mem_read (bs_output st) a n.
Proof.
  intros Ha Hn Hidx Hdata. rewrite build_page_unfold. cbn [bs_output].
  rewrite write_page_data_frame by (unfold PAGE_SIZE in *; lia).
  apply write_page_index_frame; assumption.
Qed.

Lemma build_page_image (env : BuildEnv) (p : BigCachePacker) (i : Z)
    (pe : PackerPageEntry) (st : BuildState) :
  0 <= data_offset p + i * PAGE_SIZE ->
  data_offset p + (i + 1) * PAGE_SIZE <= Z.of_nat (length (bs_output st)) ->
  mem_read (bs_output (build_page env p i pe st))
    (data_offset p + i * PAGE_SIZE) PAGE_SIZE
  = page_image (source_fs env) pe.
Proof.
  intros H0 Hb. rewrite build_page_unfold. cbn [bs_output].
  apply write_page_data_image; [exact H0|].
  rewrite length_write_page_index. unfold PAGE_SIZE in *. lia.
Qed.

(** ** The page loop *)

Lemma length_build_pages (env : BuildEnv) (p : BigCachePacker)
    (es : list PackerPageEntry) (i : Z) (st : BuildState) :
  length (bs_output (build_pages env p es i st)) = length (bs_output st).
Proof.
  revert i st. induction es as [|pe rest IH]; intros i st; [reflexivity|].
  cbn [build_pages]. rewrite IH. apply length_build_page.
Qed.

(** The turns from index [i] on leave alone whatever lies below index
    record [i], and whatever lies between the end of the index region, at
    record [n_total], and data page [i]. *)
Lemma build_pages_frame (env : BuildEnv) (p : BigCachePacker)
    (es : list PackerPageEntry) (i : Z) (st : BuildState)
    (n_total a n : Z) :
  0 <= a -> 0 <= n -> 0 <= i ->
  i + Z.of_nat (length es) <= n_total ->
  index_offset p + n_total * 20 <= data_offset p ->
  a + n <= index_offset p + i * 20 \/
  (index_offset p + n_total * 20 <= a /\
   a + n <= data_offset p + i * PAGE_SIZE) ->
  mem_read (bs_output (build_pages env p es i st)) a n
  = mem_read (bs_output st) a n.
Proof.
  revert i st. induction es as [|pe rest IH];
    intros i st Ha Hn Hi Hcount Hlay Hwhere; [reflexivity|].
  cbn [build_pages]. cbn [length] in Hcount.
  rewrite IH; try assumption; try (unfold PAGE_SIZE in *; lia).
  apply build_page_frame; try assumption; unfold PAGE_SIZE in *; lia.
Qed.

Lemma build_pages_image (env : BuildEnv) (p : BigCachePacker)
    (es : list PackerPageEntry) (i : Z) (st : BuildState)
    (n_total : Z) (k : nat) (pe : PackerPageEntry) :
  es !! k = Some pe ->
  0 <= i ->
  i + Z.of_nat (length es) <= n_total ->
  0 <= index_offset p ->
  index_offset p + n_total * 20 <= data_offset p ->
  data_offset p + n_total * PAGE_SIZE <= Z.of_nat (length (bs_output st)) ->
  mem_read (bs_output (build_pages env p es i st))
    (data_offset p + (i + Z.of_nat k) * PAGE_SIZE) PAGE_SIZE
  = page_image (source_fs env) pe.
Proof.
  revert i st k. induction es as [|e rest IH];
    intros i st k Hk Hi Hcount Hio Hlay Hlen; [discriminate|].
  cbn [build_pages]. cbn [length] in Hcount.
  destruct k as [|k].
  - cbn in Hk. inversion Hk; subst e. rewrite Z.add_0_r.
    rewrite (build_pages_frame env p rest (i + 1) _ n_total)
      by (unfold PAGE_SIZE in *; lia).
    apply build_page_image; unfold PAGE_SIZE in *; lia.
  - cbn in Hk.
    replace (i + Z.of_nat (S k)) with (i + 1 + Z.of_nat k) by lia.
    apply (IH (i + 1) _ k Hk); try lia.
    rewrite length_build_page. exact Hlen.
Qed.

Lemma count_if_cons (f : PackerPageEntry -> bool) (e : PackerPageEntry)
    (es : list PackerPageEntry) :
  count_if f (e :: es) = (if f e then 1 else 0) + count_if f es.
Proof.
  unfold count_if. cbn [List.filter]. destruct (f e); cbn [length]; lia.
Qed.

Lemma build_pages_counts (env : BuildEnv) (p : BigCachePacker)
    (es : list PackerPageEntry) (i : Z) (st : BuildState) :
  successful_pages (build_pages env p es i st)
    = successful_pages st + count_if (page_read_ok (source_fs env)) es /\
  failed_pages (build_pages env p es i st)
    = failed_pages st
      + count_if (fun pe => negb (page_read_ok (source_fs env) pe)) es.
Proof.
  revert i st. induction es as [|pe rest IH]; intros i st.
  - unfold count_if. cbn. lia.
  - cbn [build_pages]. destruct (IH (i + 1) (build_page env p i pe st))
      as [Hs Hf].
    rewrite Hs, Hf, !count_if_cons, build_page_unfold.
    cbn [successful_pages failed_pages]. rewrite write_page_data_ok.
    destruct (page_read_ok (source_fs env) pe); cbn [negb]; lia.
Qed.

(* ================================================================== *)
(** * The checksum *)

Lemma lxor_range (n a b : Z) :
  0 <= n -> 0 <= a < 2 ^ n -> 0 <= b < 2 ^ n -> 0 <= Z.lxor a b < 2 ^ n.
Proof.
  intros Hn Ha Hb. split.
  - apply Z.lxor_nonneg. lia.
  - destruct (Z.eq_dec (Z.lxor a b) 0) as [->|Hnz].
    + apply Z.pow_pos_nonneg; lia.
    + assert (Hpos : 0 < Z.lxor a b)
        by (pose proof (proj2 (Z.lxor_nonneg a b) ltac:(lia)); lia).
      apply Z.log2_lt_pow2; [exact Hpos|].
      pose proof (Z.log2_lxor a b ltac:(lia) ltac:(lia)) as Hl.
      assert (Hn1 : 0 < n).
      { destruct (Z.eq_dec n 0) as [->|]; [|lia].
        change (2 ^ 0) with 1 in *.
        assert (a = 0) by lia. assert (b = 0) by lia. subst.
        contradiction. }
      assert (Z.log2 a < n).
      { destruct (Z.eq_dec a 0) as [->|]; [simpl; lia|].
        apply Z.log2_lt_pow2; lia. }
      assert (Z.log2 b < n).
      { destruct (Z.eq_dec b 0) as [->|]; [simpl; lia|].
        apply Z.log2_lt_pow2; lia. }
      lia.
Qed.

Lemma crc32_table_range (i : nat) : 0 <= nth i crc32_table 0 < 2 ^ 32.
Proof.
  assert (Hall : forallb (fun x => (0 <=? x) && (x <? 2 ^ 32)) crc32_table
                 = true) by (vm_compute; reflexivity).
  rewrite forallb_forall in Hall.
  destruct (Nat.lt_ge_cases i (length crc32_table)) as [Hlt|Hge].
  - specialize (Hall _ (nth_In crc32_table 0 Hlt)).
    apply andb_true_iff in Hall as [H0 H1].
    apply Z.leb_le in H0. apply Z.ltb_lt in H1. lia.
  - rewrite nth_overflow by exact Hge. lia.
Qed.

Lemma crc32_update_range (crc b : Z) :
  0 <= crc < 2 ^ 32 -> 0 <= crc32_update crc b < 2 ^ 32.
Proof.
  intros Hc. unfold crc32_update. apply lxor_range; [lia| |].
  - apply crc32_table_range.
  - rewrite Z.shiftr_div_pow2 by lia. split.
    + apply Z.div_pos; lia.
    + apply Z.div_lt_upper_bound; lia.
Qed.

Lemma bigcache_crc32_range (data : list Z) :
  0 <= bigcache_crc32 data < 2 ^ 32.
Proof.
  unfold bigcache_crc32. apply lxor_range; [lia| |lia].
  assert (H : forall crc, 0 <= crc < 2 ^ 32 ->
                0 <= fold_left crc32_update data crc < 2 ^ 32).
  { induction data as [|b rest IH]; intros crc Hc; [exact Hc|].
    cbn [fold_left]. apply IH. apply crc32_update_range. exact Hc. }
  apply H. lia.
Qed.

(** ** The table-driven loop computes the bit-by-bit CRC-32 *)

Lemma crc32_shift_bit (c : Z) : crc32_shift c = crc_shift_bit 0xEDB88320 c.
Proof.
  unfold crc32_shift, crc_shift_bit.
  change 1 with (Z.ones 1) at 2. rewrite Z.land_ones by lia.
  change (2 ^ 1) with 2. rewrite Zodd_mod.
  destruct (Z.eqb_spec (c mod 2) 0) as [H0|H0].
  - rewrite H0. cbn. apply Z.lxor_0_r.
  - replace (c mod 2) with 1
      by (pose proof (Z.mod_pos_bound c 2 ltac:(lia)); lia).
    reflexivity.
Qed.

Lemma land_1_mod (a : Z) : Z.land a 1 = a mod 2.
Proof. change 1 with (Z.ones 1). rewrite Z.land_ones by lia. reflexivity. Qed.

Lemma land_1_cases (a : Z) : Z.land a 1 = 0 \/ Z.land a 1 = 1.
Proof.
  rewrite land_1_mod. pose proof (Z.mod_pos_bound a 2 ltac:(lia)). lia.
Qed.

Lemma land_lxor_distr (a b c : Z) :
  Z.land (Z.lxor a b) c = Z.lxor (Z.land a c) (Z.land b c).
Proof.
  apply Z.bits_inj'. intros n _.
  rewrite !Z.lxor_spec, !Z.land_spec, Z.lxor_spec.
  destruct (Z.testbit a n), (Z.testbit b n), (Z.testbit c n); reflexivity.
Qed.

(** A shift is linear for xor. *)
Lemma crc32_shift_lxor (a b : Z) :
  crc32_shift (Z.lxor a b) = Z.lxor (crc32_shift a) (crc32_shift b).
Proof.
  unfold crc32_shift. rewrite Z.shiftr_lxor, land_lxor_distr.
  generalize 0xEDB88320 as p. intros p.
  destruct (land_1_cases a) as [Ha|Ha], (land_1_cases b) as [Hb|Hb];
    rewrite Ha, Hb;
    repeat match goal with
      | |- context [?u =? 0] =>
          let v := eval vm_compute in (u =? 0) in change (u =? 0) with v
      end;
    cbv iota;
    apply Z.bits_inj'; intros n _;
    rewrite ?Z.lxor_spec, ?Z.bits_0;
    destruct (Z.testbit (Z.shiftr a 1) n), (Z.testbit (Z.shiftr b 1) n),
      (Z.testbit p n); reflexivity.
Qed.

Lemma iter_crc32_shift_lxor (k : nat) (a b : Z) :
  Nat.iter k crc32_shift (Z.lxor a b)
  = Z.lxor (Nat.iter k crc32_shift a) (Nat.iter k crc32_shift b).
Proof.
  induction k as [|k IH]; [reflexivity|].
  rewrite !Nat.iter_succ, IH. apply crc32_shift_lxor.
Qed.

(** Shifting out [k] zero bits brings no polynomial in. *)
Lemma iter_crc32_shift_shiftl (k : nat) (h : Z) :
  Nat.iter k crc32_shift (Z.shiftl h (Z.of_nat k)) = h.
Proof.
  revert h. induction k as [|k IH]; intros h.
  - cbn. apply Z.shiftl_0_r.
  - rewrite Nat.iter_succ.
    replace (Z.of_nat (S k)) with (1 + Z.of_nat k) by lia.
    rewrite <- Z.shiftl_shiftl by lia. rewrite IH.
    unfold crc32_shift.
    assert (Hbit : Z.land (Z.shiftl h 1) 1 = 0).
    { change 1 with (Z.ones 1) at 2. rewrite Z.land_ones by lia.
      rewrite Z.shiftl_mul_pow2 by lia. apply Z.mod_mul. lia. }
    rewrite Hbit. cbn [Z.eqb]. rewrite Z.lxor_0_r.
    rewrite Z.shiftr_shiftl_l by lia. apply Z.shiftl_0_r.
Qed.

Lemma split_low_byte (x : Z) :
  x = Z.lxor (Z.land x 0xFF) (Z.shiftl (Z.shiftr x 8) 8).
Proof.
  apply Z.bits_inj'. intros n Hn.
  rewrite Z.lxor_spec, Z.land_spec.
  change 0xFF with (Z.ones 8).
  destruct (Z.ltb_spec n 8) as [Hlt|Hge].
  - rewrite Z.ones_spec_low by lia.
    rewrite Z.shiftl_spec_low by lia.
    rewrite andb_true_r, xorb_false_r. reflexivity.
  - rewrite Z.ones_spec_high by lia.
    rewrite Z.shiftl_spec by lia. rewrite Z.shiftr_spec by lia.
    rewrite andb_false_r, xorb_false_l. f_equal. lia.
Qed.

Lemma crc32_table_nth (i : Z) :
  0 <= i < 256 ->
  nth (Z.to_nat i) crc32_table 0 = crc32_table_entry i.
Proof.
  intros Hi.
  assert (Hall : forallb
                   (fun k => nth k crc32_table 0
                             =? crc32_table_entry (Z.of_nat k))
                   (seq 0 256) = true) by (vm_compute; reflexivity).
  rewrite forallb_forall in Hall.
  assert (Hin : In (Z.to_nat i) (seq 0 256)) by (apply in_seq; lia).
  pose proof (Hall (Z.to_nat i) Hin) as Hk. cbv beta in Hk.
  rewrite Z2Nat.id in Hk by lia. apply Z.eqb_eq in Hk. exact Hk.
Qed.

Lemma iter_crc32_shift_bit (k : nat) (x : Z) :
  Nat.iter k (crc_shift_bit 0xEDB88320) x = Nat.iter k crc32_shift x.
Proof.
  induction k as [|k IH]; [reflexivity|].
  rewrite !Nat.iter_succ, IH. symmetry. apply crc32_shift_bit.
Qed.

Lemma crc32_update_absorb (crc b : Z) :
  crc32_update crc b = crc_absorb_byte 0xEDB88320 crc b.
Proof.
  unfold crc_absorb_byte. rewrite iter_crc32_shift_bit.
  set (x := Z.lxor crc (b mod 256)).
  assert (Hb : b mod 256 = Z.land b 0xFF)
    by (change 0xFF with (Z.ones 8); rewrite Z.land_ones by lia;
        reflexivity).
  assert (Hlow : Z.land x 0xFF = Z.land (Z.lxor crc b) 0xFF).
  { subst x. rewrite Hb, !land_lxor_distr.
    rewrite <- Z.land_assoc, Z.land_diag. reflexivity. }
  assert (Hhigh : Z.shiftr x 8 = Z.shiftr crc 8).
  { subst x. rewrite Z.shiftr_lxor.
    rewrite (Z.shiftr_div_pow2 (b mod 256)) by lia.
    rewrite Z.div_small by (apply Z.mod_pos_bound; lia).
    apply Z.lxor_0_r. }
  rewrite (split_low_byte x) at 1.
  rewrite iter_crc32_shift_lxor.
  change 8 with (Z.of_nat 8) at 2. rewrite iter_crc32_shift_shiftl.
  rewrite Hhigh, Hlow. unfold crc32_update.
  rewrite crc32_table_nth; [reflexivity|].
  change 0xFF with (Z.ones 8). rewrite Z.land_ones by lia.
  apply Z.mod_pos_bound. lia.
Qed.

(** [bigcache_crc32] is CRC-32 with polynomial 0xEDB88320, initial value
    0xFFFFFFFF and final xor 0xFFFFFFFF. *)
Lemma bigcache_crc32_reference (data : list Z) :
  bigcache_crc32 data = crc32_ieee data.
Proof.
  unfold bigcache_crc32, crc32_ieee, crc_reference. f_equal.
  generalize 0xFFFFFFFF at 1 2 as crc. 
  induction data as [|b rest IH]; intros crc; [reflexivity|].
  cbn [fold_left]. rewrite crc32_update_absorb. apply IH.
Qed.

(* ================================================================== *)
(** * [packer_build] as a whole *)

(** A build that produced a file went through the page loop. *)
Lemma packer_build_output (env : BuildEnv) (p : BigCachePacker)
    (out_path : list Z) (b : mem) :
  build_output (packer_build env (Some p) (Some out_path)) = Some b ->
  num_entries p <> 0 /\
  b = write_checksum p (bs_output (after_pages env p)) /\
  packer_build env (Some p) (Some out_path) =
  {| build_ret := 0;
     build_packer := Some (bs_packer (after_pages env p));
     build_output := Some b;
     build_successful := successful_pages (after_pages env p);
     build_simulated := failed_pages (after_pages env p) |}.
Proof.
  unfold packer_build.
  destruct (Z.eqb_spec (num_entries p) 0) as [|Hne]; [discriminate|].
  destruct (output_outcome env); try discriminate.
  cbv zeta. cbn [build_output]. intros H. inversion H; subst.
  repeat split. exact Hne.
Qed.

Lemma length_after_pages (env : BuildEnv) (p : BigCachePacker) :
  packer_in_range p ->
  Z.of_nat (length (bs_output (after_pages env p))) = total_size p.
Proof.
  intros Hr. destruct (packer_layout p Hr) as (_ & _ & _ & _ & _ & Ht & _).
  unfold after_pages, before_pages. rewrite length_build_pages.
  cbn [bs_output].
  rewrite length_write_file_table, length_write_header, length_zeros.
  assert (0 <= num_entries p) by (unfold num_entries; lia).
  assert (0 <= num_files p) by (unfold num_files; lia).
  destruct (packer_layout p Hr) as (_ & Hfto & Hdo & _).
  lia.
Qed.

(** The header block survives the file table and the page loop. *)
Lemma after_pages_header (env : BuildEnv) (p : BigCachePacker) (a n : Z) :
  packer_in_range p ->
  0 <= a -> 0 <= n -> a + n <= 88 ->
  mem_read (bs_output (after_pages env p)) a n
  = mem_read (write_header p (zeros (total_size p))) a n.
Proof.
  intros Hr Ha Hn Hb.
  destruct (packer_layout p Hr) as (Hio & Hfto & Hdo & _).
  assert (0 <= num_entries p) by (unfold num_entries; lia).
  assert (0 <= num_files p) by (unfold num_files; lia).
  unfold after_pages, before_pages.
  rewrite (build_pages_frame env p (entries p) 0 _ (num_entries p))
    by (unfold num_entries in *; lia).
  cbn [bs_output].
  apply write_file_table_frame; try lia.
Qed.

Lemma write_header_checksum_zero (p : BigCachePacker) (out : mem) :
  88 <= Z.of_nat (length out) ->
  mem_read (write_header p out) 48 4 = zeros 4.
Proof.
  intros Hlen. unfold write_header, write_u32, write_u64. cbv zeta.
  field_offsets. peel_writes.
  rewrite mem_read_write_inside by mem_side.
  apply mem_read_zeros; lia.
Qed.

(** The header of a built bundle. *)
Lemma packer_build_header (env : BuildEnv) (p : BigCachePacker)
    (out_path : list Z) (b : mem) :
  packer_in_range p ->
  build_output (packer_build env (Some p) (Some out_path)) = Some b ->
  read_header b =
  {| h_magic := BIGCACHE_MAGIC;
     h_version := BIGCACHE_VERSION;
     h_num_pages := num_entries p;
     h_num_files := num_files p;
     h_data_offset := data_offset p;
     h_index_offset := index_offset p;
     h_file_table_offset := file_table_offset p;
     h_total_size := total_size p;
     h_checksum :=
       bigcache_crc32 (mem_from (bs_output (after_pages env p)) 8);
     h_flags := 0;
     h_reserved := zeros 32 |}.
Proof.
  intros Hr Hout.
  destruct (packer_build_output env p out_path b Hout) as (Hne & -> & _).
  destruct (packer_layout p Hr) as (Hio & Hfto & Hdo & Hdo' & _ & Htot & Hlt).
  destruct Hr as [Hn Hf].
  assert (Hn0 : 0 <= num_entries p) by (unfold num_entries; lia).
  assert (Hf0 : 0 <= num_files p) by (unfold num_files; lia).
  pose proof (length_after_pages env p (conj Hn Hf)) as Hlen.
  assert (Hz : 88 <= Z.of_nat (length (zeros (total_size p))))
    by (rewrite length_zeros; lia).
  pose proof (write_header_fields p (zeros (total_size p)) Hz) as Hh.
  set (out := bs_output (after_pages env p)) in *.
  assert (Hcrc : mem_read out (4 * 2) (size_t (total_size p - 4 * 2))
                 = mem_from out 8).
  { unfold mem_read, mem_from. rewrite size_t_small by lia.
    change (Z.to_nat (4 * 2)) with 8%nat.
    apply take_ge. rewrite length_drop. lia. }
  unfold write_checksum. rewrite Hcrc.
  pose proof (bigcache_crc32_range (mem_from out 8)) as Hrange.
  set (crc := bigcache_crc32 (mem_from out 8)) in *.
  set (b := write_u32 out (field_off BigCacheHeader 0 "checksum"%string) crc).
  assert (Hfield : forall a n, 0 <= a -> 0 <= n -> a + n <= 88 ->
            a + n <= 48 \/ 52 <= a ->
            mem_read b a n
            = mem_read (write_header p (zeros (total_size p))) a n).
  { intros a n Ha Hn' Hb Hdis. subst b. unfold write_u32. field_offsets.
    rewrite mem_read_write_other by mem_side.
    apply (after_pages_header env p a n (conj Hn Hf)); assumption. }
  assert (Hck : read_u32 b 48 = crc).
  { subst b. unfold read_u32, write_u32. field_offsets.
    change 4 with (Z.of_nat (length (le_bytes 4 crc))) at 1.
    rewrite mem_read_write_same by mem_side.
    rewrite le_value_le_bytes. change (256 ^ Z.of_nat 4) with (2 ^ 32).
    unfold u32, wrap. rewrite Z.mod_mod by lia. apply Z.mod_small.
    exact Hrange. }
  set (h1 := read_header (write_header p (zeros (total_size p)))) in *.
  assert (Heq : read_header b =
            {| h_magic := h_magic h1; h_version := h_version h1;
               h_num_pages := h_num_pages h1; h_num_files := h_num_files h1;
               h_data_offset := h_data_offset h1;
               h_index_offset := h_index_offset h1;
               h_file_table_offset := h_file_table_offset h1;
               h_total_size := h_total_size h1;
               h_checksum := crc;
               h_flags := h_flags h1; h_reserved := h_reserved h1 |}).
  { subst h1. unfold read_header. cbv zeta.
    cbn [h_magic h_version h_num_pages h_num_files h_data_offset
         h_index_offset h_file_table_offset h_total_size h_flags h_reserved].
    unfold read_u32 in *. unfold read_u64.
    field_offsets. rewrite !Z.add_0_l.
    rewrite Hck. rewrite !Hfield by lia. reflexivity. }
  rewrite Heq, Hh.
  cbn [h_magic h_version h_num_pages h_num_files h_data_offset
       h_index_offset h_file_table_offset h_total_size h_flags h_reserved].
  rewrite !u32_small, !u64_small by lia. reflexivity.
Qed.

(** Zeroing the checksum field of a built bundle gives back the mapping as
    it was when the checksum was computed. *)
Lemma build_output_zeroed (env : BuildEnv) (p : BigCachePacker)
    (out_path : list Z) (b : mem) :
  packer_in_range p ->
  build_output (packer_build env (Some p) (Some out_path)) = Some b ->
  mem_write b (field_off BigCacheHeader 0 "checksum"%string) (zeros 4)
  = bs_output (after_pages env p).
Proof.
  intros Hr Hout.
  destruct (packer_build_output env p out_path b Hout) as (Hne & -> & _).
  destruct (packer_layout p Hr) as (Hio & Hfto & Hdo & Hdo' & _ & Htot & Hlt).
  assert (Hn0 : 0 <= num_entries p) by (unfold num_entries; lia).
  assert (Hf0 : 0 <= num_files p) by (unfold num_files; lia).
  pose proof (length_after_pages env p Hr) as Hlen.
  set (out := bs_output (after_pages env p)) in *.
  unfold write_checksum, write_u32. field_offsets. rewrite Z.add_0_l.
  rewrite mem_write_write by (rewrite ?length_le_bytes; solve [lia | reflexivity]).
  assert (Hzero : mem_read out 48 4 = zeros 4).
  { subst out. rewrite after_pages_header by (assumption || lia).
    apply write_header_checksum_zero. rewrite length_zeros. lia. }
  rewrite <- Hzero. apply mem_write_read_back; lia.
Qed.

(** The checksum field, in terms of the function the code calls. *)
Lemma packer_build_checksum_code (env : BuildEnv) (p : BigCachePacker)
    (out_path : list Z) (b : mem) :
  packer_in_range p ->
  build_output (packer_build env (Some p) (Some out_path)) = Some b ->
  h_checksum (read_header b) =
  bigcache_crc32
    (mem_from
       (mem_write b (field_off BigCacheHeader 0 "checksum"%string) (zeros 4))
       (4 * 2)).
Proof.
  intros Hr Hout.
  rewrite (build_output_zeroed env p out_path b Hr Hout).
  rewrite (packer_build_header env p out_path b Hr Hout). reflexivity.
Qed.

(** C3 (as the code has it).  The checksum field of a built bundle is the
    CRC-32 ([crc32_ieee]: polynomial 0xEDB88320, initial value 0xFFFFFFFF,
    final xor 0xFFFFFFFF) of the bundle from byte 8, the first byte after [magic] and
    [version], to its end, taken while the checksum field itself, bytes 48
    to 51, still holds zeros. *)
Theorem packer_build_checksum (env : BuildEnv) (p : BigCachePacker)
    (out_path : list Z) (b : mem) :
  packer_in_range p ->
  build_output (packer_build env (Some p) (Some out_path)) = Some b ->
  h_checksum (read_header b) =
  crc32_ieee
    (mem_from
       (mem_write b (field_off BigCacheHeader 0 "checksum"%string) (zeros 4))
       (4 * 2)).
Proof.
  intros Hr Hout.
  rewrite (packer_build_checksum_code env p out_path b Hr Hout).
  apply bigcache_crc32_reference.
Qed.

Lemma sample_packer_in_range : packer_in_range sample_packer.
Proof. split; vm_compute; reflexivity. Qed.

Lemma sample_build_output :
  build_output (packer_build sample_env (Some sample_packer) (Some out_bin))
  = Some sample_bundle.
Proof. vm_compute. reflexivity. Qed.

(** The checksum of the sample bundle. *)
Lemma packer_build_checksum_witness :
  h_checksum (read_header sample_bundle) =
  crc32_ieee
    (mem_from
       (mem_write sample_bundle
          (field_off BigCacheHeader 0 "checksum"%string) (zeros 4))
       (4 * 2)).
Proof.
  apply (packer_build_checksum sample_env sample_packer out_bin sample_bundle).
  - split; vm_compute; reflexivity.
  - vm_compute. reflexivity.
Defined.

(** C3 as stated fails: on the sample bundle the checksum field differs
    from the CRC-32 of the bytes that follow it (from byte 52 to the end). *)
Lemma checksum_is_not_of_bytes_after_field :
  field_off BigCacheHeader 0 "checksum"%string + 4 = 52 /\
  h_checksum (read_header sample_bundle)
  <> crc32_ieee (mem_from sample_bundle 52).
Proof.
  split; [reflexivity|].
  rewrite <- (bigcache_crc32_reference (mem_from sample_bundle 52)).
  vm_compute. discriminate.
Qed.

(* ================================================================== *)
(** * The index region *)

(** C5 (as the code has it).  A page record is 20 bytes (4 + 8 + 4 + 2 + 2,
    packed).  In a bundle built from [num_pages] entries the header counts
    them, the index region starts right after the 88-byte header and the
    file table starts [20 * num_pages] bytes after the start of the index
    region. *)
Theorem packer_build_index_region (env : BuildEnv) (p : BigCachePacker)
    (out_path : list Z) (b : mem) :
  packer_in_range p ->
  build_output (packer_build env (Some p) (Some out_path)) = Some b ->
  sizeof BigCachePageIndex = 20 /\
  h_num_pages (read_header b) = num_entries p /\
  h_index_offset (read_header b) = sizeof BigCacheHeader /\
  h_file_table_offset (read_header b)
  = h_index_offset (read_header b)
    + h_num_pages (read_header b) * sizeof BigCachePageIndex.
Proof.
  intros Hr Hout.
  rewrite (packer_build_header env p out_path b Hr Hout).
  cbn [h_num_pages h_index_offset h_file_table_offset].
  destruct (packer_layout p Hr) as (Hio & Hfto & _).
  rewrite Hfto, Hio. change (sizeof BigCachePageIndex) with 20.
  change (sizeof BigCacheHeader) with 88. repeat split; lia.
Qed.

(** The index region of the sample bundle. *)
Lemma packer_build_index_region_witness :
  sizeof BigCachePageIndex = 20 /\
  h_num_pages (read_header sample_bundle) = num_entries sample_packer /\
  h_index_offset (read_header sample_bundle) = sizeof BigCacheHeader /\
  h_file_table_offset (read_header sample_bundle)
  = h_index_offset (read_header sample_bundle)
    + h_num_pages (read_header sample_bundle) * sizeof BigCachePageIndex.
Proof.
  apply (packer_build_index_region sample_env sample_packer out_bin
           sample_bundle).
  - split; vm_compute; reflexivity.
  - vm_compute. reflexivity.
Defined.

(** C5 as stated fails: a page record is not 26 bytes, and in the sample
    bundle (three records) the file table starts 60 bytes after the index
    region, not 78. *)
Lemma index_region_is_not_26_per_record :
  sizeof BigCachePageIndex <> 26 /\
  h_num_pages (read_header sample_bundle) = 3 /\
  h_file_table_offset (read_header sample_bundle)
    - h_index_offset (read_header sample_bundle) = 60 /\
  h_file_table_offset (read_header sample_bundle)
    - h_index_offset (read_header sample_bundle)
  <> 26 * h_num_pages (read_header sample_bundle).
Proof.
  repeat split; vm_compute; try reflexivity; discriminate.
Qed.

(* ================================================================== *)
(** * The index records *)

(** Once the turn of entry [pe] at index [i] is over, its index record
    holds the entry's offset and access order. *)
Lemma build_page_index_record (env : BuildEnv) (p : BigCachePacker) (i : Z)
    (pe : PackerPageEntry) (st : BuildState) (n_total : Z) :
  0 <= index_offset p -> 0 <= i < n_total ->
  index_offset p + n_total * 20 <= data_offset p ->
  data_offset p <= Z.of_nat (length (bs_output st)) ->
  mem_read (bs_output (build_page env p i pe st))
    (index_offset p + i * 20 + 4) 8 = le_bytes 8 (pe_offset pe) /\
  mem_read (bs_output (build_page env p i pe st))
    (index_offset p + i * 20 + 12) 4 = le_bytes 4 (pe_access_order pe).
Proof.
  intros Hio Hi Hlay Hlen. rewrite build_page_unfold. cbn [bs_output].
  rewrite !write_page_data_frame by (unfold PAGE_SIZE; lia).
  unfold write_page_index, write_u16, write_u32, write_u64. cbv zeta.
  field_offsets. split.
  - peel_writes.
    change 8 with (Z.of_nat (length (le_bytes 8 (pe_offset pe)))) at 1.
    apply mem_read_write_same; mem_side.
  - peel_writes.
    change 4 with (Z.of_nat (length (le_bytes 4 (pe_access_order pe)))) at 2.
    apply mem_read_write_same; mem_side.
Qed.

Lemma build_pages_index_record (env : BuildEnv) (p : BigCachePacker)
    (es : list PackerPageEntry) (i : Z) (st : BuildState)
    (n_total : Z) (k : nat) (pe : PackerPageEntry) :
  es !! k = Some pe ->
  0 <= i ->
  i + Z.of_nat (length es) <= n_total ->
  0 <= index_offset p ->
  index_offset p + n_total * 20 <= data_offset p ->
  data_offset p <= Z.of_nat (length (bs_output st)) ->
  mem_read (bs_output (build_pages env p es i st))
    (index_offset p + (i + Z.of_nat k) * 20 + 4) 8
    = le_bytes 8 (pe_offset pe) /\
  mem_read (bs_output (build_pages env p es i st))
    (index_offset p + (i + Z.of_nat k) * 20 + 12) 4
    = le_bytes 4 (pe_access_order pe).
Proof.
  revert i st k. induction es as [|e rest IH];
    intros i st k Hk Hi Hcount Hio Hlay Hlen; [discriminate|].
  cbn [build_pages]. cbn [length] in Hcount.
  destruct k as [|k].
  - cbn in Hk. inversion Hk; subst e. rewrite Z.add_0_r.
    rewrite !(build_pages_frame env p rest (i + 1) _ n_total)
      by (unfold PAGE_SIZE in *; lia).
    apply (build_page_index_record env p i pe st n_total); lia.
  - cbn in Hk.
    replace (i + Z.of_nat (S k)) with (i + 1 + Z.of_nat k) by lia.
    apply (IH (i + 1) _ k Hk); try lia.
    rewrite length_build_page. exact Hlen.
Qed.

(** The index record of entry [i] in a built bundle. *)
Lemma packer_build_index_record (env : BuildEnv) (p : BigCachePacker)
    (out_path : list Z) (b : mem) (i : nat) (pe : PackerPageEntry) :
  packer_in_range p ->
  build_output (packer_build env (Some p) (Some out_path)) = Some b ->
  entries p !! i = Some pe ->
  record_source_offset b (read_header b) (Z.of_nat i) = u64 (pe_offset pe) /\
  record_access_order b (read_header b) (Z.of_nat i)
    = u32 (pe_access_order pe).
Proof.
  intros Hr Hout Hi.
  unfold record_source_offset, record_access_order, page_record_at.
  rewrite (packer_build_header env p out_path b Hr Hout).
  cbn [h_index_offset].
  destruct (packer_build_output env p out_path b Hout) as (Hne & -> & _).
  destruct (packer_layout p Hr) as (Hio & Hfto & Hdo & Hdo' & _ & Htot & Hlt).
  assert (Hn0 : 0 <= num_entries p) by (unfold num_entries; lia).
  assert (Hf0 : 0 <= num_files p) by (unfold num_files; lia).
  pose proof (lookup_lt_Some _ _ _ Hi) as Hlt_i.
  assert (Hi' : Z.of_nat i < num_entries p) by (unfold num_entries; lia).
  destruct (build_pages_index_record env p (entries p) 0 (before_pages p)
              (num_entries p) i pe Hi) as [Hso Hao];
    try lia; try (unfold num_entries; lia).
  { unfold before_pages. cbn [bs_output].
    rewrite length_write_file_table, length_write_header, length_zeros.
    lia. }
  rewrite Z.add_0_l in Hso, Hao. fold (after_pages env p) in Hso, Hao.
  unfold read_u64, read_u32, write_checksum, write_u32. field_offsets.
  rewrite !mem_read_write_other by (rewrite ?length_le_bytes; lia).
  rewrite Hso, Hao, !le_value_le_bytes.
  unfold u64, u32, wrap.
  change (256 ^ Z.of_nat 8) with (2 ^ 64).
  change (256 ^ Z.of_nat 4) with (2 ^ 32).
  rewrite !Z.mod_mod by lia. split; reflexivity.
Qed.

(* ================================================================== *)
(** * The data region *)

(** The 4 KiB a built bundle holds for entry [i]. *)
Lemma packer_build_page_image (env : BuildEnv) (p : BigCachePacker)
    (out_path : list Z) (b : mem) (i : nat) (pe : PackerPageEntry) :
  packer_in_range p ->
  build_output (packer_build env (Some p) (Some out_path)) = Some b ->
  entries p !! i = Some pe ->
  mem_read b (h_data_offset (read_header b) + Z.of_nat i * PAGE_SIZE)
    PAGE_SIZE
  = page_image (source_fs env) pe.
Proof.
  intros Hr Hout Hi.
  rewrite (packer_build_header env p out_path b Hr Hout).
  cbn [h_data_offset].
  destruct (packer_build_output env p out_path b Hout) as (Hne & -> & _).
  destruct (packer_layout p Hr) as (Hio & Hfto & Hdo & Hdo' & _ & Htot & Hlt).
  assert (Hn0 : 0 <= num_entries p) by (unfold num_entries; lia).
  assert (Hf0 : 0 <= num_files p) by (unfold num_files; lia).
  pose proof (lookup_lt_Some _ _ _ Hi) as Hlt_i.
  unfold write_checksum, write_u32. field_offsets.
  rewrite mem_read_write_other
    by (rewrite ?length_le_bytes; unfold PAGE_SIZE; lia).
  unfold after_pages.
  rewrite <- (Z.add_0_l (Z.of_nat i)).
  apply (build_pages_image env p (entries p) 0 (before_pages p)
           (num_entries p) i pe Hi); try lia; try (unfold num_entries; lia).
  unfold before_pages. cbn [bs_output].
  rewrite length_write_file_table, length_write_header, length_zeros.
  unfold PAGE_SIZE. lia.
Qed.

Lemma count_if_negb (f : PackerPageEntry -> bool)
    (es : list PackerPageEntry) :
  count_if f es + count_if (fun e => negb (f e)) es = Z.of_nat (length es).
Proof.
  induction es as [|e es IH]; [reflexivity|].
  rewrite !count_if_cons. cbn [length]. destruct (f e); cbn [negb]; lia.
Qed.

Lemma count_if_le (f g : PackerPageEntry -> bool)
    (es : list PackerPageEntry) :
  (forall e, f e = true -> g e = true) -> count_if f es <= count_if g es.
Proof.
  intros Hfg. induction es as [|e es IH]; [reflexivity|].
  rewrite !count_if_cons. specialize (Hfg e).
  destruct (f e); [rewrite (Hfg eq_refl); lia|destruct (g e); lia].
Qed.

Lemma snprintf_then_zeros (text : list Z) (n : Z) :
  Z.of_nat (length text) < n ->
  (text ++ [0]) ++ zeros (n - Z.of_nat (length (text ++ [0])))
  = text ++ zeros (n - Z.of_nat (length text)).
Proof.
  intros Hn. rewrite <- app_assoc. f_equal. rewrite length_app. cbn [length].
  unfold zeros.
  replace (Z.to_nat (n - Z.of_nat (length text)))
    with (S (Z.to_nat (n - Z.of_nat (length text + 1)))) by lia.
  reflexivity.
Qed.

(** C1 (as the code has it).  In a bundle produced by [packer_build], page
    record [i] carries the offset of entry [i], and the 4 KiB at
    [data_offset + i * 4096] are:
    - the 4 KiB read from the origin file at the entry's offset, when
      [pread] transfers a full page;
    - zeros throughout, when the read fails;
    - the text [SIMULATED PAGE], [File: <path>], [Offset: <offset>],
      [Order: <order>], each followed by a newline, cut at 255 characters
      and followed by zeros, when the origin file cannot be opened.
    The builder counts at least the pages read in full as successful and
    at least the pages whose file cannot be opened or read as simulated,
    and every page as one or the other.  What the page holds after a short
    read, and how it is counted, is not part of the statement. *)
Theorem packer_build_page_content (env : BuildEnv) (p : BigCachePacker)
    (out_path : list Z) (b : mem) (i : nat) (pe : PackerPageEntry) :
  packer_in_range p ->
  build_output (packer_build env (Some p) (Some out_path)) = Some b ->
  entries p !! i = Some pe ->
  let page :=
    mem_read b (h_data_offset (read_header b) + Z.of_nat i * 4096) 4096 in
  let opened := source_fs env (cstr (pe_file_path pe)) in
  let r := packer_build env (Some p) (Some out_path) in
  record_source_offset b (read_header b) (Z.of_nat i) = u64 (pe_offset pe) /\
  (forall file bytes,
     opened = Some file ->
     pread file 4096 (pe_offset pe) = PreadData bytes ->
     Z.of_nat (length bytes) = 4096 ->
     page = bytes) /\
  (forall file,
     opened = Some file ->
     pread file 4096 (pe_offset pe) = PreadError ->
     page = zeros 4096) /\
  (opened = None ->
   let text :=
     take 255
       (bytes_of_string "SIMULATED PAGE" ++ [10] ++
        bytes_of_string "File: " ++ cstr (pe_file_path pe) ++ [10] ++
        bytes_of_string "Offset: " ++ decimal (pe_offset pe) ++ [10] ++
        bytes_of_string "Order: " ++ decimal (pe_access_order pe) ++ [10]) in
   page = text ++ zeros (4096 - Z.of_nat (length text))) /\
  count_if (page_read_ok (source_fs env)) (entries p) <= build_successful r /\
  count_if (page_unreadable (source_fs env)) (entries p)
    <= build_simulated r /\
  build_successful r + build_simulated r = num_entries p.
Proof.
  intros Hr Hout Hi page opened r.
  pose proof (packer_build_page_image env p out_path b i pe Hr Hout Hi)
    as Himg.
  change (mem_read b (h_data_offset (read_header b) + Z.of_nat i * PAGE_SIZE)
            PAGE_SIZE) with page in Himg.
  unfold page_image in Himg. fold opened in Himg.
  change PAGE_SIZE with 4096 in Himg.
  assert (Hcounts :
            build_successful r
              = count_if (page_read_ok (source_fs env)) (entries p) /\
            build_simulated r
              = count_if (fun e => negb (page_read_ok (source_fs env) e))
                  (entries p)).
  { subst r.
    destruct (packer_build_output env p out_path b Hout) as (_ & _ & ->).
    cbn [build_successful build_simulated]. unfold after_pages.
    destruct (build_pages_counts env p (entries p) 0 (before_pages p))
      as [Hs Hf].
    rewrite Hs, Hf. split; reflexivity. }
  destruct Hcounts as [Hs Hf].
  split; [|split; [|split; [|split; [|split; [|split]]]]].
  - apply (packer_build_index_record env p out_path b i pe Hr Hout Hi).
  - intros file bytes Ho Hread Hlen. rewrite Ho, Hread in Himg.
    rewrite (proj2 (Z.eqb_eq _ _) Hlen) in Himg. exact Himg.
  - intros file Ho Hread. rewrite Ho, Hread in Himg. exact Himg.
  - intros Ho text. rewrite Ho in Himg. rewrite Himg.
    unfold snprintf. change (Z.to_nat (256 - 1)) with 255%nat.
    apply snprintf_then_zeros.
    unfold simulated_text. fold text.
    assert (length text <= 255)%nat by (subst text; rewrite length_take; lia).
    lia.
  - rewrite Hs. lia.
  - rewrite Hf. apply count_if_le. intros e He.
    unfold page_unreadable in He. unfold page_read_ok.
    destruct (source_fs env (cstr (pe_file_path e))) as [file|];
      [|reflexivity].
    destruct (pread file PAGE_SIZE (pe_offset e)); [reflexivity|].
    discriminate.
  - rewrite Hs, Hf. apply count_if_negb.
Qed.

(** The first page of the sample bundle: the file is read in full. *)
Lemma packer_build_page_content_witness :
  mem_read sample_bundle
    (h_data_offset (read_header sample_bundle) + Z.of_nat 0 * 4096) 4096
  = repeat 170 4096.
Proof.
  apply (proj1 (proj2 (packer_build_page_content sample_env sample_packer
                         out_bin sample_bundle 0 (sample_entry 0)
                         sample_packer_in_range sample_build_output eq_refl))
           sample_file (repeat 170 4096)).
  - vm_compute. reflexivity.
  - vm_compute. reflexivity.
  - vm_compute. reflexivity.
Defined.

(** C1 as stated fails twice on the sample bundle.  For the second entry
    the read is short: 904 bytes of value 170 are read, and the page in the
    bundle is zeros from its first byte, not those bytes followed by zeros.
    For the third entry the file cannot be opened, and the page is not all
    zeros: it starts with the text ["SIMULATED PAGE"]. *)
Lemma short_read_and_missing_file_pages :
  sample_fs (cstr (pe_file_path (sample_entry 1))) = Some sample_file /\
  pread sample_file 4096 (pe_offset (sample_entry 1))
    = PreadData (repeat 170 904) /\
  mem_read sample_bundle
    (h_data_offset (read_header sample_bundle) + 1 * 4096) 4096
    = zeros 4096 /\
  mem_read sample_bundle
    (h_data_offset (read_header sample_bundle) + 1 * 4096) 4096
    <> repeat 170 904 ++ zeros (4096 - 904) /\
  sample_fs (cstr (pe_file_path (sample_entry 2))) = None /\
  mem_read sample_bundle
    (h_data_offset (read_header sample_bundle) + 2 * 4096) 14
    = bytes_of_string "SIMULATED PAGE" /\
  mem_read sample_bundle
    (h_data_offset (read_header sample_bundle) + 2 * 4096) 4096
    <> zeros 4096.
Proof.
  repeat split; vm_compute; try reflexivity; discriminate.
Qed.

(* ================================================================== *)
(** * The verifier *)

(** [bigcache_verify] looks at three things only: whether the context is
    loaded, the magic of the header copy, and the two sizes. *)
Lemma bigcache_verify_depends_on (c c' : BigCacheContext) :
  is_loaded c = is_loaded c' ->
  h_magic (header c) = h_magic (header c') ->
  h_total_size (header c) = h_total_size (header c') ->
  mapped_size c = mapped_size c' ->
  bigcache_verify (Some c) = bigcache_verify (Some c').
Proof.
  intros Hl Hm Ht Hs. unfold bigcache_verify.
  rewrite Hl, Hm, Ht, Hs. reflexivity.
Qed.

Lemma fill_lookup_table_succeeds (env : LoadEnv) (m : mem) (h : Header)
    (n : nat) (i : Z) (t : PageLookupTable) :
  (forall k, entry_alloc_ok env k = true) ->
  exists t', fill_lookup_table env m h n i t = (0, t').
Proof.
  intros Hok. revert i t. induction n as [|n IH]; intros i t.
  - exists t. reflexivity.
  - cbn [fill_lookup_table]. unfold lookup_table_insert.
    rewrite Hok. cbn [negb]. change (0 <? 0) with false. cbv iota.
    apply IH.
Qed.

(** A bundle that [packer_build] wrote loads, when memory is not short, and
    [bigcache_verify] then returns 0. *)
Lemma bigcache_verify_built_bundle (benv : BuildEnv) (p : BigCachePacker)
    (out_path path : list Z) (b : mem) (env : LoadEnv)
    (c : BigCacheContext) (new_fd addr : Z) :
  packer_in_range p ->
  build_output (packer_build benv (Some p) (Some out_path)) = Some b ->
  load_file env = LoadMapped new_fd addr b ->
  table_alloc_ok env = true ->
  (forall k, entry_alloc_ok env k = true) ->
  exists c',
    bigcache_load env (Some c) (Some path) = (0, Some c') /\
    bigcache_verify (Some c') = 0.
Proof.
  intros Hr Hout Hfile Htab Hent.
  pose proof (packer_build_header benv p out_path b Hr Hout) as Hh.
  destruct (packer_build_output benv p out_path b Hout) as (_ & Hb & _).
  pose proof (length_after_pages benv p Hr) as Hlen.
  assert (Hsize : Z.of_nat (length b) = total_size p).
  { rewrite Hb. unfold write_checksum, write_u32.
    rewrite length_mem_write. exact Hlen. }
  unfold bigcache_load. rewrite Hfile. cbv zeta.
  cbn [header set_fd set_mapping set_header set_pointers set_lookup_table].
  rewrite Hh. cbn [h_magic h_version h_num_pages h_index_offset
                   h_file_table_offset].
  rewrite !Z.eqb_refl. cbn [negb].
  unfold create_lookup_table at 1 2. rewrite Htab. cbn [negb].
  match goal with
  | |- context [fill_lookup_table env b ?h ?n 0 ?t] =>
      destruct (fill_lookup_table_succeeds env b h n 0 t Hent) as (t' & Hfill);
      rewrite Hfill
  end.
  change (0 <? 0) with false. cbv iota.
  eexists. split; [reflexivity|].
  unfold bigcache_verify.
  cbn [is_loaded set_is_loaded header set_lookup_table set_pointers
       set_header mapped_size set_mapping set_fd h_magic h_total_size].
  rewrite Hsize, !Z.eqb_refl. reflexivity.
Qed.

(** C2, the code at a corrupted bundle.  The sample bundle with its last
    byte changed from 0 to 255 loads, and [bigcache_verify] returns 0 on it
    as it does on the bundle itself, although the checksum in the header
    is no longer the checksum [packer_build] computes for that content. *)
Theorem bigcache_verify_accepts_corrupted_bundle :
  mem_read sample_bundle 16383 1 = [0] /\
  corrupted_bundle = mem_write sample_bundle 16383 [255] /\
  fst (load_bundle sample_bundle) = 0 /\
  bigcache_verify (snd (load_bundle sample_bundle)) = 0 /\
  fst (load_bundle corrupted_bundle) = 0 /\
  bigcache_verify (snd (load_bundle corrupted_bundle)) = 0 /\
  h_checksum (read_header corrupted_bundle)
  <> bigcache_crc32
       (mem_from
          (mem_write corrupted_bundle
             (field_off BigCacheHeader 0 "checksum"%string) (zeros 4))
          (4 * 2)).
Proof.
  repeat split; vm_compute; try reflexivity; discriminate.
Qed.

(* ================================================================== *)
(** * What [packer_add_page] keeps *)

Lemma find_file_ext (paths : list (list Z)) (a b : list Z) (i : Z) :
  cstr a = cstr b -> find_file paths a i = find_file paths b i.
Proof.
  intros Hab. revert i. induction paths as [|q rest IH]; intros i;
    [reflexivity|].
  cbn [find_file].
  assert (Heq : (strcmp q a =? 0) = (strcmp q b =? 0)).
  { destruct (Z.eqb_spec (strcmp q a) 0) as [H|H];
      destruct (Z.eqb_spec (strcmp q b) 0) as [H'|H']; try reflexivity.
    - exfalso. apply H'. apply strcmp_eq. apply strcmp_eq in H. congruence.
    - exfalso. apply H. apply strcmp_eq. apply strcmp_eq in H'. congruence. }
  rewrite Heq, IH. reflexivity.
Qed.

Lemma find_file_spec (paths : list (list Z)) (path : list Z) (i j : Z) :
  find_file paths path i = Some j ->
  exists (k : nat) (q : list Z),
    j = i + Z.of_nat k /\ paths !! k = Some q /\ strcmp q path = 0.
Proof.
  revert i. induction paths as [|q rest IH]; intros i H; [discriminate|].
  cbn [find_file] in H. destruct (Z.eqb_spec (strcmp q path) 0) as [Hq|Hq].
  - inversion H; subst. exists 0%nat, q. repeat split; [lia|assumption].
  - destruct (IH _ H) as (k & q' & -> & Hk & Hs).
    exists (S k), q'. repeat split; [lia|assumption|assumption].
Qed.

Lemma find_file_app (paths : list (list Z)) (x path : list Z) (i : Z) :
  find_file paths path i <> None ->
  find_file (paths ++ [x]) path i = find_file paths path i.
Proof.
  revert i. induction paths as [|q rest IH]; intros i H; [contradiction|].
  cbn [find_file app] in *. destruct (strcmp q path =? 0); [reflexivity|].
  apply IH. exact H.
Qed.

Lemma find_file_app_last (paths : list (list Z)) (x path : list Z) (i : Z) :
  strcmp x path = 0 -> find_file (paths ++ [x]) path i <> None.
Proof.
  intros Hx. revert i. induction paths as [|q rest IH]; intros i.
  - cbn [find_file app]. rewrite Hx. discriminate.
  - cbn [find_file app]. destruct (strcmp q path =? 0); [discriminate|].
    apply IH.
Qed.

Lemma page_exists_loop_zero (es : list PackerPageEntry) (path : list Z)
    (po : Z) (e : PackerPageEntry) :
  page_exists_loop es path po = 0 -> In e es ->
  pe_offset e = po -> strcmp (pe_file_path e) path = 0 -> False.
Proof.
  induction es as [|a es IH]; intros Hz Hin Ho Hs; [destruct Hin|].
  cbn [page_exists_loop] in Hz.
  destruct ((pe_offset a =? po) && (strcmp (pe_file_path a) path =? 0))
    eqn:Ha; [discriminate|].
  destruct Hin as [->|Hin]; [|exact (IH Hz Hin Ho Hs)].
  rewrite Ho, Hs, !Z.eqb_refl in Ha. discriminate.
Qed.

Lemma strlen_stored_path (path : list Z) :
  strlen (strncpy path (MAX_PATH_LEN - 1) ++ [0]) < MAX_PATH_LEN.
Proof.
  unfold strlen. rewrite cstr_stored_path, length_take.
  unfold MAX_PATH_LEN. lia.
Qed.

Lemma cstr_stored_short (path : list Z) :
  strlen path < MAX_PATH_LEN ->
  cstr (strncpy path (MAX_PATH_LEN - 1) ++ [0]) = cstr path.
Proof.
  intros H. apply strcmp_eq. apply strcmp_stored_path. exact H.
Qed.

Lemma packer_create_wf : packer_wf packer_create.
Proof.
  repeat split.
  - constructor.
  - intros i j e e' Hi. discriminate.
  - unfold num_files, MAX_FILES. simpl. lia.
Qed.

Lemma entry_wf_file_paths (p p' : BigCachePacker) (e : PackerPageEntry) :
  (forall q, find_file (file_paths p) q 0 <> None ->
             find_file (file_paths p') q 0 <> None) ->
  entry_wf p e -> entry_wf p' e.
Proof.
  intros Hsub (Ha & Hs & Hl & Hf). repeat split; auto.
Qed.

(** [packer_add_page] keeps the packer well formed. *)
Lemma packer_add_page_wf (env : AllocEnv) (p p' : BigCachePacker)
    (path : list Z) (offset order : Z) :
  packer_wf p ->
  strlen path < MAX_PATH_LEN ->
  packer_add_page env (Some p) (Some path) offset order = (0, Some p') ->
  packer_wf p'.
Proof.
  intros (Hall & Huniq & Hfiles) Hlen Hadd.
  unfold packer_add_page in Hadd. cbv zeta in Hadd.
  destruct (Z.eqb_spec (page_exists p path (page_align offset)) 0)
    as [Hnew|Hdup]; cbn [negb] in Hadd.
  2:{ inversion Hadd; subst. repeat split; assumption. }
  destruct ((num_entries p >=? capacity p) && negb (realloc_ok env));
    [inversion Hadd|].
  set (entry := {| pe_file_path := strncpy path (MAX_PATH_LEN - 1) ++ [0];
                   pe_offset := page_align offset;
                   pe_size := PAGE_SIZE;
                   pe_access_order := order |}) in *.
  set (cap := if num_entries p >=? capacity p then size_t (capacity p * 2)
              else capacity p) in *.
  assert (Hstored : cstr (pe_file_path entry) = cstr path)
    by (apply cstr_stored_short; exact Hlen).
  (* uniqueness on the extended list, whatever the file table is *)
  assert (Huniq' : forall i j e e',
             (entries p ++ [entry]) !! i = Some e ->
             (entries p ++ [entry]) !! j = Some e' ->
             pe_offset e = pe_offset e' ->
             strcmp (pe_file_path e) (pe_file_path e') = 0 -> i = j).
  { unfold page_exists in Hnew. rewrite page_align_idempotent in Hnew.
    intros i j e e' Hi Hj Ho Hs.
    apply lookup_app_Some in Hi as [Hi|[Hil Hi]];
      apply lookup_app_Some in Hj as [Hj|[Hjl Hj]].
    - exact (Huniq i j e e' Hi Hj Ho Hs).
    - exfalso. apply list_lookup_singleton_Some in Hj as [_ <-].
      apply (page_exists_loop_zero _ _ _ e Hnew).
      + apply list_elem_of_In. eapply list_elem_of_lookup_2. exact Hi.
      + exact Ho.
      + apply strcmp_eq. apply strcmp_eq in Hs. congruence.
    - exfalso. apply list_lookup_singleton_Some in Hi as [_ <-].
      apply (page_exists_loop_zero _ _ _ e' Hnew).
      + apply list_elem_of_In. eapply list_elem_of_lookup_2. exact Hj.
      + symmetry. exact Ho.
      + apply strcmp_eq. apply strcmp_eq in Hs. congruence.
    - apply list_lookup_singleton_Some in Hi as [Hi _].
      apply list_lookup_singleton_Some in Hj as [Hj _]. lia. }
  assert (Hentry : pe_offset entry = page_align (pe_offset entry) /\
                   pe_size entry = PAGE_SIZE /\
                   strlen (pe_file_path entry) < MAX_PATH_LEN).
  { repeat split.
    - cbn [entry pe_offset]. symmetry. apply page_align_idempotent.
    - apply strlen_stored_path. }
  unfold find_or_add_file in Hadd. cbn [file_paths entries capacity] in Hadd.
  destruct (find_file (file_paths p) path 0) as [id|] eqn:Hfind.
  - destruct (to_int id <? 0); inversion Hadd; subst p'; clear Hadd.
    repeat split; cbn [entries file_paths].
    + apply Forall_app. split.
      * eapply Forall_impl; [exact Hall|]. intros e He.
        apply (entry_wf_file_paths p); [|exact He]. cbn [file_paths]. auto.
      * constructor; [|constructor]. destruct Hentry as (? & ? & ?).
        repeat split; try assumption. cbn [file_paths].
        rewrite (find_file_ext _ _ path) by exact Hstored.
        rewrite Hfind. discriminate.
    + exact Huniq'.
    + exact Hfiles.
  - unfold num_files in Hadd at 1. cbn [file_paths] in Hadd.
    fold (num_files p) in Hadd.
    destruct (Z.geb_spec (num_files p) MAX_FILES) as [Hfull|Hroom];
      [inversion Hadd|].
    destruct (strdup_ok env); cbn [negb] in Hadd; [|inversion Hadd].
    destruct (to_int (num_files {| entries := entries p ++ [entry];
                                   capacity := cap;
                                   file_paths := file_paths p |}) <? 0);
      inversion Hadd; subst p'; clear Hadd.
    repeat split; cbn [entries file_paths].
    + apply Forall_app. split.
      * eapply Forall_impl; [exact Hall|]. intros e He.
        apply (entry_wf_file_paths p); [|exact He]. cbn [file_paths].
        intros q Hq. rewrite find_file_app by exact Hq. exact Hq.
      * constructor; [|constructor]. destruct Hentry as (? & ? & ?).
        repeat split; try assumption. cbn [file_paths].
        apply find_file_app_last. apply strcmp_eq. unfold strdup.
        rewrite cstr_idempotent. congruence.
    + exact Huniq'.
    + unfold num_files in *. cbn [file_paths]. rewrite length_app.
      cbn [length]. lia.
Qed.

Lemma page_exists_loop_01 (es : list PackerPageEntry) (path : list Z)
    (po : Z) :
  page_exists_loop es path po = 0 \/ page_exists_loop es path po = 1.
Proof.
  induction es as [|a es IH]; cbn [page_exists_loop]; [left; reflexivity|].
  destruct ((pe_offset a =? po) && (strcmp (pe_file_path a) path =? 0));
    [right; reflexivity|exact IH].
Qed.

Lemma page_exists_loop_last (es : list PackerPageEntry) (e : PackerPageEntry)
    (path : list Z) (po : Z) :
  pe_offset e = po -> strcmp (pe_file_path e) path = 0 ->
  page_exists_loop (es ++ [e]) path po = 1.
Proof.
  intros Ho Hs. induction es as [|a es IH]; cbn [app page_exists_loop].
  - rewrite Ho, Hs, !Z.eqb_refl. reflexivity.
  - destruct ((pe_offset a =? po) && (strcmp (pe_file_path a) path =? 0));
      [reflexivity|exact IH].
Qed.

Lemma packer_add_page_recorded (env : AllocEnv) (p p' : BigCachePacker)
    (path : list Z) (offset order : Z) :
  strlen path < MAX_PATH_LEN ->
  packer_add_page env (Some p) (Some path) offset order = (0, Some p') ->
  page_exists p' path offset = 1.
Proof.
  intros Hlen Hadd.
  unfold packer_add_page in Hadd. cbv zeta in Hadd.
  destruct (Z.eqb_spec (page_exists p path (page_align offset)) 0)
    as [Hnew|Hdup]; cbn [negb] in Hadd.
  2:{ inversion Hadd; subst. unfold page_exists in *.
      rewrite page_align_idempotent in Hdup.
      destruct (page_exists_loop_01 (entries p') path (page_align offset));
        [contradiction|assumption]. }
  destruct ((num_entries p >=? capacity p) && negb (realloc_ok env));
    [inversion Hadd|].
  set (entry := {| pe_file_path := strncpy path (MAX_PATH_LEN - 1) ++ [0];
                   pe_offset := page_align offset;
                   pe_size := PAGE_SIZE;
                   pe_access_order := order |}) in *.
  assert (Hlast : forall p2, entries p2 = entries p ++ [entry] ->
            page_exists p2 path offset = 1).
  { intros p2 Hp2. unfold page_exists. rewrite Hp2.
    apply page_exists_loop_last; [reflexivity|].
    apply strcmp_stored_path. exact Hlen. }
  unfold find_or_add_file in Hadd. cbn [file_paths entries capacity] in Hadd.
  destruct (find_file (file_paths p) path 0) as [id|].
  - destruct (to_int id <? 0); inversion Hadd; subst p'.
    apply Hlast. reflexivity.
  - match type of Hadd with
    | context [num_files ?q >=? MAX_FILES] =>
        destruct (num_files q >=? MAX_FILES); [inversion Hadd|]
    end.
    destruct (strdup_ok env); cbn [negb] in Hadd; [|inversion Hadd].
    match type of Hadd with
    | context [to_int ?n <? 0] => destruct (to_int n <? 0)
    end; inversion Hadd; subst p'.
    apply Hlast. reflexivity.
Qed.

Lemma sample_packer_wf : packer_wf sample_packer.
Proof.
  pose (p1 := match add_page (Some packer_create) path_a 0 0 with
              | Some p => p | None => packer_create end).
  pose (p2 := match add_page (Some p1) path_a 4100 1 with
              | Some p => p | None => packer_create end).
  assert (Ha1 : packer_add_page alloc_succeeds (Some packer_create)
                  (Some path_a) 0 0 = (0, Some p1))
    by (vm_compute; reflexivity).
  assert (Ha2 : packer_add_page alloc_succeeds (Some p1) (Some path_a)
                  4100 1 = (0, Some p2))
    by (vm_compute; reflexivity).
  assert (Ha3 : packer_add_page alloc_succeeds (Some p2)
                  (Some path_missing) 0 2 = (0, Some sample_packer))
    by (vm_compute; reflexivity).
  apply (packer_add_page_wf alloc_succeeds p2 sample_packer path_missing 0 2);
    [|vm_compute; reflexivity|exact Ha3].
  apply (packer_add_page_wf alloc_succeeds p1 p2 path_a 4100 1);
    [|vm_compute; reflexivity|exact Ha2].
  apply (packer_add_page_wf alloc_succeeds packer_create p1 path_a 0 0);
    [|vm_compute; reflexivity|exact Ha1].
  apply packer_create_wf.
Qed.

(** X1.  [packer_add_page] keeps a packer well formed.  When it returns 0
    for a path shorter than 512 characters, the packer it leaves still has
    only page-aligned entries of 4096 bytes whose file is in the file
    table, no two entries for the same page of the same file, and at most
    4096 files; and [page_exists] then finds the page asked for. *)
Theorem packer_add_page_keeps_wf (env : AllocEnv) (p p' : BigCachePacker)
    (path : list Z) (offset order : Z) :
  packer_wf p ->
  strlen path < MAX_PATH_LEN ->
  packer_add_page env (Some p) (Some path) offset order = (0, Some p') ->
  packer_wf p' /\ page_exists p' path offset = 1.
Proof.
  intros Hwf Hlen Hadd. split.
  - exact (packer_add_page_wf env p p' path offset order Hwf Hlen Hadd).
  - exact (packer_add_page_recorded env p p' path offset order Hlen Hadd).
Qed.

(** The third call that filled the sample packer. *)
Lemma packer_add_page_keeps_wf_witness :
  packer_wf sample_packer /\ page_exists sample_packer path_missing 100 = 1.
Proof.
  apply (packer_add_page_keeps_wf alloc_succeeds
           (match add_page (add_page (Some packer_create) path_a 0 0)
                    path_a 4100 1 with
            | Some q => q
            | None => packer_create
            end)
           sample_packer path_missing 100 2).
  - apply (packer_add_page_wf alloc_succeeds
             (match add_page (Some packer_create) path_a 0 0 with
              | Some q => q
              | None => packer_create
              end) _ path_a 4100 1).
    + apply (packer_add_page_wf alloc_succeeds packer_create _ path_a 0 0).
      * exact packer_create_wf.
      * vm_compute. reflexivity.
      * vm_compute. reflexivity.
    + vm_compute. reflexivity.
    + vm_compute. reflexivity.
  - vm_compute. reflexivity.
  - vm_compute. reflexivity.
Defined.

(** X2.  One call of [packer_add_page] removes and reorders nothing: the
    entries after the call are those before it followed by at most one new
    entry, the files those before it followed by at most one new path, and
    a file is only added together with an entry.  A new entry has the
    offset rounded down to a page, the size 4096, the given access order
    and a path field of 512 bytes. *)
Theorem packer_add_page_appends (env : AllocEnv) (p : BigCachePacker)
    (path : option (list Z)) (offset order : Z) :
  exists p' added files,
    snd (packer_add_page env (Some p) path offset order) = Some p' /\
    entries p' = entries p ++ added /\
    file_paths p' = file_paths p ++ files /\
    (length added <= 1)%nat /\ (length files <= length added)%nat /\
    Forall (fun e => pe_offset e = page_align offset /\
                     pe_size e = PAGE_SIZE /\
                     pe_access_order e = order /\
                     length (pe_file_path e) = 512%nat) added.
Proof.
  unfold packer_add_page. destruct path as [path|].
  2:{ exists p, [], []. rewrite !app_nil_r. repeat split; auto; cbn [length]; lia. }
  cbv zeta.
  destruct (negb (page_exists p path (page_align offset) =? 0)).
  { exists p, [], []. rewrite !app_nil_r. repeat split; auto; cbn [length]; lia. }
  destruct ((num_entries p >=? capacity p) && negb (realloc_ok env)).
  { exists p, [], []. rewrite !app_nil_r. repeat split; auto; cbn [length]; lia. }
  set (entry := {| pe_file_path := strncpy path (MAX_PATH_LEN - 1) ++ [0];
                   pe_offset := page_align offset;
                   pe_size := PAGE_SIZE;
                   pe_access_order := order |}).
  assert (Hentry : Forall (fun e => pe_offset e = page_align offset /\
                     pe_size e = PAGE_SIZE /\
                     pe_access_order e = order /\
                     length (pe_file_path e) = 512%nat) [entry]).
  { constructor; [|constructor]. repeat split. cbn [entry pe_file_path].
    rewrite length_app, length_strncpy by (unfold MAX_PATH_LEN; lia).
    reflexivity. }
  unfold find_or_add_file. cbn [file_paths entries capacity].
  destruct (find_file (file_paths p) path 0) as [id|].
  - destruct (to_int id <? 0); cbn [snd]; eexists; exists [entry], [];
      rewrite app_nil_r; (split; [reflexivity|]); cbn [entries file_paths];
      repeat split; auto; cbn [length]; lia.
  - destruct (num_files _ >=? MAX_FILES).
    + change (-1 <? 0) with true. cbv iota. cbn [snd].
      eexists; exists [entry], []. rewrite app_nil_r.
      (split; [reflexivity|]); cbn [entries file_paths]; repeat split; auto; cbn [length]; lia.
    + destruct (strdup_ok env); cbn [negb].
      * match goal with
        | |- context [if ?c then _ else _] => destruct c
        end; cbn [snd]; eexists; exists [entry], [strdup path];
          (split; [reflexivity|]); cbn [entries file_paths];
          repeat split; auto; cbn [length]; lia.
      * change (-1 <? 0) with true. cbv iota. cbn [snd].
        eexists; exists [entry], []. rewrite app_nil_r.
        (split; [reflexivity|]); cbn [entries file_paths];
          repeat split; auto; cbn [length]; lia.
Qed.

(** X3.  When the page is new and its file cannot be registered (the file
    table holds 4096 files already, or [strdup] fails), [packer_add_page]
    returns [-ENOMEM] after the page entry has been appended, with the
    file table unchanged; the same call again finds the page and
    returns 0 without registering the file. *)
Theorem packer_add_page_unregistered (env : AllocEnv) (p : BigCachePacker)
    (path : list Z) (offset order : Z) :
  strlen path < MAX_PATH_LEN ->
  page_exists p path offset = 0 ->
  (num_entries p >=? capacity p) && negb (realloc_ok env) = false ->
  find_file (file_paths p) path 0 = None ->
  MAX_FILES <= num_files p \/ strdup_ok env = false ->
  exists p',
    packer_add_page env (Some p) (Some path) offset order
      = (- ENOMEM, Some p') /\
    num_entries p' = num_entries p + 1 /\
    file_paths p' = file_paths p /\
    page_exists p' path offset = 1 /\
    forall env' order',
      packer_add_page env' (Some p') (Some path) offset order'
        = (0, Some p').
Proof.
  intros Hlen Hnew Hroom Hfind Hfail.
  assert (Hnew' : page_exists p path (page_align offset) = 0).
  { unfold page_exists in *. rewrite page_align_idempotent. exact Hnew. }
  unfold packer_add_page at 1. cbv zeta. rewrite Hnew', Hroom.
  change (negb (0 =? 0)) with false. cbv iota.
  set (entry := {| pe_file_path := strncpy path (MAX_PATH_LEN - 1) ++ [0];
                   pe_offset := page_align offset;
                   pe_size := PAGE_SIZE;
                   pe_access_order := order |}).
  set (cap := if num_entries p >=? capacity p then size_t (capacity p * 2)
              else capacity p).
  set (p1 := {| entries := entries p ++ [entry]; capacity := cap;
                file_paths := file_paths p |}).
  assert (Hfa : find_or_add_file (strdup_ok env) p1 path = (-1, p1)).
  { unfold find_or_add_file.
    change (file_paths p1) with (file_paths p). rewrite Hfind.
    change (num_files p1) with (num_files p).
    destruct (Z.geb_spec (num_files p) MAX_FILES) as [|Hlt];
      [reflexivity|].
    destruct Hfail as [Hfull|Hdup]; [lia|]. rewrite Hdup. reflexivity. }
  rewrite Hfa. change (-1 <? 0) with true. cbv iota.
  assert (Hexists : forall o, page_align o = page_align offset ->
            page_exists p1 path o = 1).
  { intros o Ho. unfold page_exists. rewrite Ho.
    change (entries p1) with (entries p ++ [entry]).
    apply page_exists_loop_last; [reflexivity|].
    apply strcmp_stored_path. exact Hlen. }
  exists p1. split; [reflexivity|]. split.
  { unfold num_entries. change (entries p1) with (entries p ++ [entry]).
    rewrite length_app. cbn [length]. lia. }
  split; [reflexivity|].
  split; [apply Hexists; reflexivity|].
  intros env' order'. unfold packer_add_page.
  rewrite Hexists by apply page_align_idempotent. reflexivity.
Qed.

(** A page of a new file added to a packer whose file table is full. *)
Lemma packer_add_page_unregistered_witness :
  exists p',
    packer_add_page alloc_succeeds (Some full_packer) (Some path_a) 4100 7
      = (- ENOMEM, Some p') /\
    num_entries p' = num_entries full_packer + 1 /\
    file_paths p' = file_paths full_packer /\
    page_exists p' path_a 4100 = 1 /\
    forall env' order',
      packer_add_page env' (Some p') (Some path_a) 4100 order'
        = (0, Some p').
Proof.
  apply (packer_add_page_unregistered alloc_succeeds full_packer path_a
           4100 7).
  - vm_compute. reflexivity.
  - vm_compute. reflexivity.
  - vm_compute. reflexivity.
  - vm_compute. reflexivity.
  - left. vm_compute. discriminate.
Defined.

(* ================================================================== *)
(** * What [packer_build] writes *)

Lemma cstr_app_nul (s r : list Z) : cstr (s ++ 0 :: r) = cstr s.
Proof.
  induction s as [|c s IH]; [reflexivity|].
  cbn [app cstr]. destruct (c =? 0); [reflexivity|]. rewrite IH. reflexivity.
Qed.

Lemma mem_from_read (m : mem) (a n : Z) :
  0 <= a -> 0 <= n ->
  mem_from m a = mem_read m a n ++ mem_from m (a + n).
Proof.
  intros Ha Hn. unfold mem_from, mem_read.
  rewrite Z2Nat.inj_add by lia. rewrite <- drop_drop.
  symmetry. apply take_drop.
Qed.

Lemma mem_read_split (m : mem) (a n1 n2 : Z) :
  0 <= a -> 0 <= n1 -> 0 <= n2 ->
  mem_read m a (n1 + n2) = mem_read m a n1 ++ mem_read m (a + n1) n2.
Proof.
  intros Ha H1 H2. unfold mem_read.
  rewrite !Z2Nat.inj_add by lia. rewrite <- drop_drop.
  rewrite <- take_take_drop. reflexivity.
Qed.

(** A file record is stored below byte 531 of its own slot. *)
Lemma write_file_entry_frame_above (p : BigCachePacker) (out : mem) (i : Z)
    (path : list Z) (a n : Z) :
  0 <= a -> 0 <= n ->
  file_table_offset p + i * sizeof BigCacheFileEntry + 531 <= a ->
  mem_read (write_file_entry p out i path) a n = mem_read out a n.
Proof.
  intros Ha Hn Hb. unfold write_file_entry, write_u32, write_u64. cbv zeta.
  revert Hb. field_offsets. intros Hb.
  repeat (rewrite mem_read_write_other
            by (rewrite ?length_le_bytes, ?length_strncpy
                  by (unfold MAX_PATH_LEN; lia);
                unfold MAX_PATH_LEN; lia)).
  reflexivity.
Qed.

Lemma mem_read_write_exact (m : mem) (off : Z) (bs : list Z) (n : Z) :
  n = Z.of_nat (length bs) ->
  0 <= off -> off + Z.of_nat (length bs) <= Z.of_nat (length m) ->
  mem_read (mem_write m off bs) off n = bs.
Proof. intros ->. apply mem_read_write_same. Qed.

Ltac entry_side :=
  rewrite ?length_mem_write, ?length_le_bytes,
    ?length_strncpy by (unfold MAX_PATH_LEN; lia);
  unfold MAX_PATH_LEN; lia.

Lemma strlen_stored (path : list Z) :
  strlen (strncpy path (MAX_PATH_LEN - 1) ++ [0])
  = Z.min (strlen path) (MAX_PATH_LEN - 1).
Proof.
  unfold strlen. rewrite cstr_stored_path, length_take.
  unfold MAX_PATH_LEN. lia.
Qed.

Lemma write_file_entry_record (p : BigCachePacker) (out : mem) (i : Z)
    (path : list Z) :
  let slot := file_table_offset p + i * sizeof BigCacheFileEntry in
  0 <= slot -> slot + 532 <= Z.of_nat (length out) ->
  mem_read out (slot + 531) 1 = [0] ->
  mem_read (write_file_entry p out i path) slot 532
  = file_record_image p i path.
Proof.
  cbv zeta. change (sizeof BigCacheFileEntry) with 532.
  set (slot := file_table_offset p + i * 532). intros H0 Hlen Hz.
  assert (Hpath : forall m,
            length m = length out ->
            mem_read m (slot + 531) 1 = [0] ->
            mem_read (mem_write m (slot + 20)
                        (strncpy path (MAX_PATH_LEN - 1))) (slot + 20) 512
            = strncpy path (MAX_PATH_LEN - 1) ++ [0]).
  { intros m Hm Hmz.
    rewrite mem_read_write_prefix
      by (rewrite ?length_strncpy by (unfold MAX_PATH_LEN; lia);
          unfold MAX_PATH_LEN; lia).
    rewrite length_strncpy by (unfold MAX_PATH_LEN; lia).
    f_equal. rewrite <- Hmz. f_equal; unfold MAX_PATH_LEN; lia. }
  unfold file_record_image, write_file_entry, write_u32, write_u64.
  cbv zeta. field_offsets. fold slot. rewrite !Z.add_0_r.
  match goal with
  | |- mem_read ?m slot 532 = _ =>
      change (mem_read m slot 532)
        with (mem_read m slot (4 + (4 + (4 + (8 + 512)))))
  end.
  rewrite !mem_read_split by lia.
  replace (slot + 4 + 4) with (slot + 8) by lia.
  replace (slot + 8 + 4) with (slot + 12) by lia.
  replace (slot + 12 + 8) with (slot + 20) by lia.
  f_equal; [|f_equal; [|f_equal; [|f_equal]]].
  - repeat (rewrite mem_read_write_other by entry_side).
    apply mem_read_write_exact; entry_side.
  - repeat (rewrite mem_read_write_other by entry_side).
    rewrite mem_read_write_exact by entry_side.
    f_equal. f_equal. rewrite <- strlen_stored. unfold strlen. f_equal.
    f_equal.
    rewrite (mem_from_read _ (slot + 20) 512) by lia.
    rewrite Hpath.
    + rewrite <- app_assoc. cbn [app]. rewrite !cstr_app_nul. reflexivity.
    + rewrite length_mem_write. reflexivity.
    + rewrite mem_read_write_other by entry_side. exact Hz.
  - apply mem_read_write_exact; entry_side.
  - repeat (rewrite mem_read_write_other by entry_side).
    apply mem_read_write_exact; entry_side.
  - repeat (rewrite mem_read_write_other by entry_side).
    apply Hpath.
    + rewrite length_mem_write. reflexivity.
    + rewrite mem_read_write_other by entry_side. exact Hz.
Qed.

Lemma write_file_table_record (p : BigCachePacker) (paths : list (list Z))
    (i : Z) (out : mem) (k : nat) (q : list Z) :
  paths !! k = Some q ->
  0 <= i -> 0 <= file_table_offset p ->
  file_table_offset p + 532 * (i + Z.of_nat (length paths))
    <= Z.of_nat (length out) ->
  (forall j, i <= j < i + Z.of_nat (length paths) ->
     mem_read out (file_table_offset p + 532 * j + 531) 1 = [0]) ->
  mem_read (write_file_table p paths i out)
    (file_table_offset p + 532 * (i + Z.of_nat k)) 532
  = file_record_image p (i + Z.of_nat k) q.
Proof.
  revert i out k. induction paths as [|path rest IH];
    intros i out k Hk Hi Hfto Hlen Hz; [discriminate|].
  cbn [write_file_table]. cbn [length] in Hlen, Hz.
  destruct k as [|k].
  - cbn in Hk. inversion Hk; subst path. rewrite Z.add_0_r.
    rewrite write_file_table_frame
      by (try lia; change (sizeof BigCacheFileEntry) with 532; lia).
    replace (file_table_offset p + 532 * i)
      with (file_table_offset p + i * sizeof BigCacheFileEntry)
      by (change (sizeof BigCacheFileEntry) with 532; lia).
    apply write_file_entry_record;
      change (sizeof BigCacheFileEntry) with 532; try lia.
    replace (file_table_offset p + i * 532 + 531)
      with (file_table_offset p + 532 * i + 531) by lia.
    apply Hz. lia.
  - cbn in Hk.
    replace (i + Z.of_nat (S k)) with (i + 1 + Z.of_nat k) by lia.
    apply (IH (i + 1) _ k Hk); try lia.
    + rewrite length_write_file_entry. lia.
    + intros j Hj.
      rewrite write_file_entry_frame_above
        by (try lia; change (sizeof BigCacheFileEntry) with 532; lia).
      apply Hz. lia.
Qed.

(** File record [k] of a built bundle. *)
Lemma packer_build_file_record (env : BuildEnv) (p : BigCachePacker)
    (out_path : list Z) (b : mem) (k : nat) (q : list Z) :
  packer_in_range p ->
  build_output (packer_build env (Some p) (Some out_path)) = Some b ->
  file_paths p !! k = Some q ->
  mem_read b (h_file_table_offset (read_header b) + 532 * Z.of_nat k) 532
  = file_record_image p (Z.of_nat k) q.
Proof.
  intros Hr Hout Hk.
  rewrite (packer_build_header env p out_path b Hr Hout).
  cbn [h_file_table_offset].
  destruct (packer_build_output env p out_path b Hout) as (Hne & -> & _).
  destruct (packer_layout p Hr) as (Hio & Hfto & Hdo & Hdo' & _ & Htot & Hlt).
  assert (Hn0 : 0 <= num_entries p) by (unfold num_entries; lia).
  assert (Hf0 : 0 <= num_files p) by (unfold num_files; lia).
  pose proof (lookup_lt_Some _ _ _ Hk) as Hlt_k.
  assert (Hk' : Z.of_nat k < num_files p) by (unfold num_files; lia).
  unfold write_checksum, write_u32. field_offsets.
  rewrite mem_read_write_other by (rewrite ?length_le_bytes; lia).
  unfold after_pages.
  rewrite (build_pages_frame env p (entries p) 0 _ (num_entries p))
    by (unfold num_entries, PAGE_SIZE in *; lia).
  unfold before_pages. cbn [bs_output].
  rewrite <- (Z.add_0_l (Z.of_nat k)).
  apply write_file_table_record; try lia; try exact Hk.
  - rewrite length_write_header, length_zeros. unfold num_files in *. lia.
  - intros j Hj. rewrite write_header_frame by lia.
    apply mem_read_zeros; unfold num_files in *; lia.
Qed.

Lemma find_or_add_file_found (ok : bool) (p : BigCachePacker)
    (path : list Z) (j : Z) :
  find_file (file_paths p) path 0 = Some j ->
  find_or_add_file ok p path = (to_int j, p).
Proof. intros H. unfold find_or_add_file. rewrite H. reflexivity. Qed.

Lemma build_page_index_image (env : BuildEnv) (p : BigCachePacker) (i : Z)
    (pe : PackerPageEntry) (st : BuildState) (n_total : Z) :
  0 <= index_offset p -> 0 <= i < n_total ->
  index_offset p + n_total * 20 <= data_offset p ->
  data_offset p <= Z.of_nat (length (bs_output st)) ->
  mem_read (bs_output st) (index_offset p + i * 20 + 18) 2 = zeros 2 ->
  mem_read (bs_output (build_page env p i pe st))
    (index_offset p + i * 20) 20
  = index_record_image
      (fst (find_or_add_file (build_strdup_ok env i) (bs_packer st)
              (pe_file_path pe))) pe.
Proof.
  intros Hio Hi Hlay Hlen Hz. rewrite build_page_unfold. cbn [bs_output].
  rewrite !write_page_data_frame by (unfold PAGE_SIZE; lia).
  set (id := fst (find_or_add_file _ _ _)).
  unfold index_record_image, write_page_index, write_u16, write_u32,
    write_u64. cbv zeta.
  field_offsets. rewrite !Z.add_0_r.
  set (rec := index_offset p + i * 20) in *.
  match goal with
  | |- mem_read ?m rec 20 = _ =>
      change (mem_read m rec 20)
        with (mem_read m rec (4 + (8 + (4 + (2 + 2)))))
  end.
  rewrite !mem_read_split by lia.
  replace (rec + 4 + 8) with (rec + 12) by lia.
  replace (rec + 12 + 4) with (rec + 16) by lia.
  replace (rec + 16 + 2) with (rec + 18) by lia.
  f_equal; [|f_equal; [|f_equal; [|f_equal]]].
  - peel_writes. apply mem_read_write_exact; mem_side.
  - peel_writes. apply mem_read_write_exact; mem_side.
  - peel_writes. apply mem_read_write_exact; mem_side.
  - apply mem_read_write_exact; mem_side.
  - peel_writes. exact Hz.
Qed.

Lemma build_pages_registered (env : BuildEnv) (p : BigCachePacker)
    (es : list PackerPageEntry) (i : Z) (st : BuildState) :
  Forall (registered (bs_packer st)) es ->
  bs_packer (build_pages env p es i st) = bs_packer st.
Proof.
  revert i st. induction es as [|pe rest IH]; intros i st Hreg;
    [reflexivity|].
  cbn [build_pages]. inversion Hreg as [|? ? Hpe Hrest]; subst.
  assert (Hsame : bs_packer (build_page env p i pe st) = bs_packer st).
  { rewrite build_page_unfold. cbn [bs_packer]. unfold registered in Hpe.
    destruct (find_file (file_paths (bs_packer st)) (pe_file_path pe) 0)
      as [j|] eqn:Hj; [|contradiction].
    rewrite (find_or_add_file_found _ _ _ j Hj). reflexivity. }
  rewrite IH; [exact Hsame|]. rewrite Hsame. exact Hrest.
Qed.

Lemma build_pages_index_image (env : BuildEnv) (p : BigCachePacker)
    (es : list PackerPageEntry) (i : Z) (st : BuildState)
    (n_total : Z) (k : nat) (pe : PackerPageEntry) (j : Z) :
  Forall (registered (bs_packer st)) es ->
  es !! k = Some pe ->
  find_file (file_paths (bs_packer st)) (pe_file_path pe) 0 = Some j ->
  0 <= i ->
  i + Z.of_nat (length es) <= n_total ->
  0 <= index_offset p ->
  index_offset p + n_total * 20 <= data_offset p ->
  data_offset p <= Z.of_nat (length (bs_output st)) ->
  (forall r, i <= r < n_total ->
     mem_read (bs_output st) (index_offset p + r * 20 + 18) 2 = zeros 2) ->
  mem_read (bs_output (build_pages env p es i st))
    (index_offset p + (i + Z.of_nat k) * 20) 20
  = index_record_image (to_int j) pe.
Proof.
  revert i st k. induction es as [|e rest IH];
    intros i st k Hreg Hk Hj Hi Hcount Hio Hlay Hlen Hz; [discriminate|].
  cbn [build_pages]. cbn [length] in Hcount.
  inversion Hreg as [|? ? He Hrest]; subst.
  assert (Hsame : bs_packer (build_page env p i e st) = bs_packer st)
    by (apply (build_pages_registered env p [e] i st);
        constructor; [exact He|constructor]).
  destruct k as [|k].
  - cbn in Hk. inversion Hk; subst e. rewrite Z.add_0_r.
    rewrite (build_pages_frame env p rest (i + 1) _ n_total)
      by (unfold PAGE_SIZE in *; lia).
    rewrite (build_page_index_image env p i pe st n_total)
      by (try lia; apply Hz; lia).
    rewrite (find_or_add_file_found _ _ _ j Hj). reflexivity.
  - cbn in Hk.
    replace (i + Z.of_nat (S k)) with (i + 1 + Z.of_nat k) by lia.
    apply (IH (i + 1) _ k); try lia; try assumption.
    + rewrite Hsame. exact Hrest.
    + rewrite Hsame. exact Hj.
    + rewrite length_build_page. exact Hlen.
    + intros r Hr. rewrite build_page_frame by (unfold PAGE_SIZE; lia).
      apply Hz. lia.
Qed.

Lemma packer_wf_registered (p : BigCachePacker) :
  packer_wf p -> Forall (registered p) (entries p).
Proof.
  intros (Hall & _). eapply Forall_impl; [exact Hall|].
  intros e (_ & _ & _ & He). exact He.
Qed.

Lemma mem_read_prefix_of (m : mem) (a n : Z) (xs ys : list Z) :
  mem_read m a n = xs ++ ys ->
  mem_read m a (Z.of_nat (length xs)) = xs.
Proof.
  unfold mem_read. intros H. rewrite Nat2Z.id.
  assert (Hle : (length xs <= Z.to_nat n)%nat).
  { apply (f_equal length) in H. rewrite length_app, length_take in H. lia. }
  replace (length xs) with (length xs `min` Z.to_nat n)%nat at 1 by lia.
  rewrite <- take_take, H. apply take_app_length.
Qed.

Lemma mem_read_suffix_of (m : mem) (a n : Z) (xs ys : list Z) :
  0 <= a -> 0 <= n ->
  mem_read m a (Z.of_nat (length xs) + n) = xs ++ ys ->
  mem_read m (a + Z.of_nat (length xs)) n = ys.
Proof.
  intros Ha Hn H. rewrite mem_read_split in H by lia.
  rewrite (mem_read_prefix_of m a _ xs ys) in H
    by (rewrite <- H; apply mem_read_split; lia).
  apply app_inv_head in H. exact H.
Qed.

Lemma to_int_small (x : Z) : 0 <= x < 2 ^ 31 -> to_int x = x.
Proof.
  intros H. unfold to_int. rewrite u32_small by lia.
  destruct (Z.ltb_spec x (2 ^ 31)); lia.
Qed.

Lemma after_pages_packer (env : BuildEnv) (p : BigCachePacker) :
  packer_wf p -> bs_packer (after_pages env p) = p.
Proof.
  intros Hwf. unfold after_pages.
  rewrite build_pages_registered; [reflexivity|].
  apply packer_wf_registered. exact Hwf.
Qed.

(** Index record [i] of a bundle built from a well-formed packer. *)
Lemma packer_build_index_image (env : BuildEnv) (p : BigCachePacker)
    (out_path : list Z) (b : mem) (i : nat) (pe : PackerPageEntry) :
  packer_wf p ->
  packer_in_range p ->
  build_output (packer_build env (Some p) (Some out_path)) = Some b ->
  entries p !! i = Some pe ->
  exists (j : nat) (q : list Z),
    file_paths p !! j = Some q /\
    strcmp q (pe_file_path pe) = 0 /\
    mem_read b (h_index_offset (read_header b) + 20 * Z.of_nat i) 20
    = index_record_image (Z.of_nat j) pe.
Proof.
  intros Hwf Hr Hout Hi.
  pose proof (packer_wf_registered p Hwf) as Hreg.
  destruct Hwf as (Hall & _ & Hfiles).
  assert (Hpe : registered p pe).
  { rewrite Forall_forall in Hreg. apply Hreg.
    eapply list_elem_of_lookup_2. exact Hi. }
  unfold registered in Hpe.
  destruct (find_file (file_paths p) (pe_file_path pe) 0) as [j0|] eqn:Hj0;
    [clear Hpe|contradiction].
  destruct (find_file_spec _ _ _ _ Hj0) as (j & q & -> & Hq & Hs).
  rewrite Z.add_0_l in Hj0.
  pose proof (lookup_lt_Some _ _ _ Hq) as Hlt_j.
  exists j, q. split; [exact Hq|]. split; [exact Hs|].
  rewrite (packer_build_header env p out_path b Hr Hout).
  cbn [h_index_offset].
  destruct (packer_build_output env p out_path b Hout) as (Hne & -> & _).
  destruct (packer_layout p Hr) as (Hio & Hfto & Hdo & Hdo' & _ & Htot & Hlt).
  assert (Hn0 : 0 <= num_entries p) by (unfold num_entries; lia).
  assert (Hf0 : 0 <= num_files p) by (unfold num_files; lia).
  pose proof (lookup_lt_Some _ _ _ Hi) as Hlt_i.
  assert (Hi' : Z.of_nat i < num_entries p) by (unfold num_entries; lia).
  unfold write_checksum, write_u32. field_offsets.
  rewrite mem_read_write_other by (rewrite ?length_le_bytes; lia).
  unfold after_pages.
  replace (index_offset p + 20 * Z.of_nat i)
    with (index_offset p + (0 + Z.of_nat i) * 20) by lia.
  rewrite <- (to_int_small (Z.of_nat j))
    by (unfold num_files, MAX_FILES in *; lia).
  apply (build_pages_index_image env p (entries p) 0 (before_pages p)
           (num_entries p) i pe (Z.of_nat j));
    try lia; try assumption; try (unfold num_entries; lia).
  - unfold before_pages. cbn [bs_output].
    rewrite length_write_file_table, length_write_header, length_zeros.
    lia.
  - intros r Hrr. unfold before_pages. cbn [bs_output].
    rewrite write_file_table_frame
      by (try lia; change (sizeof BigCacheFileEntry) with 532; lia).
    rewrite write_header_frame by lia.
    apply mem_read_zeros; lia.
Qed.

(** The path the loader reads for page record [i] of such a bundle is the
    path of entry [i]. *)
Lemma packer_build_record_path (env : BuildEnv) (p : BigCachePacker)
    (out_path : list Z) (b : mem) (i : nat) (pe : PackerPageEntry) :
  packer_wf p ->
  packer_in_range p ->
  build_output (packer_build env (Some p) (Some out_path)) = Some b ->
  entries p !! i = Some pe ->
  cstr (record_path b (read_header b) (Z.of_nat i)) = cstr (pe_file_path pe).
Proof.
  intros Hwf Hr Hout Hi.
  destruct (packer_build_index_image env p out_path b i pe Hwf Hr Hout Hi)
    as (j & q & Hq & Hs & Himg).
  pose proof (packer_build_file_record env p out_path b j q Hr Hout Hq)
    as Hrec.
  destruct Hwf as (Hall & _ & Hfiles).
  assert (Hlen : strlen (pe_file_path pe) < MAX_PATH_LEN).
  { rewrite Forall_forall in Hall.
    destruct (Hall pe) as (_ & _ & Hl & _); [|exact Hl].
    eapply list_elem_of_lookup_2. exact Hi. }
  pose proof (lookup_lt_Some _ _ _ Hq) as Hlt_j.
  assert (Hid : record_file_id b (read_header b) (Z.of_nat i) = Z.of_nat j).
  { unfold record_file_id, page_record_at, read_u32. field_offsets.
    rewrite Z.add_0_r.
    replace (h_index_offset (read_header b) + Z.of_nat i * 20)
      with (h_index_offset (read_header b) + 20 * Z.of_nat i) by lia.
    unfold index_record_image in Himg.
    apply mem_read_prefix_of in Himg. rewrite length_le_bytes in Himg.
    change (Z.of_nat 4) with 4 in Himg. rewrite Himg.
    rewrite le_value_le_bytes. change (256 ^ Z.of_nat 4) with (2 ^ 32).
    unfold u32, wrap. rewrite !Z.mod_mod by lia.
    apply Z.mod_small. unfold num_files, MAX_FILES in *. lia. }
  unfold record_path. rewrite Hid. unfold file_entry_path.
  field_offsets.
  set (slot := h_file_table_offset (read_header b) + Z.of_nat j * 532).
  assert (Hslot : 0 <= slot).
  { subst slot.
    pose proof (read_u64_range b
                  (field_off BigCacheHeader 0 "file_table_offset"%string)).
    unfold h_file_table_offset, read_header. cbv zeta. lia. }
  replace (h_file_table_offset (read_header b) + 532 * Z.of_nat j)
    with slot in Hrec by (subst slot; lia).
  unfold file_record_image in Hrec.
  rewrite !app_assoc in Hrec. rewrite <- app_assoc in Hrec.
  change 532 with (Z.of_nat 20 + 512) in Hrec.
  match type of Hrec with
  | mem_read _ _ _ = ?xs ++ _ =>
      replace (Z.of_nat 20) with (Z.of_nat (length xs)) in Hrec
        by (rewrite !length_app, !length_le_bytes; reflexivity)
  end.
  apply mem_read_suffix_of in Hrec; [|lia..].
  rewrite !length_app, !length_le_bytes in Hrec.
  change (Z.of_nat (4 + 4 + 4 + 8)) with 20 in Hrec.
  rewrite (mem_from_read b (slot + 20) 512) by lia.
  rewrite Hrec, <- app_assoc. cbn [app]. rewrite cstr_app_nul.
  rewrite <- (cstr_app_nul _ []), cstr_stored_path.
  apply strcmp_eq in Hs. rewrite Hs. apply take_ge.
  unfold strlen, MAX_PATH_LEN in *. lia.
Qed.

Lemma valid_bundle_intro (data : mem) :
  h_data_offset (read_header data)
    + h_num_pages (read_header data) * PAGE_SIZE
    <= h_total_size (read_header data) ->
  (forall i, 0 <= i < h_num_pages (read_header data) ->
     page_align (record_source_offset data (read_header data) i)
       = record_source_offset data (read_header data) i /\
     forall j, 0 <= j < h_num_pages (read_header data) ->
       same_page data (read_header data) i j = true -> i = j) ->
  valid_bundle data = true.
Proof.
  intros Hsize Hrec. unfold valid_bundle. cbv zeta.
  apply andb_true_iff. split; [apply Z.leb_le; exact Hsize|].
  apply forallb_forall. intros i Hi. apply in_record_ids in Hi.
  destruct (Hrec i Hi) as [Hal Huniq].
  apply andb_true_iff. split; [apply Z.eqb_eq; exact Hal|].
  apply forallb_forall. intros j Hj. apply in_record_ids in Hj.
  destruct (same_page data (read_header data) i j) eqn:Hsame.
  - rewrite (Huniq j Hj Hsame), Z.eqb_refl. reflexivity.
  - apply orb_true_r.
Qed.

Lemma packer_build_valid (env : BuildEnv) (p : BigCachePacker)
    (out_path : list Z) (b : mem) :
  packer_wf p ->
  packer_in_range p ->
  build_output (packer_build env (Some p) (Some out_path)) = Some b ->
  valid_bundle b = true.
Proof.
  intros Hwf Hr Hout.
  pose proof (packer_build_header env p out_path b Hr Hout) as Hh.
  destruct (packer_layout p Hr) as (Hio & Hfto & Hdo & Hdo' & _ & Htot & Hlt).
  assert (Hentry : forall i, 0 <= i < num_entries p ->
            exists pe, entries p !! Z.to_nat i = Some pe).
  { intros i Hi. apply lookup_lt_is_Some. unfold num_entries in Hi. lia. }
  assert (Hoff : forall i pe, 0 <= i -> entries p !! Z.to_nat i = Some pe ->
            record_source_offset b (read_header b) i = pe_offset pe /\
            page_align (pe_offset pe) = pe_offset pe).
  { intros i pe Hi0 Hi.
    destruct (packer_build_index_record env p out_path b _ pe Hr Hout Hi)
      as [Hso _].
    rewrite Z2Nat.id in Hso by lia.
    destruct Hwf as (Hall & _). rewrite Forall_forall in Hall.
    destruct (Hall pe) as (Hal & _);
      [eapply list_elem_of_lookup_2; exact Hi|].
    rewrite Hso. split; [|symmetry; exact Hal].
    apply u64_small. rewrite Hal. apply page_align_range. }
  apply valid_bundle_intro; rewrite Hh;
    cbn [h_data_offset h_num_pages h_total_size].
  - unfold PAGE_SIZE. lia.
  - intros i Hi. destruct (Hentry i Hi) as (pe & Hpe).
    destruct (Hoff i pe ltac:(lia) Hpe) as [Hso Hal]. rewrite <- Hh.
    split; [rewrite Hso; exact Hal|].
    intros j Hj Hsame. destruct (Hentry j Hj) as (pe' & Hpe').
    destruct (Hoff j pe' ltac:(lia) Hpe') as [Hso' _].
    unfold same_page in Hsame. apply andb_true_iff in Hsame as [Hs Ho].
    apply Z.eqb_eq in Hs, Ho. apply strcmp_eq in Hs.
    pose proof (packer_build_record_path env p out_path b _ pe Hwf Hr Hout
                  Hpe) as Hp.
    pose proof (packer_build_record_path env p out_path b _ pe' Hwf Hr Hout
                  Hpe') as Hp'.
    rewrite Z2Nat.id in Hp, Hp' by lia.
    destruct Hwf as (_ & Huniq & _).
    assert (Z.to_nat i = Z.to_nat j); [|lia].
    apply (Huniq _ _ pe pe' Hpe Hpe'); [congruence|].
    apply strcmp_eq. congruence.
Qed.

(** X4.  The two outcomes of [packer_build].  Either no output is
    produced, the packer is untouched and no page is counted (with
    [-EINVAL] for a missing argument or an empty packer); or the output
    file is mapped, the result is 0, the output has [total_size] bytes,
    the pages counted as read are the entries whose page was read in
    full, and together with the pages counted as failed they are as many
    as the entries. *)
Theorem packer_build_outcome (env : BuildEnv)
    (packer : option BigCachePacker) (out_path : option (list Z)) :
  let r := packer_build env packer out_path in
  (build_output r = None /\ build_packer r = packer /\
   build_successful r = 0 /\ build_simulated r = 0 /\
   (packer = None \/ out_path = None \/
    (exists p, packer = Some p /\ num_entries p = 0) ->
    build_ret r = - EINVAL))
  \/
  (exists p b,
     packer = Some p /\ out_path <> None /\ num_entries p <> 0 /\
     output_outcome env = OutMapped /\
     build_ret r = 0 /\ build_output r = Some b /\
     Z.of_nat (length b) = total_size p /\
     build_successful r = count_if (page_read_ok (source_fs env)) (entries p)
     /\
     build_successful r + build_simulated r = num_entries p).
Proof.
  cbv zeta. unfold packer_build.
  destruct packer as [p|].
  2:{ left. repeat split; reflexivity. }
  destruct out_path as [o|].
  2:{ left. repeat split; reflexivity. }
  destruct (Z.eqb_spec (num_entries p) 0) as [Hz|Hnz].
  { left. repeat split; reflexivity. }
  assert (Hno : Some p = None \/ Some o = None \/
                (exists p0, Some p = Some p0 /\ num_entries p0 = 0) ->
                False).
  { intros [H|[H|(p0 & H & H0)]]; try discriminate.
    inversion H; subst. contradiction. }
  destruct (output_outcome env) eqn:Hout;
    try (left; repeat split; try reflexivity; intros H;
         destruct (Hno H)).
  right. exists p. eexists. cbn [build_ret build_output build_successful
    build_simulated].
  repeat split; try reflexivity; try assumption; try discriminate.
  - unfold write_checksum, write_u32. rewrite length_mem_write.
    unfold after_pages. rewrite length_build_pages.
    unfold before_pages. cbn [bs_output].
    rewrite length_write_file_table, length_write_header, length_zeros.
    apply Z2Nat.id. unfold total_size, size_t, wrap.
    apply Z.mod_pos_bound. lia.
  - unfold after_pages.
    rewrite (proj1 (build_pages_counts env p (entries p) 0 (before_pages p))).
    unfold before_pages. cbn [successful_pages]. lia.
  - unfold after_pages.
    destruct (build_pages_counts env p (entries p) 0 (before_pages p))
      as [-> ->].
    unfold before_pages. cbn [successful_pages failed_pages].
    pose proof (count_if_negb (page_read_ok (source_fs env)) (entries p)).
    unfold num_entries. lia.
Qed.

(** X5.  A build leaves a well-formed packer as it was: every file the
    page loop looks up is in the file table already, so
    [find_or_add_file] adds none. *)
Theorem packer_build_keeps_packer (env : BuildEnv) (p : BigCachePacker)
    (out_path : option (list Z)) :
  packer_wf p ->
  build_packer (packer_build env (Some p) out_path) = Some p.
Proof.
  intros Hwf. unfold packer_build.
  destruct out_path; [|reflexivity].
  destruct (num_entries p =? 0); [reflexivity|].
  destruct (output_outcome env); try reflexivity.
  cbn [build_packer]. rewrite after_pages_packer by exact Hwf. reflexivity.
Qed.

(** The build of the sample packer. *)
Lemma packer_build_keeps_packer_witness :
  build_packer (packer_build sample_env (Some sample_packer) (Some out_bin))
  = Some sample_packer.
Proof.
  apply (packer_build_keeps_packer sample_env sample_packer (Some out_bin)).
  exact sample_packer_wf.
Defined.

(** X7.  The header of a bundle [packer_build] wrote, as the loader reads
    it: magic and version, the two counts, the index region right after
    the 88-byte header, the file table right after the 20-byte index
    records, the data region at the next multiple of 4096 after the
    532-byte file records, and a total size of [data_offset + 4096 n]
    that is the length of the file; flags and reserved bytes are zero. *)
Theorem packer_build_header_fields (env : BuildEnv) (p : BigCachePacker)
    (out_path : list Z) (b : mem) :
  packer_in_range p ->
  build_output (packer_build env (Some p) (Some out_path)) = Some b ->
  let h := read_header b in
  h_magic h = BIGCACHE_MAGIC /\ h_version h = BIGCACHE_VERSION /\
  h_num_pages h = num_entries p /\ h_num_files h = num_files p /\
  h_index_offset h = 88 /\
  h_file_table_offset h = 88 + 20 * num_entries p /\
  h_file_table_offset h + 532 * num_files p <= h_data_offset h /\
  h_data_offset h < h_file_table_offset h + 532 * num_files p + 4096 /\
  h_data_offset h mod 4096 = 0 /\
  h_total_size h = h_data_offset h + 4096 * num_entries p /\
  Z.of_nat (length b) = h_total_size h /\
  h_flags h = 0 /\ h_reserved h = zeros 32.
Proof.
  intros Hr Hout. cbv zeta.
  rewrite (packer_build_header env p out_path b Hr Hout).
  cbn [h_magic h_version h_num_pages h_num_files h_index_offset
       h_file_table_offset h_data_offset h_total_size h_flags h_reserved].
  destruct (packer_layout p Hr) as (Hio & Hfto & Hdo & Hdo' & Hal & Htot & _).
  destruct (packer_build_output env p out_path b Hout) as (_ & Hb & _).
  pose proof (length_after_pages env p Hr) as Hlen.
  repeat split; try assumption; try lia.
  rewrite Hb. unfold write_checksum, write_u32.
  rewrite length_mem_write. exact Hlen.
Qed.

(** The header of the sample bundle. *)
Lemma packer_build_header_fields_witness :
  h_num_pages (read_header sample_bundle) = num_entries sample_packer /\
  h_data_offset (read_header sample_bundle) mod 4096 = 0 /\
  Z.of_nat (length sample_bundle) = h_total_size (read_header sample_bundle).
Proof.
  pose proof (packer_build_header_fields sample_env sample_packer out_bin
                sample_bundle sample_packer_in_range sample_build_output)
    as H.
  cbv zeta in H.
  destruct H as (_ & _ & Hn & _ & _ & _ & _ & _ & Hal & _ & Hlen & _).
  repeat split; assumption.
Defined.

Lemma record_file_id_of_image (m : mem) (h : Header) (i id : Z)
    (pe : PackerPageEntry) :
  mem_read m (h_index_offset h + 20 * i) 20 = index_record_image id pe ->
  record_file_id m h i = u32 id.
Proof.
  intros Himg. unfold record_file_id, page_record_at, read_u32.
  field_offsets. rewrite Z.add_0_r.
  replace (h_index_offset h + i * 20) with (h_index_offset h + 20 * i)
    by lia.
  unfold index_record_image in Himg.
  apply mem_read_prefix_of in Himg. rewrite length_le_bytes in Himg.
  change (Z.of_nat 4) with 4 in Himg. rewrite Himg.
  rewrite le_value_le_bytes. change (256 ^ Z.of_nat 4) with (2 ^ 32).
  unfold u32, wrap. rewrite !Z.mod_mod by lia. reflexivity.
Qed.

(** X8.  Page record [i] of a bundle built from a well-formed packer is
    the 20 bytes of entry [i]: the id of a file record whose path is the
    entry's path, the entry's offset and access order, the flags computed
    from the path, two zero bytes.  The loader reads the same values
    back, and through the file id the entry's path. *)
Theorem packer_build_index_record_read (env : BuildEnv) (p : BigCachePacker)
    (out_path : list Z) (b : mem) (i : nat) (pe : PackerPageEntry) :
  packer_wf p ->
  packer_in_range p ->
  build_output (packer_build env (Some p) (Some out_path)) = Some b ->
  entries p !! i = Some pe ->
  exists (j : nat) (q : list Z),
    file_paths p !! j = Some q /\
    strcmp q (pe_file_path pe) = 0 /\
    mem_read b (h_index_offset (read_header b) + 20 * Z.of_nat i) 20
      = index_record_image (Z.of_nat j) pe /\
    record_file_id b (read_header b) (Z.of_nat i) = Z.of_nat j /\
    record_source_offset b (read_header b) (Z.of_nat i) = pe_offset pe /\
    record_access_order b (read_header b) (Z.of_nat i)
      = u32 (pe_access_order pe) /\
    cstr (record_path b (read_header b) (Z.of_nat i))
      = cstr (pe_file_path pe).
Proof.
  intros Hwf Hr Hout Hi.
  destruct (packer_build_index_image env p out_path b i pe Hwf Hr Hout Hi)
    as (j & q & Hq & Hs & Himg).
  destruct (packer_build_index_record env p out_path b i pe Hr Hout Hi)
    as [Hso Hao].
  pose proof (packer_build_record_path env p out_path b i pe Hwf Hr Hout Hi)
    as Hpath.
  pose proof (lookup_lt_Some _ _ _ Hq) as Hlt_j.
  exists j, q. repeat split; try assumption.
  - rewrite (record_file_id_of_image b _ _ _ pe Himg).
    apply u32_small. destruct Hwf as (_ & _ & Hfiles).
    unfold num_files, MAX_FILES in Hfiles. lia.
  - rewrite Hso. apply u64_small.
    destruct Hwf as (Hall & _). rewrite Forall_forall in Hall.
    destruct (Hall pe) as (Hal & _);
      [eapply list_elem_of_lookup_2; exact Hi|].
    rewrite Hal. apply page_align_range.
Qed.

(** The second page record of the sample bundle. *)
Lemma packer_build_index_record_read_witness :
  exists (j : nat) (q : list Z),
    file_paths sample_packer !! j = Some q /\
    strcmp q (pe_file_path (sample_entry 1)) = 0 /\
    mem_read sample_bundle
      (h_index_offset (read_header sample_bundle) + 20 * Z.of_nat 1) 20
      = index_record_image (Z.of_nat j) (sample_entry 1) /\
    record_file_id sample_bundle (read_header sample_bundle) (Z.of_nat 1)
      = Z.of_nat j /\
    record_source_offset sample_bundle (read_header sample_bundle)
      (Z.of_nat 1) = pe_offset (sample_entry 1) /\
    record_access_order sample_bundle (read_header sample_bundle)
      (Z.of_nat 1) = u32 (pe_access_order (sample_entry 1)) /\
    cstr (record_path sample_bundle (read_header sample_bundle) (Z.of_nat 1))
      = cstr (pe_file_path (sample_entry 1)).
Proof.
  apply (packer_build_index_record_read sample_env sample_packer out_bin
           sample_bundle 1 (sample_entry 1)).
  - exact sample_packer_wf.
  - exact sample_packer_in_range.
  - exact sample_build_output.
  - vm_compute. reflexivity.
Defined.

Lemma file_entry_path_of_image (m : mem) (h : Header) (p : BigCachePacker)
    (k : Z) (q : list Z) :
  0 <= h_file_table_offset h + 532 * k ->
  mem_read m (h_file_table_offset h + 532 * k) 532 = file_record_image p k q ->
  cstr (file_entry_path m h k) = take 511 (cstr q).
Proof.
  intros Hslot Hrec. unfold file_entry_path. field_offsets.
  replace (h_file_table_offset h + k * 532)
    with (h_file_table_offset h + 532 * k) by lia.
  set (slot := h_file_table_offset h + 532 * k) in *.
  unfold file_record_image in Hrec.
  rewrite !app_assoc in Hrec. rewrite <- app_assoc in Hrec.
  change 532 with (Z.of_nat 20 + 512) in Hrec.
  match type of Hrec with
  | mem_read _ _ _ = ?xs ++ _ =>
      replace (Z.of_nat 20) with (Z.of_nat (length xs)) in Hrec
        by (rewrite !length_app, !length_le_bytes; reflexivity)
  end.
  apply mem_read_suffix_of in Hrec; [|lia..].
  rewrite !length_app, !length_le_bytes in Hrec.
  change (Z.of_nat (4 + 4 + 4 + 8)) with 20 in Hrec.
  rewrite (mem_from_read m (slot + 20) 512) by lia.
  rewrite Hrec, <- app_assoc. cbn [app]. rewrite cstr_app_nul.
  rewrite <- (cstr_app_nul _ []), cstr_stored_path. reflexivity.
Qed.

Lemma stored_path_explicit (q : list Z) :
  strncpy q (MAX_PATH_LEN - 1) ++ [0]
  = take 511 (cstr q) ++ zeros (512 - Z.min (strlen q) 511).
Proof.
  unfold strncpy, zeros, strlen, MAX_PATH_LEN.
  change (Z.to_nat (512 - 1)) with 511%nat.
  rewrite take_app, <- app_assoc. f_equal.
  rewrite take_repeat by lia.
  replace (Z.to_nat (512 - Z.min (Z.of_nat (length (cstr q))) 511))
    with (511 - length (cstr q) + 1)%nat by lia.
  rewrite repeat_app. reflexivity.
Qed.

(** X9.  File record [k] of a built bundle is 532 bytes: the index [k] as
    the id, the length of the stored path, the number of page entries
    whose path compares equal to the file's, a zero original size, and the
    first 511 characters of the path in a zero-filled field of 512.  The
    loader reads back the path cut to 511 characters. *)
Theorem packer_build_file_record_bytes (env : BuildEnv) (p : BigCachePacker)
    (out_path : list Z) (b : mem) (k : nat) (q : list Z) :
  packer_in_range p ->
  build_output (packer_build env (Some p) (Some out_path)) = Some b ->
  file_paths p !! k = Some q ->
  mem_read b (h_file_table_offset (read_header b) + 532 * Z.of_nat k) 532
    = le_bytes 4 (Z.of_nat k) ++
      le_bytes 4 (Z.min (strlen q) 511) ++
      le_bytes 4
        (Z.of_nat
           (length
              (List.filter (fun e => strcmp (pe_file_path e) q =? 0)
                 (entries p)))) ++
      le_bytes 8 0 ++
      take 511 (cstr q) ++ zeros (512 - Z.min (strlen q) 511) /\
  cstr (file_entry_path b (read_header b) (Z.of_nat k)) = take 511 (cstr q).
Proof.
  intros Hr Hout Hq.
  pose proof (packer_build_file_record env p out_path b k q Hr Hout Hq)
    as Himg.
  split.
  - rewrite Himg. unfold file_record_image, count_pages.
    rewrite stored_path_explicit.
    pose proof (lookup_lt_Some _ _ _ Hq) as Hk.
    pose proof (List.filter_length_le
                  (fun e => strcmp (pe_file_path e) q =? 0) (entries p))
      as Hcount.
    destruct Hr as [Hne Hnf]. unfold num_entries, num_files in Hne, Hnf.
    unfold strlen, MAX_PATH_LEN. change (512 - 1) with 511.
    rewrite !u32_small by lia. reflexivity.
  - apply (file_entry_path_of_image b (read_header b) p (Z.of_nat k) q);
      [|exact Himg].
    rewrite (packer_build_header env p out_path b Hr Hout).
    cbn [h_file_table_offset].
    destruct (packer_layout p Hr) as (_ & Hfto & _).
    unfold num_entries in *. lia.
Qed.

(** The first file record of the sample bundle: [path_a], with two
    pages. *)
Lemma packer_build_file_record_bytes_witness :
  mem_read sample_bundle
    (h_file_table_offset (read_header sample_bundle) + 532 * Z.of_nat 0) 532
    = le_bytes 4 (Z.of_nat 0) ++
      le_bytes 4 (Z.min (strlen path_a) 511) ++
      le_bytes 4
        (Z.of_nat
           (length
              (List.filter (fun e => strcmp (pe_file_path e) path_a =? 0)
                 (entries sample_packer)))) ++
      le_bytes 8 0 ++
      take 511 (cstr path_a) ++ zeros (512 - Z.min (strlen path_a) 511) /\
  cstr (file_entry_path sample_bundle (read_header sample_bundle)
          (Z.of_nat 0))
    = take 511 (cstr path_a).
Proof.
  apply (packer_build_file_record_bytes sample_env sample_packer out_bin
           sample_bundle 0 path_a).
  - exact sample_packer_in_range.
  - exact sample_build_output.
  - vm_compute. reflexivity.
Defined.
(** X10.  A bundle built from a well-formed packer meets the conditions
    the loader relies on without checking them: the data region lies
    inside the file, every source offset is a multiple of 4096, and no
    two page records name the same page of the same file. *)
Theorem packer_build_valid_bundle (env : BuildEnv) (p : BigCachePacker)
    (out_path : list Z) (b : mem) :
  packer_wf p ->
  packer_in_range p ->
  build_output (packer_build env (Some p) (Some out_path)) = Some b ->
  valid_bundle b = true /\
  forall i j,
    0 <= i < num_entries p -> 0 <= j < num_entries p ->
    same_page b (read_header b) i j = true -> i = j.
Proof.
  intros Hwf Hr Hout.
  pose proof (packer_build_valid env p out_path b Hwf Hr Hout) as Hv.
  split; [exact Hv|].
  destruct (valid_bundle_spec b Hv) as [_ Hrec].
  rewrite (packer_build_header env p out_path b Hr Hout) in Hrec.
  cbn [h_num_pages] in Hrec.
  intros i j Hi Hj Hsame.
  rewrite (packer_build_header env p out_path b Hr Hout) in Hsame.
  exact (proj2 (Hrec i Hi) j Hj Hsame).
Qed.

(** The sample bundle. *)
Lemma packer_build_valid_bundle_witness :
  valid_bundle sample_bundle = true /\
  forall i j,
    0 <= i < num_entries sample_packer ->
    0 <= j < num_entries sample_packer ->
    same_page sample_bundle (read_header sample_bundle) i j = true -> i = j.
Proof.
  apply (packer_build_valid_bundle sample_env sample_packer out_bin
           sample_bundle).
  - exact sample_packer_wf.
  - exact sample_packer_in_range.
  - exact sample_build_output.
Defined.

(* ================================================================== *)
(** * The checksum, the lookup table and the loader *)

(** X6.  [bigcache_crc32], the table-driven loop over the table that
    [init_crc32_table] fills, computes for every byte string the CRC-32 of
    the reflected polynomial 0xEDB88320 with initial value 0xFFFFFFFF and
    final complement, as the bit-by-bit definition gives it; the result is
    a 32-bit value. *)
Theorem bigcache_crc32_bitwise (data : list Z) :
  bigcache_crc32 data = crc32_ieee data /\
  0 <= bigcache_crc32 data < 2 ^ 32.
Proof.
  split; [apply bigcache_crc32_reference|apply bigcache_crc32_range].
Qed.

Lemma lookup_table_insert_find (t : PageLookupTable) (path : list Z)
    (so bo ord : Z) (f : list Z) (off : Z) :
  0 < num_buckets t ->
  length (buckets t) = Z.to_nat (num_buckets t) ->
  lookup_table_find (snd (lookup_table_insert true t path so bo ord)) f off
  = if (so =? off) && (strcmp path f =? 0)
    then Some {| file_path := strdup path; source_offset := so;
                 bigcache_offset := bo; access_order := ord |}
    else lookup_table_find t f off.
Proof.
  intros Hnb Hlen. unfold lookup_table_insert. cbn [negb snd].
  unfold lookup_table_find, bucket_index. cbn [buckets num_buckets].
  set (e := {| file_path := strdup path; source_offset := so;
               bigcache_offset := bo; access_order := ord |}).
  set (idx := Z.to_nat (hash_fnv1a path so mod num_buckets t)).
  set (idx' := Z.to_nat (hash_fnv1a f off mod num_buckets t)).
  assert (Hidx : (idx < length (buckets t))%nat).
  { rewrite Hlen. subst idx.
    pose proof (Z.mod_pos_bound (hash_fnv1a path so) (num_buckets t) Hnb).
    lia. }
  rewrite !nth_lookup.
  destruct (Nat.eq_dec idx idx') as [Heq|Hne].
  - rewrite <- Heq. rewrite list_lookup_insert_eq by exact Hidx.
    subst e. unfold default. cbn [from_option id find_in_chain source_offset
      file_path].
    unfold strdup. rewrite strcmp_eqb_cstr_l.
    destruct ((so =? off) && (strcmp path f =? 0)); reflexivity.
  - rewrite list_lookup_insert_ne by exact Hne.
    destruct ((so =? off) && (strcmp path f =? 0)) eqn:Hkey;
      [|reflexivity].
    exfalso. apply Hne. apply andb_true_iff in Hkey as [Ho Hs].
    apply Z.eqb_eq in Ho, Hs. subst idx idx'.
    rewrite Ho, (hash_fnv1a_strcmp _ _ off Hs). reflexivity.
Qed.

Lemma lookup_table_insert_shape (t : PageLookupTable) (path : list Z)
    (so bo ord : Z) :
  let t' := snd (lookup_table_insert true t path so bo ord) in
  fst (lookup_table_insert true t path so bo ord) = 0 /\
  num_buckets t' = num_buckets t /\
  length (buckets t') = length (buckets t) /\
  table_entries t' = size_t (table_entries t + 1).
Proof.
  cbv zeta. unfold lookup_table_insert. cbn [negb fst snd buckets
    num_buckets table_entries].
  rewrite length_insert. repeat split.
Qed.

Lemma create_lookup_table_empty (ok : bool) (n : Z) (t : PageLookupTable)
    (f : list Z) (off : Z) :
  create_lookup_table ok n = Some t ->
  0 < num_buckets t /\
  length (buckets t) = Z.to_nat (num_buckets t) /\
  lookup_table_find t f off = None.
Proof.
  intros Hc. destruct (table_models_create ok n t Hc) as (Hnb & Hlen & _).
  split; [exact Hnb|]. split; [exact Hlen|].
  rewrite (table_models_find t [] f off (table_models_create ok n t Hc)).
  reflexivity.
Qed.

(** X11.  [lookup_table_insert], when its allocation succeeds, returns 0,
    keeps the number of buckets, counts one more entry, and makes
    [lookup_table_find] return the new entry for every key that has the
    inserted offset and a path comparing equal to the inserted one (also
    when an older entry carries that key); for every other key the search
    finds what it found before. *)
Theorem lookup_table_insert_then_find (t : PageLookupTable) (path : list Z)
    (so bo ord : Z) :
  0 < num_buckets t ->
  length (buckets t) = Z.to_nat (num_buckets t) ->
  let t' := snd (lookup_table_insert true t path so bo ord) in
  fst (lookup_table_insert true t path so bo ord) = 0 /\
  num_buckets t' = num_buckets t /\
  length (buckets t') = Z.to_nat (num_buckets t') /\
  table_entries t' = size_t (table_entries t + 1) /\
  forall f off,
    lookup_table_find t' f off
    = if (so =? off) && (strcmp path f =? 0)
      then Some {| file_path := strdup path; source_offset := so;
                   bigcache_offset := bo; access_order := ord |}
      else lookup_table_find t f off.
Proof.
  intros Hnb Hlen. cbv zeta.
  destruct (lookup_table_insert_shape t path so bo ord)
    as (Hret & Hn & Hl & He).
  split; [exact Hret|]. split; [exact Hn|].
  split; [rewrite Hl, Hn; exact Hlen|]. split; [exact He|].
  intros f off. apply lookup_table_insert_find; assumption.
Qed.

(** One insertion into an empty table of 1024 buckets. *)
Lemma lookup_table_insert_then_find_witness :
  let t := {| buckets := repeat [] 1024; num_buckets := 1024;
              table_entries := 0 |} in
  let t' := snd (lookup_table_insert true t path_a 4096 8192 1) in
  fst (lookup_table_insert true t path_a 4096 8192 1) = 0 /\
  num_buckets t' = num_buckets t /\
  length (buckets t') = Z.to_nat (num_buckets t') /\
  table_entries t' = size_t (table_entries t + 1) /\
  forall f off,
    lookup_table_find t' f off
    = if (4096 =? off) && (strcmp path_a f =? 0)
      then Some {| file_path := strdup path_a; source_offset := 4096;
                   bigcache_offset := 8192; access_order := 1 |}
      else lookup_table_find t f off.
Proof.
  apply (lookup_table_insert_then_find
           {| buckets := repeat [] 1024; num_buckets := 1024;
              table_entries := 0 |} path_a 4096 8192 1).
  - vm_compute. reflexivity.
  - vm_compute. reflexivity.
Defined.

(** X12.  A fresh table: [create_lookup_table] gives at least 1024
    buckets, as many as [num_buckets] says, all of them empty, and a
    count of zero; a search in it finds nothing. *)
Theorem create_lookup_table_fresh (ok : bool) (n : Z) (t : PageLookupTable)
    (f : list Z) (off : Z) :
  create_lookup_table ok n = Some t ->
  1024 <= num_buckets t /\
  length (buckets t) = Z.to_nat (num_buckets t) /\
  Forall (fun chain => chain = []) (buckets t) /\
  table_entries t = 0 /\
  lookup_table_find t f off = None.
Proof.
  intros Hc.
  destruct (create_lookup_table_empty ok n t f off Hc) as (_ & Hlen & Hfind).
  unfold create_lookup_table in Hc.
  destruct (negb ok); [discriminate|]. cbv zeta in Hc.
  inversion Hc; subst t; clear Hc.
  cbn [num_buckets buckets table_entries] in *.
  repeat split; try assumption.
  - destruct (Z.ltb_spec (size_t (n * 3) / 2) 1024); lia.
  - apply Forall_forall. intros chain Hin.
    apply list_elem_of_In, repeat_spec in Hin. exact Hin.
Qed.

(** The table created for 1000 pages. *)
Lemma create_lookup_table_fresh_witness :
  1024 <= num_buckets {| buckets := repeat [] 1500; num_buckets := 1500;
                         table_entries := 0 |} /\
  length (buckets {| buckets := repeat [] 1500; num_buckets := 1500;
                     table_entries := 0 |})
  = Z.to_nat (num_buckets {| buckets := repeat [] 1500; num_buckets := 1500;
                             table_entries := 0 |}) /\
  Forall (fun chain => chain = [])
    (buckets {| buckets := repeat [] 1500; num_buckets := 1500;
                table_entries := 0 |}) /\
  table_entries {| buckets := repeat [] 1500; num_buckets := 1500;
                   table_entries := 0 |} = 0 /\
  lookup_table_find {| buckets := repeat [] 1500; num_buckets := 1500;
                       table_entries := 0 |} path_a 0 = None.
Proof.
  apply (create_lookup_table_fresh true 1000).
  vm_compute. reflexivity.
Defined.

Lemma find_all_false {A : Type} (P : A -> bool) (l : list A) :
  (forall x, In x l -> P x = false) -> find P l = None.
Proof.
  induction l as [|a l IH]; intros H; [reflexivity|].
  cbn [find]. rewrite (H a (or_introl eq_refl)).
  apply IH. intros x Hx. apply H. right. exact Hx.
Qed.

Lemma find_rev_last {A : Type} (P : A -> bool) (g : nat -> A) (n i : nat) :
  (i < n)%nat -> P (g i) = true ->
  (forall j, (i < j < n)%nat -> P (g j) = false) ->
  find P (rev (map g (seq 0 n))) = Some (g i).
Proof.
  induction n as [|n IH]; intros Hi HP Hafter; [lia|].
  rewrite seq_S, map_app, rev_app_distr. cbn [map rev app find Nat.add].
  destruct (Nat.eq_dec i n) as [->|Hne].
  - rewrite HP. reflexivity.
  - rewrite (Hafter n) by lia. apply IH; [lia|exact HP|].
    intros j Hj. apply Hafter. lia.
Qed.

Lemma key_match_loaded_entry (m : mem) (f : list Z) (offset : Z) (j : Z) :
  key_match f offset (loaded_entry m (read_header m) j)
  = record_matches m f offset j.
Proof.
  unfold key_match, loaded_entry, record_matches.
  cbn [source_offset file_path]. unfold strdup.
  rewrite strcmp_eqb_cstr_l. reflexivity.
Qed.

Lemma loaded_table_find (env : LoadEnv) (c c' : BigCacheContext)
    (path : list Z) (new_fd addr : Z) (data : mem) :
  load_file env = LoadMapped new_fd addr data ->
  bigcache_load env (Some c) (Some path) = (0, Some c') ->
  exists t,
    lookup_table c' = Some t /\ is_loaded c' = 1 /\ mapped_data c' = addr /\
    (forall f off,
       (forall j, 0 <= j < h_num_pages (read_header data) ->
                  record_matches data f off j = false) ->
       lookup_table_find t f off = None) /\
    (forall f off i,
       0 <= i < h_num_pages (read_header data) ->
       record_matches data f off i = true ->
       (forall j, i < j < h_num_pages (read_header data) ->
                  record_matches data f off j = false) ->
       lookup_table_find t f off
       = Some (loaded_entry data (read_header data) i)).
Proof.
  intros Hfile Hload.
  destruct (bigcache_load_success env c c' path new_fd addr data Hfile Hload)
    as (_ & _ & _ & _ & _ & _ & _ & Hloaded & Haddr & _).
  destruct (bigcache_load_table env c c' path new_fd addr data Hfile Hload)
    as (t & Htab & _ & _ & Hfind).
  exists t. repeat split; try assumption.
  - intros f off Hnone. rewrite Hfind. apply find_all_false.
    intros e He. apply in_loaded_entries in He as (j & Hj & ->).
    rewrite key_match_loaded_entry. apply Hnone. lia.
  - intros f off i Hi Hm Hafter. rewrite Hfind. unfold loaded_entries.
    rewrite (find_rev_last _ _ _ (Z.to_nat i)).
    + rewrite Z2Nat.id by lia. reflexivity.
    + lia.
    + rewrite Z2Nat.id by lia. rewrite key_match_loaded_entry. exact Hm.
    + intros j Hj. rewrite key_match_loaded_entry. apply Hafter. lia.
Qed.

(** X13.  A miss.  After a successful load, a lookup of a key that no
    page record carries (after rounding the offset down to a page)
    returns NULL from [bigcache_lookup] and [-ENOENT] from
    [bigcache_lookup_offset], which leaves the caller's output alone.
    Each adds one to [miss_count] (modulo 2^64) and leaves [hit_count],
    [total_bytes_served] and the rest of the context as they were. *)
Theorem bigcache_lookup_miss (env : LoadEnv) (c c' : BigCacheContext)
    (path : list Z) (new_fd addr : Z) (data : mem) (f : list Z)
    (off out0 : Z) :
  load_file env = LoadMapped new_fd addr data ->
  bigcache_load env (Some c) (Some path) = (0, Some c') ->
  (forall j, 0 <= j < h_num_pages (read_header data) ->
             record_matches data f (page_align off) j = false) ->
  exists c'',
    bigcache_lookup (Some c') (Some f) off = Returns (None, Some c'') /\
    bigcache_lookup_offset (Some c') (Some f) off (Some out0)
      = Returns (- ENOENT, Some out0, Some c'') /\
    miss_count c'' = (miss_count c' + 1) mod 2 ^ 64 /\
    hit_count c'' = hit_count c' /\
    total_bytes_served c'' = total_bytes_served c' /\
    keeps_mapping c' c''.
Proof.
  intros Hfile Hload Hnone.
  destruct (loaded_table_find env c c' path new_fd addr data Hfile Hload)
    as (t & Htab & Hloaded & _ & Hmiss & _).
  unfold bigcache_lookup, bigcache_lookup_offset.
  rewrite Hloaded, Htab, (Hmiss f (page_align off) Hnone).
  eexists. split; [reflexivity|]. split; [reflexivity|].
  unfold keeps_mapping. cbn. repeat split; reflexivity.
Qed.

(** The fourth page of [path_a], which the sample bundle does not hold:
    the first miss of the sample context. *)
Lemma bigcache_lookup_miss_witness :
  exists c'',
    bigcache_lookup (Some sample_ctx) (Some path_a) 12300
      = Returns (None, Some c'') /\
    bigcache_lookup_offset (Some sample_ctx) (Some path_a) 12300 (Some 0)
      = Returns (- ENOENT, Some 0, Some c'') /\
    miss_count c'' = (miss_count sample_ctx + 1) mod 2 ^ 64 /\
    hit_count c'' = hit_count sample_ctx /\
    total_bytes_served c'' = total_bytes_served sample_ctx /\
    keeps_mapping sample_ctx c''.
Proof.
  apply (bigcache_lookup_miss (load_env sample_bundle) bigcache_create
           sample_ctx out_bin 3 0x7f0000000000 sample_bundle path_a
           12300 0).
  - reflexivity.
  - vm_compute. reflexivity.
  - assert (Hn : h_num_pages (read_header sample_bundle) = 3)
      by (vm_compute; reflexivity).
    rewrite Hn. intros j Hj.
    assert (Hj' : j = 0 \/ j = 1 \/ j = 2) by lia.
    destruct Hj' as [-> | [-> | ->]]; vm_compute; reflexivity.
Defined.
(** X14.  Among page records that carry the same key the last one
    answers: after a successful load, a lookup of the key of record [i]
    that no later record carries returns the page of record [i], at
    [data_offset + 4096 i], whatever earlier records say. *)
Theorem bigcache_lookup_last_record (env : LoadEnv)
    (c c' : BigCacheContext) (path : list Z) (new_fd addr : Z) (data : mem)
    (i : Z) (f : list Z) (off out0 : Z) :
  load_file env = LoadMapped new_fd addr data ->
  bigcache_load env (Some c) (Some path) = (0, Some c') ->
  0 <= i < h_num_pages (read_header data) ->
  record_matches data f (page_align off) i = true ->
  (forall j, i < j < h_num_pages (read_header data) ->
             record_matches data f (page_align off) j = false) ->
  bigcache_lookup_offset (Some c') (Some f) off (Some out0)
    = Returns (0,
               Some (u64 (h_data_offset (read_header data) + i * PAGE_SIZE)),
               Some (count_hit c')) /\
  bigcache_lookup (Some c') (Some f) off
    = Returns (Some (addr
                     + u64 (h_data_offset (read_header data)
                            + i * PAGE_SIZE)),
               Some (count_served (count_hit c'))).
Proof.
  intros Hfile Hload Hi Hm Hafter.
  destruct (loaded_table_find env c c' path new_fd addr data Hfile Hload)
    as (t & Htab & Hloaded & Haddr & _ & Hhit).
  unfold bigcache_lookup, bigcache_lookup_offset.
  rewrite Hloaded, Htab, (Hhit f (page_align off) i Hi Hm Hafter), Haddr.
  split; reflexivity.
Qed.

(** The bundle with two records for page 0 of [path_a]: the second
    answers. *)
Lemma bigcache_lookup_last_record_witness :
  bigcache_lookup_offset (Some (ctx_after twice_bundle)) (Some path_a) 100
    (Some 0)
    = Returns (0,
               Some (u64 (h_data_offset (read_header twice_bundle)
                          + 1 * PAGE_SIZE)),
               Some (count_hit (ctx_after twice_bundle))) /\
  bigcache_lookup (Some (ctx_after twice_bundle)) (Some path_a) 100
    = Returns (Some (0x7f0000000000
                     + u64 (h_data_offset (read_header twice_bundle)
                            + 1 * PAGE_SIZE)),
               Some (count_served (count_hit (ctx_after twice_bundle)))).
Proof.
  assert (Hn : h_num_pages (read_header twice_bundle) = 3)
    by (vm_compute; reflexivity).
  apply (bigcache_lookup_last_record (load_env twice_bundle) bigcache_create
           (ctx_after twice_bundle) out_bin 3 0x7f0000000000 twice_bundle
           1 path_a 100 0).
  - reflexivity.
  - vm_compute. reflexivity.
  - rewrite Hn. lia.
  - vm_compute. reflexivity.
  - rewrite Hn. intros j Hj.
    assert (Hj' : j = 2) by lia.
    rewrite Hj'. vm_compute. reflexivity.
Defined.

(** X15.  [bigcache_load] on an unloaded context, for a file whose page
    records and the paths they name lie inside the mapping, either
    returns 0 and leaves the context loaded, from a file with the right
    magic and version, or leaves it unloaded with its hit and miss
    counters, so that every lookup is still refused. *)
Theorem bigcache_load_failure (env : LoadEnv) (c c' : BigCacheContext)
    (path : option (list Z)) (ret : Z) :
  load_reads_mapping env ->
  is_loaded c = 0 ->
  bigcache_load env (Some c) path = (ret, Some c') ->
  (ret = 0 /\ is_loaded c' = 1 /\ path <> None /\
   exists new_fd addr data,
     load_file env = LoadMapped new_fd addr data /\
     h_magic (read_header data) = BIGCACHE_MAGIC /\
     h_version (read_header data) = BIGCACHE_VERSION /\
     records_in_mapping data = true)
  \/
  (is_loaded c' = 0 /\ hit_count c' = hit_count c /\
   miss_count c' = miss_count c /\
   forall f off, bigcache_lookup (Some c') f off = Returns (None, Some c')).
Proof.
  intros Hmapped Hun Hload.
  assert (Hrefused : forall c1, is_loaded c1 = 0 ->
            forall f off,
              bigcache_lookup (Some c1) f off = Returns (None, Some c1)).
  { intros c1 H1 f off. unfold bigcache_lookup. rewrite H1.
    destruct f; reflexivity. }
  unfold bigcache_load in Hload. destruct path as [p|].
  2:{ inversion Hload; subst. right. repeat split; auto. }
  destruct (load_file env) as [errno|errno|errno st_size|new_fd addr data]
    eqn:Hfile.
  - inversion Hload; subst. right. repeat split; auto.
  - inversion Hload; subst. right. repeat split; auto.
  - inversion Hload; subst. right. repeat split; auto.
  - cbv zeta in Hload.
    cbn [header set_fd set_mapping set_header set_pointers set_lookup_table]
      in Hload.
    destruct (Z.eqb_spec (h_magic (read_header data)) BIGCACHE_MAGIC)
      as [Hmagic|]; cbn [negb] in Hload;
      [|inversion Hload; subst; right; repeat split; auto].
    destruct (Z.eqb_spec (h_version (read_header data)) BIGCACHE_VERSION)
      as [Hver|]; cbn [negb] in Hload;
      [|inversion Hload; subst; right; repeat split; auto].
    destruct (create_lookup_table (table_alloc_ok env)
                (h_num_pages (read_header data))) as [t0|];
      [|inversion Hload; subst; right; repeat split; auto].
    destruct (fill_lookup_table env data (read_header data)
                (Z.to_nat (h_num_pages (read_header data))) 0 t0)
      as [r t].
    destruct (r <? 0); inversion Hload; subst; clear Hload.
    + right. repeat split; auto.
    + left. repeat split; [discriminate|].
      exists new_fd, addr, data. repeat split; try assumption.
      exact (Hmapped new_fd addr data Hfile Hmagic Hver).
Qed.

(** A load of 88 zero bytes, refused for its magic: the context stays
    unloaded. *)
Lemma bigcache_load_failure_witness :
  fst (load_bundle (zeros 88)) = - EINVAL /\
  is_loaded (ctx_after (zeros 88)) = 0 /\
  hit_count (ctx_after (zeros 88)) = hit_count bigcache_create /\
  miss_count (ctx_after (zeros 88)) = miss_count bigcache_create /\
  forall f off,
    bigcache_lookup (Some (ctx_after (zeros 88))) f off
    = Returns (None, Some (ctx_after (zeros 88))).
Proof.
  split; [vm_compute; reflexivity|].
  destruct (bigcache_load_failure (load_env (zeros 88)) bigcache_create
              (ctx_after (zeros 88)) (Some out_bin) (- EINVAL))
    as [(Hret & _)|Hfail].
  - intros new_fd addr data Hfile Hmagic. exfalso.
    injection Hfile as _ _ <-. vm_compute in Hmagic. discriminate Hmagic.
  - reflexivity.
  - vm_compute. reflexivity.
  - vm_compute in Hret. discriminate Hret.
  - exact Hfail.
Defined.

Lemma drop_mem_read (m : mem) (a n : Z) (xs : list Z) :
  0 <= a -> 0 <= n -> mem_read m a n = xs ->
  Z.of_nat (length xs) = n ->
  drop (Z.to_nat a) m = xs ++ drop (Z.to_nat (a + n)) m.
Proof.
  intros Ha Hn Hread Hlen. unfold mem_read in Hread.
  rewrite <- (take_drop (Z.to_nat n) (drop (Z.to_nat a) m)) at 1.
  rewrite Hread, drop_drop. f_equal. f_equal. lia.
Qed.

(** The records of a bundle built from a well-formed packer, and the paths
    they name, lie inside the bundle. *)
Lemma packer_build_records_in_mapping (env : BuildEnv) (p : BigCachePacker)
    (out_path : list Z) (b : mem) :
  packer_wf p ->
  packer_in_range p ->
  build_output (packer_build env (Some p) (Some out_path)) = Some b ->
  records_in_mapping b = true.
Proof.
  intros Hwf Hr Hout. unfold records_in_mapping.
  apply forallb_forall. intros i Hi. apply in_record_ids in Hi.
  pose proof (packer_build_header env p out_path b Hr Hout) as Hh.
  rewrite Hh in Hi. cbn [h_num_pages] in Hi.
  destruct (packer_layout p Hr) as (Hio & Hfto & Hdo & Hdo' & _ & Htot & _).
  assert (Hlen : Z.of_nat (length b) = total_size p).
  { destruct (packer_build_output env p out_path b Hout) as (_ & Hb & _).
    rewrite Hb. unfold write_checksum, write_u32. rewrite length_mem_write.
    apply (length_after_pages env p Hr). }
  assert (Hentry : exists pe, entries p !! Z.to_nat i = Some pe).
  { apply lookup_lt_is_Some. unfold num_entries in Hi. lia. }
  destruct Hentry as [pe Hpe].
  destruct (packer_build_index_image env p out_path b _ pe Hwf Hr Hout Hpe)
    as (j & q & Hq & _ & Himg).
  rewrite Z2Nat.id in Himg by lia.
  pose proof (record_file_id_of_image b _ _ _ pe Himg) as Hid.
  pose proof (lookup_lt_Some _ _ _ Hq) as Hj.
  assert (Hfiles : num_files p <= MAX_FILES) by apply Hwf.
  unfold num_files, MAX_FILES in Hfiles.
  rewrite u32_small in Hid by lia.
  pose proof (packer_build_file_record env p out_path b j q Hr Hout Hq)
    as Hrec.
  unfold record_in_mapping. cbv zeta. rewrite Hid.
  apply andb_true_iff. split.
  - apply Z.leb_le. unfold page_record_at. rewrite Hh.
    cbn [h_index_offset]. change (sizeof BigCachePageIndex) with 20.
    unfold num_entries, num_files in *. lia.
  - field_offsets. rewrite Hh in *. cbn [h_file_table_offset] in *.
    set (slot := file_table_offset p + 532 * Z.of_nat j) in *.
    replace (file_table_offset p + Z.of_nat j * 532 + 20)
      with (slot + 20) by (subst slot; lia).
    assert (Hslot : 0 <= slot)
      by (subst slot; unfold num_entries in *; lia).
    unfold file_record_image in Hrec.
    rewrite !app_assoc in Hrec. rewrite <- app_assoc in Hrec.
    change 532 with (Z.of_nat 20 + 512) in Hrec.
    match type of Hrec with
    | mem_read _ _ _ = ?xs ++ _ =>
        replace (Z.of_nat 20) with (Z.of_nat (length xs)) in Hrec
          by (rewrite !length_app, !length_le_bytes; reflexivity)
    end.
    apply mem_read_suffix_of in Hrec; [|lia..].
    rewrite !length_app, !length_le_bytes in Hrec.
    change (Z.of_nat (4 + 4 + 4 + 8)) with 20 in Hrec.
    unfold mem_from.
    rewrite (drop_mem_read b (slot + 20) 512 _ ltac:(lia) ltac:(lia) Hrec).
    2:{ rewrite length_app, length_strncpy by (unfold MAX_PATH_LEN; lia).
        reflexivity. }
    rewrite existsb_app, existsb_app. cbn [existsb].
    rewrite Z.eqb_refl. cbn [orb]. rewrite orb_true_r. reflexivity.
Qed.

(** X16.  A bundle [packer_build] wrote from a well-formed packer has its
    page records, and the paths they name, inside the file, and it loads
    when memory is not short: [bigcache_load] returns 0 and leaves a
    loaded context over the bytes of the bundle, with the counts and the
    size the packer wrote and the counters the context had;
    [bigcache_verify] then returns 0. *)
Theorem packer_build_loads_and_verifies (benv : BuildEnv)
    (p : BigCachePacker) (out_path path : list Z) (b : mem) (env : LoadEnv)
    (c : BigCacheContext) (new_fd addr : Z) :
  packer_wf p ->
  packer_in_range p ->
  build_output (packer_build benv (Some p) (Some out_path)) = Some b ->
  load_file env = LoadMapped new_fd addr b ->
  table_alloc_ok env = true ->
  (forall k, entry_alloc_ok env k = true) ->
  records_in_mapping b = true /\
  exists c',
    bigcache_load env (Some c) (Some path) = (0, Some c') /\
    bigcache_verify (Some c') = 0 /\
    is_loaded c' = 1 /\ mapped c' = b /\ mapped_data c' = addr /\
    h_num_pages (header c') = num_entries p /\
    h_num_files (header c') = num_files p /\
    mapped_size c' = total_size p /\
    hit_count c' = hit_count c /\ miss_count c' = miss_count c.
Proof.
  intros Hwf Hr Hout Hfile Htab Hent.
  split; [exact (packer_build_records_in_mapping benv p out_path b Hwf Hr
                   Hout)|].
  destruct (bigcache_verify_built_bundle benv p out_path path b env c
              new_fd addr Hr Hout Hfile Htab Hent) as (c' & Hload & Hver).
  destruct (bigcache_load_success env c c' path new_fd addr b Hfile Hload)
    as (_ & _ & _ & _ & _ & _ & _ & Hloaded & Haddr & Hmap & Hh & Hsz & Hhit
        & Hmiss).
  exists c'. repeat split; try assumption.
  - rewrite Hh, (packer_build_header benv p out_path b Hr Hout). reflexivity.
  - rewrite Hh, (packer_build_header benv p out_path b Hr Hout). reflexivity.
  - rewrite Hsz.
    destruct (packer_build_output benv p out_path b Hout) as (_ & Hb & _).
    rewrite Hb. unfold write_checksum, write_u32. rewrite length_mem_write.
    apply (length_after_pages benv p Hr).
Qed.

(** The load of the sample bundle. *)
Lemma packer_build_loads_and_verifies_witness :
  records_in_mapping sample_bundle = true /\
  exists c',
    bigcache_load (load_env sample_bundle) (Some bigcache_create)
      (Some out_bin) = (0, Some c') /\
    bigcache_verify (Some c') = 0 /\
    is_loaded c' = 1 /\ mapped c' = sample_bundle /\
    mapped_data c' = 0x7f0000000000 /\
    h_num_pages (header c') = num_entries sample_packer /\
    h_num_files (header c') = num_files sample_packer /\
    mapped_size c' = total_size sample_packer /\
    hit_count c' = hit_count bigcache_create /\
    miss_count c' = miss_count bigcache_create.
Proof.
  apply (packer_build_loads_and_verifies sample_env sample_packer out_bin
           out_bin sample_bundle (load_env sample_bundle) bigcache_create
           3 0x7f0000000000).
  - exact sample_packer_wf.
  - exact sample_packer_in_range.
  - exact sample_build_output.
  - reflexivity.
  - reflexivity.
  - intros k. reflexivity.
Defined.
Lemma build_load_lookup_page (benv : BuildEnv) (p : BigCachePacker)
    (out_path : list Z) (b : mem) (env : LoadEnv) (c c' : BigCacheContext)
    (path : list Z) (new_fd addr : Z) (i : nat) (pe : PackerPageEntry)
    (f : list Z) (off : Z) :
  packer_wf p ->
  packer_in_range p ->
  build_output (packer_build benv (Some p) (Some out_path)) = Some b ->
  load_file env = LoadMapped new_fd addr b ->
  bigcache_load env (Some c) (Some path) = (0, Some c') ->
  entries p !! i = Some pe ->
  strcmp (pe_file_path pe) f = 0 ->
  page_align off = pe_offset pe ->
  bigcache_lookup (Some c') (Some f) off
  = Returns (Some (addr + (data_offset p + 4096 * Z.of_nat i)),
             Some (count_served (count_hit c'))) /\
  mem_read (mapped c') (data_offset p + 4096 * Z.of_nat i) 4096
  = page_image (source_fs benv) pe.
Proof.
  intros Hwf Hr Hout Hfile Hload Hi Hf Hoff.
  pose proof (packer_build_header benv p out_path b Hr Hout) as Hh.
  pose proof (packer_build_valid benv p out_path b Hwf Hr Hout) as Hvalid.
  destruct (packer_layout p Hr) as (Hio & Hfto & Hdo & Hdo' & _ & Htot & Hlt).
  assert (Hn0 : 0 <= num_entries p) by (unfold num_entries; lia).
  assert (Hf0 : 0 <= num_files p) by (unfold num_files; lia).
  pose proof (lookup_lt_Some _ _ _ Hi) as Hlt_i.
  assert (Hi' : 0 <= Z.of_nat i < num_entries p)
    by (unfold num_entries; lia).
  destruct (bigcache_load_success env c c' path new_fd addr b Hfile Hload)
    as (_ & _ & _ & _ & _ & _ & _ & Hloaded & Haddr & Hmapped & _).
  destruct (bigcache_load_table env c c' path new_fd addr b Hfile Hload)
    as (t & Htab & _ & _ & Hfind).
  destruct (packer_build_index_record benv p out_path b i pe Hr Hout Hi)
    as [Hso _].
  assert (Hal : pe_offset pe = page_align (pe_offset pe)).
  { destruct Hwf as (Hall & _). rewrite Forall_forall in Hall.
    destruct (Hall pe) as (Hal & _);
      [eapply list_elem_of_lookup_2; exact Hi|exact Hal]. }
  rewrite u64_small in Hso by (rewrite Hal; apply page_align_range).
  pose proof (packer_build_record_path benv p out_path b i pe Hwf Hr Hout Hi)
    as Hpath.
  assert (Hrp : strcmp (record_path b (read_header b) (Z.of_nat i)) f = 0).
  { apply strcmp_eq. apply strcmp_eq in Hf. congruence. }
  pose proof (valid_bundle_find b (Z.of_nat i) f Hvalid
                ltac:(rewrite Hh; cbn [h_num_pages]; lia) Hrp) as Hentry.
  rewrite Hso in Hentry. split.
  - unfold bigcache_lookup. rewrite Hloaded, Htab, Hoff, Hfind, Hentry, Haddr.
    change (1 =? 0) with false. cbv iota.
    unfold loaded_entry. cbn [bigcache_offset]. rewrite Hh.
    cbn [h_data_offset]. rewrite u64_small by (unfold PAGE_SIZE; lia).
    unfold PAGE_SIZE. do 4 f_equal. lia.
  - rewrite Hmapped.
    pose proof (packer_build_page_image benv p out_path b i pe Hr Hout Hi)
      as Himg.
    rewrite Hh in Himg. cbn [h_data_offset] in Himg.
    unfold PAGE_SIZE in Himg at 1 2.
    rewrite <- Himg. f_equal. lia.
Qed.

(** X17.  From the packer to the lookup: after a build from a well-formed
    packer and a load of the bundle, a lookup of an entry's file at any
    offset inside the entry's page is a hit.  It returns the address of
    page [i] of the data region, adds one to [hit_count] and 4096 to
    [total_bytes_served] (both modulo 2^64) and leaves [miss_count] and
    the rest of the context as they were.  The 4096 bytes at that address
    are the page image the build stored for the entry: the page of the
    source file when it was read in full. *)
Theorem build_load_lookup (benv : BuildEnv) (p : BigCachePacker)
    (out_path : list Z) (b : mem) (env : LoadEnv) (c c' : BigCacheContext)
    (path : list Z) (new_fd addr : Z) (i : nat) (pe : PackerPageEntry)
    (f : list Z) (off : Z) :
  packer_wf p ->
  packer_in_range p ->
  build_output (packer_build benv (Some p) (Some out_path)) = Some b ->
  load_file env = LoadMapped new_fd addr b ->
  bigcache_load env (Some c) (Some path) = (0, Some c') ->
  entries p !! i = Some pe ->
  strcmp (pe_file_path pe) f = 0 ->
  page_align off = pe_offset pe ->
  exists c'',
    bigcache_lookup (Some c') (Some f) off
      = Returns (Some (addr + (data_offset p + 4096 * Z.of_nat i)),
                 Some c'') /\
    hit_count c'' = (hit_count c' + 1) mod 2 ^ 64 /\
    total_bytes_served c'' = (total_bytes_served c' + 4096) mod 2 ^ 64 /\
    miss_count c'' = miss_count c' /\
    keeps_mapping c' c'' /\
    mem_read (mapped c'') (data_offset p + 4096 * Z.of_nat i) 4096
      = page_image (source_fs benv) pe.
Proof.
  intros Hwf Hr Hout Hfile Hload Hi Hs Hal.
  destruct (build_load_lookup_page benv p out_path b env c c' path new_fd
              addr i pe f off Hwf Hr Hout Hfile Hload Hi Hs Hal)
    as [Hlook Himg].
  eexists. split; [exact Hlook|].
  unfold keeps_mapping. cbn. repeat split; try reflexivity. exact Himg.
Qed.

(** A lookup inside the second page of [path_a] after the sample build and
    load: the first hit of the sample context. *)
Lemma build_load_lookup_witness :
  exists c'',
    bigcache_lookup (Some sample_ctx) (Some path_a) 5000
      = Returns (Some (0x7f0000000000
                       + (data_offset sample_packer + 4096 * Z.of_nat 1)),
                 Some c'') /\
    hit_count c'' = (hit_count sample_ctx + 1) mod 2 ^ 64 /\
    total_bytes_served c''
      = (total_bytes_served sample_ctx + 4096) mod 2 ^ 64 /\
    miss_count c'' = miss_count sample_ctx /\
    keeps_mapping sample_ctx c'' /\
    mem_read (mapped c'')
      (data_offset sample_packer + 4096 * Z.of_nat 1) 4096
      = page_image (source_fs sample_env) (sample_entry 1).
Proof.
  apply (build_load_lookup sample_env sample_packer out_bin sample_bundle
           (load_env sample_bundle) bigcache_create sample_ctx out_bin
           3 0x7f0000000000 1 (sample_entry 1) path_a 5000).
  - exact sample_packer_wf.
  - exact sample_packer_in_range.
  - exact sample_build_output.
  - reflexivity.
  - vm_compute. reflexivity.
  - vm_compute. reflexivity.
  - vm_compute. reflexivity.
  - vm_compute. reflexivity.
Defined.
Lemma touch_pages_multiples (turns : nat) (k n : Z) :
  0 <= k <= n -> n * 4096 < 2 ^ 64 ->
  (Z.to_nat (n - k) <= turns)%nat ->
  touch_pages turns (k * 4096) (n * 4096)
  = map (fun j => (k + Z.of_nat j) * 4096) (seq 0 (Z.to_nat (n - k))).
Proof.
  revert k. induction turns as [|turns IH]; intros k Hk Hn Hturns.
  - replace (Z.to_nat (n - k)) with 0%nat by lia. reflexivity.
  - cbn [touch_pages].
    destruct (Z.ltb_spec (k * 4096) (n * 4096)) as [Hlt|Hge].
    + replace (Z.to_nat (n - k)) with (S (Z.to_nat (n - (k + 1)))) by lia.
      cbn [seq map]. rewrite Z.add_0_r. f_equal.
      unfold PAGE_SIZE. rewrite size_t_small by lia.
      replace (k * 4096 + 4096) with ((k + 1) * 4096) by lia.
      rewrite IH by lia. rewrite <- seq_shift, map_map.
      apply map_ext. intros j. f_equal. lia.
    + replace (Z.to_nat (n - k)) with 0%nat by lia. reflexivity.
Qed.

(** The pages a preheating of [n] pages reads lie in the mapping exactly
    when the last one does. *)
Lemma read_pages_in_mapping (m : mem) (start n : Z) :
  0 <= start -> 0 < n ->
  is_Some
    (mapM (fun i => mem_from m start !! Z.to_nat i)
       (map (fun j => (0 + Z.of_nat j) * 4096) (seq 0 (Z.to_nat n))))
  <-> start + (n - 1) * 4096 < Z.of_nat (length m).
Proof.
  intros Hs Hn. rewrite mapM_is_Some, Forall_forall. unfold mem_from. split.
  - intros H.
    specialize (H ((0 + Z.of_nat (Z.to_nat (n - 1))) * 4096)).
    assert (Hin : (0 + Z.of_nat (Z.to_nat (n - 1))) * 4096
                  ∈ map (fun j => (0 + Z.of_nat j) * 4096)
                      (seq 0 (Z.to_nat n))).
    { apply list_elem_of_fmap. exists (Z.to_nat (n - 1)).
      split; [reflexivity|]. apply list_elem_of_In, in_seq. lia. }
    specialize (H Hin). cbn [compose] in H.
    apply lookup_lt_is_Some in H. rewrite length_drop in H. lia.
  - intros Hlast i Hi. apply list_elem_of_fmap in Hi as (j & -> & Hj).
    apply list_elem_of_In, in_seq in Hj. cbn [compose].
    apply lookup_lt_is_Some. rewrite length_drop. lia.
Qed.

(** X18.  [bigcache_preheat_range] on a loaded context returns [-EINVAL]
    unless [start_order < end_order <= num_pages].  Otherwise it reads one
    byte of each page of the range, in order, at [data_offset + 4096 k]
    for [start_order <= k < end_order], and of no other page; it returns
    0 when the last of these bytes lies in the mapping, and reads outside
    the mapping when it does not.  The access orders stored in the records
    play no part. *)
Theorem bigcache_preheat_range_pages (c : BigCacheContext)
    (start_order end_order : Z) :
  is_loaded c <> 0 ->
  0 <= h_num_pages (header c) < 2 ^ 32 ->
  0 <= h_data_offset (header c) ->
  h_data_offset (header c) + h_num_pages (header c) * 4096 < 2 ^ 64 ->
  0 <= start_order ->
  bigcache_preheat_range (Some c) start_order end_order
  = if (start_order <? end_order) && (end_order <=? h_num_pages (header c))
    then
      if h_data_offset (header c) + (end_order - 1) * 4096
         <? Z.of_nat (length (mapped c))
      then
        Reads (0, map (fun j => h_data_offset (header c)
                                + (start_order + Z.of_nat j) * 4096)
                    (seq 0 (Z.to_nat (end_order - start_order))))
      else OutsideMapping
    else Reads (- EINVAL, []).
Proof.
  intros Hloaded Hn Hdo Hfit Hs. unfold bigcache_preheat_range.
  destruct (Z.eqb_spec (is_loaded c) 0) as [|_]; [contradiction|].
  destruct (Z.ltb_spec start_order end_order) as [Hlt|Hge];
    destruct (Z.leb_spec end_order (h_num_pages (header c))) as [Hle|Hgt];
    cbn [andb].
  - destruct (Z.geb_spec start_order (h_num_pages (header c))); [lia|].
    destruct (Z.gtb_spec end_order (h_num_pages (header c))); [lia|].
    destruct (Z.geb_spec start_order end_order); [lia|].
    cbn [orb]. cbv zeta. unfold PAGE_SIZE.
    rewrite (size_t_small (start_order * 4096)) by lia.
    rewrite (size_t_small (end_order * 4096)) by lia.
    rewrite (size_t_small (h_data_offset (header c) + start_order * 4096))
      by lia.
    rewrite (size_t_small (h_data_offset (header c) + end_order * 4096))
      by lia.
    replace (h_data_offset (header c) + end_order * 4096
             - (h_data_offset (header c) + start_order * 4096))
      with ((end_order - start_order) * 4096) by lia.
    rewrite size_t_small by lia.
    rewrite Z.div_mul by lia.
    change (touch_pages ?t 0 ?l) with (touch_pages t (0 * 4096) l).
    rewrite touch_pages_multiples by lia.
    rewrite Z.sub_0_r.
    pose proof (read_pages_in_mapping (mapped c)
                  (h_data_offset (header c) + start_order * 4096)
                  (end_order - start_order) ltac:(lia) ltac:(lia)) as Hread.
    destruct (mapM _ _) as [bytes|].
    + destruct (Z.ltb_spec
                  (h_data_offset (header c) + (end_order - 1) * 4096)
                  (Z.of_nat (length (mapped c)))) as [_|Hout].
      * rewrite map_map. f_equal. f_equal.
        apply map_ext. intros j. lia.
      * exfalso. assert (Hsome : is_Some (Some bytes)) by (eexists; eauto).
        apply Hread in Hsome. lia.
    + destruct (Z.ltb_spec
                  (h_data_offset (header c) + (end_order - 1) * 4096)
                  (Z.of_nat (length (mapped c)))) as [Hin|_];
        [|reflexivity].
      exfalso. assert (Hnone : is_Some (@None (list Z))).
      { apply Hread. lia. }
      destruct Hnone as [x Hx]. discriminate.
  - destruct (Z.geb_spec start_order (h_num_pages (header c)));
      [reflexivity|].
    destruct (Z.gtb_spec end_order (h_num_pages (header c))); [|lia].
    reflexivity.
  - destruct (Z.geb_spec start_order (h_num_pages (header c)));
      [reflexivity|].
    destruct (Z.gtb_spec end_order (h_num_pages (header c)));
      [reflexivity|].
    destruct (Z.geb_spec start_order end_order); [reflexivity|lia].
  - destruct (Z.geb_spec start_order (h_num_pages (header c)));
      [reflexivity|].
    destruct (Z.gtb_spec end_order (h_num_pages (header c)));
      [reflexivity|lia].
Qed.

(** Preheating pages 1 and 2 of the sample bundle, whose three pages lie
    in the mapping; and preheating the first page of the bundle that is
    cut where its data region starts. *)
Lemma bigcache_preheat_range_pages_witness :
  bigcache_preheat_range (Some sample_ctx) 1 3 = Reads (0, [8192; 12288]) /\
  is_loaded (ctx_after metadata_683) = 1 /\
  bigcache_preheat_range (Some (ctx_after metadata_683)) 0 1
    = OutsideMapping.
Proof.
  split; [|split; [vm_compute; reflexivity|]].
  - assert (Hn : h_num_pages (header sample_ctx) = 3)
      by (vm_compute; reflexivity).
    assert (Hd : h_data_offset (header sample_ctx) = 4096)
      by (vm_compute; reflexivity).
    rewrite (bigcache_preheat_range_pages sample_ctx 1 3).
    + vm_compute. reflexivity.
    + vm_compute. discriminate.
    + rewrite Hn. lia.
    + rewrite Hd. lia.
    + rewrite Hn, Hd. lia.
    + lia.
  - assert (Hn : h_num_pages (header (ctx_after metadata_683)) = 683)
      by (vm_compute; reflexivity).
    assert (Hd : h_data_offset (header (ctx_after metadata_683)) = 16384)
      by (vm_compute; reflexivity).
    rewrite (bigcache_preheat_range_pages (ctx_after metadata_683) 0 1).
    + vm_compute. reflexivity.
    + vm_compute. discriminate.
    + rewrite Hn. lia.
    + rewrite Hd. lia.
    + rewrite Hn, Hd. lia.
    + lia.
Defined.
(* ================================================================== *)
(** * Regions and mappings of the handler *)

Lemma page_round_up_div (size : Z) :
  0 <= size <= 2 ^ 64 - 4096 ->
  page_round_up size = 4096 * ((size + 4095) / 4096).
Proof.
  intros Hs. unfold page_round_up.
  change (Z.land ?x (size_t (Z.lnot (PAGE_SIZE - 1)))) with (page_align x).
  rewrite page_align_div. unfold PAGE_SIZE.
  rewrite size_t_small by lia. rewrite Z.mod_small by lia.
  f_equal. f_equal. lia.
Qed.

Lemma page_round_up_bounds (size : Z) :
  0 <= size <= 2 ^ 64 - 4096 ->
  page_round_up size mod 4096 = 0 /\
  size <= page_round_up size < size + 4096.
Proof.
  intros Hs. rewrite page_round_up_div by exact Hs.
  pose proof (Z.div_mod (size + 4095) 4096 ltac:(lia)) as Hdm.
  pose proof (Z.mod_pos_bound (size + 4095) 4096 ltac:(lia)) as Hmb.
  split; [|lia]. rewrite Z.mul_comm. apply Z.mod_mul. lia.
Qed.

Lemma remove_region_spec (rs rest : list MemoryRegion) (addr : Z) :
  remove_region rs addr = Some rest <->
  exists pre region post,
    rs = pre ++ region :: post /\ rest = pre ++ post /\
    base region = addr /\ Forall (fun r => base r <> addr) pre.
Proof.
  revert rest. induction rs as [|r rs IH]; intros rest; cbn [remove_region].
  - split; [discriminate|]. intros (pre & region & post & H & _).
    destruct pre; discriminate.
  - destruct (Z.eqb_spec (base r) addr) as [Hb|Hb].
    + split.
      * intros H. inversion H; subst. exists [], r, rest.
        repeat split. constructor.
      * intros (pre & region & post & H & -> & Hr & Hpre).
        destruct pre as [|a pre].
        -- cbn in H. inversion H; subst. reflexivity.
        -- cbn in H. inversion H; subst. inversion Hpre; subst.
           contradiction.
    + destruct (remove_region rs addr) as [rest'|] eqn:Hrem.
      * split.
        -- intros H. inversion H; subst.
           destruct (proj1 (IH rest') eq_refl)
             as (pre & region & post & -> & -> & Hr & Hpre).
           exists (r :: pre), region, post. repeat split; try assumption.
           constructor; assumption.
        -- intros (pre & region & post & H & -> & Hr & Hpre).
           destruct pre as [|a pre]; cbn in H; inversion H; subst;
             [contradiction|].
           inversion Hpre; subst. f_equal. cbn. f_equal.
           assert (Some rest' = Some (pre ++ post)); [|congruence].
           apply IH. exists pre, region, post. repeat split; assumption.
      * split; [discriminate|].
        intros (pre & region & post & H & -> & Hr & Hpre).
        destruct pre as [|a pre]; cbn in H; inversion H; subst;
          [contradiction|].
        inversion Hpre; subst.
        assert (None = Some (pre ++ post)); [|discriminate].
        apply IH. exists pre, region, post. repeat split; assumption.
Qed.

Lemma remove_region_none (rs : list MemoryRegion) (addr : Z) :
  remove_region rs addr = None <-> Forall (fun r => base r <> addr) rs.
Proof.
  induction rs as [|r rs IH]; cbn [remove_region].
  - split; [constructor|reflexivity].
  - destruct (Z.eqb_spec (base r) addr) as [Hb|Hb].
    + split; [discriminate|]. intros H. inversion H; subst. contradiction.
    + destruct (remove_region rs addr) as [rest|].
      * split; [discriminate|]. intros H. inversion H; subst.
        assert (Some rest = None); [|discriminate].
        apply IH; assumption.
      * split; [|reflexivity]. intros _. constructor; [exact Hb|].
        apply IH. reflexivity.
Qed.

Section RegionFacts.

Variable double : Type.

Lemma set_regions_same (h : UffdHandler double) :
  set_regions double (regions h) (num_regions h) h = h.
Proof. destruct h. reflexivity. Qed.

(** X19.  [uffd_handler_register_region] either leaves the handler as it
    was, or returns 0 for a non-null page-aligned address and a non-zero
    size after linking in, at the head of the list, one region with that
    base, a copy of the path and the given file offset, whose size (for
    a given size of at most 2^64 - 4096) is the given one rounded up to a
    multiple of 4096. *)
Theorem uffd_register_region_result (env : RegisterEnv)
    (h : UffdHandler double) (addr len : Z) (path : list Z)
    (fob : Z) :
  let r := uffd_handler_register_region double env (Some h) addr len
             (Some path) fob in
  snd r = Some h \/
  (fst r = 0 /\ addr <> 0 /\ addr mod 4096 = 0 /\ len <> 0 /\
   exists region,
     snd r = Some (set_regions double (region :: regions h)
                     (num_regions h + 1) h) /\
     base region = addr /\
     region_file_path region = cstr path /\
     file_offset_base region = fob /\
     (0 <= len <= 2 ^ 64 - 4096 ->
      size region mod 4096 = 0 /\
      len <= size region < len + 4096)).
Proof.
  cbv zeta. unfold uffd_handler_register_region.
  destruct (Z.eqb_spec addr 0) as [|Ha]; [left; reflexivity|].
  destruct (Z.eqb_spec len 0) as [|Hs]; [left; reflexivity|].
  cbn [orb].
  destruct (Z.eqb_spec (addr mod PAGE_SIZE) 0) as [Hal|];
    [|left; reflexivity].
  cbn [negb].
  destruct (region_calloc_ok env); [|left; reflexivity].
  destruct (region_strdup_ok env); [|left; reflexivity].
  cbn [negb].
  destruct (register_errno env); [left; reflexivity|].
  right. cbn [fst snd]. repeat split; try assumption.
  eexists. split; [reflexivity|]. cbn [base region_file_path file_offset_base
    size].
  repeat split.
  - destruct (Z.eqb_spec (len mod PAGE_SIZE) 0) as [Hm|Hm]; cbn [negb].
    + exact Hm.
    + apply page_round_up_bounds. assumption.
  - destruct (Z.eqb_spec (len mod PAGE_SIZE) 0) as [Hm|Hm]; cbn [negb].
    + lia.
    + apply page_round_up_bounds. assumption.
  - destruct (Z.eqb_spec (len mod PAGE_SIZE) 0) as [Hm|Hm]; cbn [negb].
    + lia.
    + apply page_round_up_bounds. assumption.
Qed.

End RegionFacts.

Section RegionFacts2.

Variable double : Type.

Lemma register_region_success (env : RegisterEnv) (h h' : UffdHandler double)
    (addr len : Z) (path : list Z) (fob : Z) :
  register_errno env = None ->
  uffd_handler_register_region double env (Some h) addr len (Some path) fob
    = (0, Some h') ->
  addr <> 0 /\ addr mod 4096 = 0 /\ len <> 0 /\
  h' = set_regions double
         ({| base := addr;
             size :=
               if negb (len mod PAGE_SIZE =? 0) then page_round_up len
               else len;
             region_file_path := strdup path;
             file_offset_base := fob;
             prot := 0 |} :: regions h)
         (num_regions h + 1) h.
Proof.
  intros Herr. unfold uffd_handler_register_region.
  destruct (Z.eqb_spec addr 0) as [|Ha]; [discriminate|].
  destruct (Z.eqb_spec len 0) as [|Hs]; [discriminate|].
  cbn [orb].
  destruct (Z.eqb_spec (addr mod PAGE_SIZE) 0) as [Hal|]; [|discriminate].
  cbn [negb].
  destruct (region_calloc_ok env); [|discriminate].
  destruct (region_strdup_ok env); [|discriminate].
  cbn [negb]. rewrite Herr. intros H. inversion H; subst; clear H.
  repeat split; assumption.
Qed.

(** X20.  After a successful registration [_uffd_find_region] finds the
    new region for every address inside it, also where an older region
    covers the address, and what it found before for every other
    address. *)
Theorem uffd_registered_region_found (env : RegisterEnv)
    (h h' : UffdHandler double) (addr len : Z) (path : list Z) (fob : Z) :
  register_errno env = None ->
  uffd_handler_register_region double env (Some h) addr len (Some path) fob
    = (0, Some h') ->
  0 <= addr -> 0 <= len -> addr + len <= 2 ^ 64 - 4096 ->
  exists region,
    regions h' = region :: regions h /\
    base region = addr /\
    region_file_path region = cstr path /\
    file_offset_base region = fob /\
    size region mod 4096 = 0 /\
    len <= size region < len + 4096 /\
    forall a,
      _uffd_find_region double h' a =
      if (addr <=? a) && (a <? addr + size region)
      then Some region else _uffd_find_region double h a.
Proof.
  intros Herr Hreg Haddr Hsize Hfit.
  destruct (register_region_success env h h' addr len path fob Herr Hreg)
    as (Ha & Hal & Hs & ->).
  eexists. split; [reflexivity|].
  cbn [base region_file_path file_offset_base size].
  set (len' := if negb (len mod PAGE_SIZE =? 0) then page_round_up len
                else len).
  assert (Hsz : len' mod 4096 = 0 /\ len <= len' < len + 4096).
  { subst len'.
    destruct (Z.eqb_spec (len mod PAGE_SIZE) 0) as [Hm|Hm]; cbn [negb].
    - split; [exact Hm|lia].
    - apply page_round_up_bounds. lia. }
  repeat split; try (apply Hsz).
  intros a. unfold _uffd_find_region, set_regions. cbn [regions find_region].
  cbn [base size]. rewrite u64_small by lia. reflexivity.
Qed.

(** X21.  Registering a region and then unregistering its address gives
    the handler back as it was. *)
Theorem uffd_register_unregister (env : RegisterEnv)
    (h h' : UffdHandler double) (addr len : Z) (path : list Z) (fob : Z) :
  register_errno env = None ->
  uffd_handler_register_region double env (Some h) addr len (Some path) fob
    = (0, Some h') ->
  uffd_handler_unregister_region double (Some h') addr = (0, Some h).
Proof.
  intros Herr Hreg.
  destruct (register_region_success env h h' addr len path fob Herr Hreg)
    as (Ha & Hal & Hs & ->).
  unfold uffd_handler_unregister_region.
  destruct (Z.eqb_spec addr 0) as [|_]; [contradiction|].
  unfold set_regions. cbn [regions remove_region base].
  rewrite Z.eqb_refl. f_equal. f_equal.
  destruct h. cbn. f_equal. lia.
Qed.

(** X22.  [uffd_handler_unregister_region] of a non-null address removes
    the first region based at that address and only that one, keeping the
    order of the others, and returns 0; when no region is based there it
    returns [-ENOENT] and changes nothing.  An address inside a region
    that is not its base is not found. *)
Theorem uffd_unregister_region_result (h : UffdHandler double) (addr : Z) :
  addr <> 0 ->
  (Forall (fun r => base r <> addr) (regions h) ->
   uffd_handler_unregister_region double (Some h) addr
     = (- ENOENT, Some h)) /\
  (forall pre region post,
     regions h = pre ++ region :: post ->
     base region = addr ->
     Forall (fun r => base r <> addr) pre ->
     uffd_handler_unregister_region double (Some h) addr
       = (0, Some (set_regions double (pre ++ post)
                     (num_regions h - 1) h))).
Proof.
  intros Ha. unfold uffd_handler_unregister_region.
  destruct (Z.eqb_spec addr 0) as [|_]; [contradiction|]. split.
  - intros Hnone. apply remove_region_none in Hnone. rewrite Hnone.
    reflexivity.
  - intros pre region post Hrs Hb Hpre.
    assert (Hrem : remove_region (regions h) addr = Some (pre ++ post)).
    { apply remove_region_spec. exists pre, region, post.
      repeat split; assumption. }
    rewrite Hrem. reflexivity.
Qed.

Lemma page_round_up_aligned (len : Z) :
  (page_round_up len mod PAGE_SIZE =? 0) = true.
Proof.
  apply Z.eqb_eq. unfold page_round_up.
  change (Z.land ?x (size_t (Z.lnot (PAGE_SIZE - 1)))) with (page_align x).
  rewrite page_align_div. unfold PAGE_SIZE.
  rewrite Z.mul_comm. apply Z.mod_mul. lia.
Qed.

(** The two outcomes of [uffd_handler_create_mapping]. *)
Lemma create_mapping_cases (mm : Z) (env : RegisterEnv)
    (h : UffdHandler double) (len : Z) (path : list Z) (fob prot : Z) :
  (forall e, register_errno env = Some e -> 0 < e) ->
  let r := uffd_handler_create_mapping double mm env (Some h) len
             (Some path) fob prot in
  (fst r = MAP_FAILED /\ snd r = Some h) \/
  (fst r = mm /\ mm <> MAP_FAILED /\ mm <> 0 /\ mm mod 4096 = 0 /\
   len <> 0 /\ page_round_up len <> 0 /\
   snd r = Some (set_regions double
                   ({| base := mm;
                       size := page_round_up len;
                       region_file_path := strdup path;
                       file_offset_base := fob;
                       prot := 0 |} :: regions h)
                   (num_regions h + 1) h)).
Proof.
  intros Herrno. cbv zeta. unfold uffd_handler_create_mapping.
  destruct (Z.eqb_spec len 0) as [|Hs]; [left; split; reflexivity|].
  destruct (Z.eqb_spec mm MAP_FAILED) as [|Hmm]; [left; split; reflexivity|].
  unfold uffd_handler_register_region.
  destruct (Z.eqb_spec mm 0) as [|Ha]; [left; split; reflexivity|].
  destruct (Z.eqb_spec (page_round_up len) 0) as [|Hs'];
    [left; split; reflexivity|].
  cbn [orb].
  destruct (Z.eqb_spec (mm mod PAGE_SIZE) 0) as [Hal|];
    [|left; split; reflexivity].
  cbn [negb]. rewrite page_round_up_aligned. cbn [negb].
  destruct (region_calloc_ok env); [|left; split; reflexivity].
  destruct (region_strdup_ok env); [|left; split; reflexivity].
  cbn [negb].
  destruct (register_errno env) as [e|] eqn:He.
  - specialize (Herrno e eq_refl).
    destruct (Z.ltb_spec (- e) 0); [|lia]. left; split; reflexivity.
  - right. cbn [fst snd]. repeat split; assumption.
Qed.

End RegionFacts2.

Section MappingFacts.

Variable double : Type.

(** X23.  [uffd_handler_create_mapping] either returns [MAP_FAILED] and
    leaves the handler as it was, or returns the address of the anonymous
    mapping after linking in one region that starts there, has the size
    rounded up to whole pages, the given file and offset, and a zero
    [prot] (the argument is not stored).
    [uffd_handler_destroy_mapping] of that address then gives the handler
    back as it was and returns what [munmap] returned. *)
Theorem uffd_create_destroy_mapping (mm : Z) (env : RegisterEnv)
    (h : UffdHandler double) (len : Z) (path : list Z) (fob pr : Z) :
  (forall e, register_errno env = Some e -> 0 < e) ->
  let r := uffd_handler_create_mapping double mm env (Some h) len
             (Some path) fob pr in
  (fst r = MAP_FAILED /\ snd r = Some h) \/
  (fst r = mm /\ mm <> MAP_FAILED /\ mm <> 0 /\ mm mod 4096 = 0 /\
   len <> 0 /\ page_round_up len <> 0 /\
   snd r = Some (set_regions double
                   ({| base := mm;
                       size := page_round_up len;
                       region_file_path := strdup path;
                       file_offset_base := fob;
                       prot := 0 |} :: regions h)
                   (num_regions h + 1) h) /\
   forall munmap_result len',
     uffd_handler_destroy_mapping double munmap_result (snd r) mm len'
     = (munmap_result, Some h)).
Proof.
  intros Herrno. cbv zeta.
  destruct (create_mapping_cases double mm env h len path fob pr Herrno)
    as [Hfail|(Hret & Hmm & Ha & Hal & Hs & Hs' & Hsnd)];
    [left; exact Hfail|].
  right. repeat split; try assumption.
  intros munmap_result len'. rewrite Hsnd.
  unfold uffd_handler_destroy_mapping, uffd_handler_unregister_region.
  destruct (Z.eqb_spec mm 0) as [|_]; [contradiction|].
  unfold set_regions. cbn [regions remove_region base snd].
  rewrite Z.eqb_refl. cbn [snd]. f_equal. f_equal.
  destruct h. cbn. f_equal. lia.
Qed.

End MappingFacts.

(** The registration of 5000 bytes at 0x40000 with the sample handler. *)
Lemma uffd_registered_region_found_witness :
  exists region,
    regions sample_registered = region :: regions (sample_handler [sample_region]) /\
    base region = 0x40000 /\
    region_file_path region = cstr path_missing /\
    file_offset_base region = 4096 /\
    size region mod 4096 = 0 /\
    5000 <= size region < 5000 + 4096 /\
    forall a,
      _uffd_find_region Z sample_registered a =
      if (0x40000 <=? a) && (a <? 0x40000 + size region)
      then Some region
      else _uffd_find_region Z (sample_handler [sample_region]) a.
Proof.
  apply (uffd_registered_region_found Z register_succeeds
           (sample_handler [sample_region]) sample_registered
           0x40000 5000 path_missing 4096).
  - reflexivity.
  - vm_compute. reflexivity.
  - lia.
  - lia.
  - lia.
Defined.

(** The same registration, undone. *)
Lemma uffd_register_unregister_witness :
  uffd_handler_unregister_region Z (Some sample_registered) 0x40000
  = (0, Some (sample_handler [sample_region])).
Proof.
  apply (uffd_register_unregister Z register_succeeds
           (sample_handler [sample_region]) sample_registered
           0x40000 5000 path_missing 4096).
  - reflexivity.
  - vm_compute. reflexivity.
Defined.

(** Unregistering the older of the two sample regions. *)
Lemma uffd_unregister_region_result_witness :
  (Forall (fun r => base r <> 0x10000) (regions sample_registered) ->
   uffd_handler_unregister_region Z (Some sample_registered) 0x10000
     = (- ENOENT, Some sample_registered)) /\
  (forall pre region post,
     regions sample_registered = pre ++ region :: post ->
     base region = 0x10000 ->
     Forall (fun r => base r <> 0x10000) pre ->
     uffd_handler_unregister_region Z (Some sample_registered) 0x10000
       = (0, Some (set_regions Z (pre ++ post)
                     (num_regions sample_registered - 1)
                     sample_registered))).
Proof.
  apply (uffd_unregister_region_result Z sample_registered 0x10000).
  lia.
Defined.

(** A mapping of 5000 bytes that [mmap] places at 0x50000. *)
Lemma uffd_create_destroy_mapping_witness :
  let r := uffd_handler_create_mapping Z 0x50000 register_succeeds
             (Some (sample_handler [sample_region])) 5000
             (Some path_a) 8192 1 in
  (fst r = MAP_FAILED /\ snd r = Some (sample_handler [sample_region])) \/
  (fst r = 0x50000 /\ 0x50000 <> MAP_FAILED /\ 0x50000 <> 0 /\
   0x50000 mod 4096 = 0 /\
   5000 <> 0 /\ page_round_up 5000 <> 0 /\
   snd r = Some (set_regions Z
                   ({| base := 0x50000;
                       size := page_round_up 5000;
                       region_file_path := strdup path_a;
                       file_offset_base := 8192;
                       prot := 0 |}
                    :: regions (sample_handler [sample_region]))
                   (num_regions (sample_handler [sample_region]) + 1)
                   (sample_handler [sample_region])) /\
   forall munmap_result size',
     uffd_handler_destroy_mapping Z munmap_result (snd r) 0x50000 size'
     = (munmap_result, Some (sample_handler [sample_region]))).
Proof.
  apply (uffd_create_destroy_mapping Z 0x50000 register_succeeds
           (sample_handler [sample_region]) 5000 path_a 8192 1).
  intros e He. discriminate He.
Defined.

(* ================================================================== *)
(** * The page-fault routine and the handler thread *)

Section FaultFacts.

Variable double : Type.
Variable d_sub d_add d_div : double -> double -> double.
Variable d_gt : double -> double -> bool.
Variable d_of_u64 : Z -> double.

Lemma u64_succ_mod (a : Z) : exists k, u64 (a + 1) = a + 1 + k * 2 ^ 64.
Proof.
  exists (- ((a + 1) / 2 ^ 64)). unfold u64, wrap.
  rewrite (Z.mod_eq (a + 1) (2 ^ 64)) by lia. lia.
Qed.

Lemma pagefault_keeps (env : FaultEnv double) (h h' : UffdHandler double)
    (fault_addr fault_flags ret : Z) :
  _uffd_handle_pagefault double d_sub d_add d_div d_gt d_of_u64
    env h fault_addr fault_flags = Returns (ret, h') ->
  regions h' = regions h /\ config h' = config h /\
  running h' = running h /\ zero_page h' = zero_page h /\
  num_regions h' = num_regions h /\ uffd double h' = uffd double h /\
  cache_misses (stats h') = cache_misses (stats h) /\
  (total_faults (stats h')
   - (cache_hits (stats h') + zero_fills (stats h')
      + cache_misses (stats h'))) mod 2 ^ 64
  = (total_faults (stats h)
     - (cache_hits (stats h) + zero_fills (stats h)
        + cache_misses (stats h))) mod 2 ^ 64.
Proof.
  unfold _uffd_handle_pagefault. cbv zeta.
  destruct (_uffd_find_region double h (page_align fault_addr))
    as [region|]; [|intros H; inversion H; subst; repeat split].
  destruct (bigcache_lookup _ _ _) as [[source_data ctx]|]; [|discriminate].
  cbn [config set_bigcache stats].
  assert (Hcount : forall hit : bool,
            (hit = false -> (enable_zero_fill (config h) =? 0) = false) ->
            let s' := count_fault double d_add d_div d_gt d_of_u64 (config h) hit
                        (d_sub (clock_end double env)
                           (clock_start double env)) (stats h) in
            cache_misses s' = cache_misses (stats h) /\
            (total_faults s'
             - (cache_hits s' + zero_fills s' + cache_misses s'))
              mod 2 ^ 64
            = (total_faults (stats h)
               - (cache_hits (stats h) + zero_fills (stats h)
                  + cache_misses (stats h))) mod 2 ^ 64).
  { intros hit Hz. cbv zeta. unfold count_fault.
    cbn [total_faults cache_hits zero_fills cache_misses].
    destruct (u64_succ_mod (total_faults (stats h))) as (k1 & ->).
    destruct hit.
    - destruct (u64_succ_mod (cache_hits (stats h))) as (k2 & ->).
      split; [reflexivity|].
      rewrite <- (Z_mod_plus_full _ (k2 - k1) (2 ^ 64)). f_equal. lia.
    - rewrite (Hz eq_refl).
      destruct (u64_succ_mod (zero_fills (stats h))) as (k2 & ->).
      split; [reflexivity|].
      rewrite <- (Z_mod_plus_full _ (k2 - k1) (2 ^ 64)). f_equal. lia. }
  destruct source_data as [src|]; cbn [negb andb].
  - destruct (copy_errno env) as [errno|];
      [destruct (errno =? EEXIST); cbn [negb]|];
      destruct (enable_stats (config h) =? 0); cbn [negb];
      intros H; inversion H; subst; clear H;
      cbn [regions config running zero_page num_regions uffd stats
           set_stats set_bigcache count_copy_error cache_misses
           total_faults cache_hits zero_fills];
      repeat split;
      try (apply (Hcount true); discriminate).
  - destruct (Z.eqb_spec (enable_zero_fill (config h)) 0) as [Hz|Hz].
    + intros H; inversion H; subst; repeat split.
    + destruct (copy_errno env) as [errno|];
        [destruct (errno =? EEXIST); cbn [negb]|];
        destruct (enable_stats (config h) =? 0); cbn [negb];
        intros H; inversion H; subst; clear H;
        cbn [regions config running zero_page num_regions uffd stats
             set_stats set_bigcache count_copy_error cache_misses
             total_faults cache_hits zero_fills];
        repeat split;
        try (apply (Hcount false); intros _; reflexivity).
Qed.

End FaultFacts.

Section ServedFacts.

Variable double : Type.
Variable d_sub d_add d_div : double -> double -> double.
Variable d_gt : double -> double -> bool.
Variable d_of_u64 : Z -> double.

Lemma pagefault_copy_done (env : FaultEnv double) (h : UffdHandler double)
    (fault_addr fault_flags : Z) (region : MemoryRegion)
    (source_data : option Z) (ctx : option BigCacheContext) :
  _uffd_find_region double h (page_align fault_addr) = Some region ->
  bigcache_lookup (bigcache h) (Some (region_file_path region))
    (u64 (file_offset_base region
          + u64 (page_align fault_addr - base region)))
    = Returns (source_data, ctx) ->
  source_data <> None \/ enable_zero_fill (config h) <> 0 ->
  copy_errno env = None \/ copy_errno env = Some EEXIST ->
  let hit := match source_data with Some _ => true | None => false end in
  pagefault_copy_request double h fault_addr
    = Returns (Some {| copy_dst := page_align fault_addr;
                       copy_src := match source_data with
                                   | Some src => src
                                   | None => zero_page h
                                   end;
                       copy_len := PAGE_SIZE; copy_mode := 0 |}) /\
  exists h',
    _uffd_handle_pagefault double d_sub d_add d_div d_gt d_of_u64
      env h fault_addr fault_flags = Returns (0, h') /\
    bigcache h' = ctx /\
    copy_errors (stats h') = copy_errors (stats h) /\
    (enable_stats (config h) = 0 -> stats h' = stats h) /\
    (enable_stats (config h) <> 0 ->
     total_faults (stats h') = u64 (total_faults (stats h) + 1) /\
     cache_hits (stats h')
       = (if hit then u64 (cache_hits (stats h) + 1)
          else cache_hits (stats h)) /\
     zero_fills (stats h')
       = (if hit then zero_fills (stats h)
          else u64 (zero_fills (stats h) + 1))).
Proof.
  intros Hreg Hlook Hsrc Hcopy. cbv zeta.
  assert (Hz : source_data = None ->
               (enable_zero_fill (config h) =? 0) = false).
  { intros ->. apply Z.eqb_neq. destruct Hsrc; [congruence|assumption]. }
  split.
  - unfold pagefault_copy_request. cbv zeta. rewrite Hreg, Hlook.
    destruct source_data; [reflexivity|]. rewrite Hz; reflexivity.
  - unfold _uffd_handle_pagefault. cbv zeta. rewrite Hreg, Hlook.
    cbn [config set_bigcache stats].
    assert (Hgo : negb match source_data with
                       | Some _ => true | None => false end
                  && (enable_zero_fill (config h) =? 0) = false).
    { destruct source_data; [reflexivity|]. rewrite Hz; reflexivity. }
    rewrite Hgo.
    assert (Hdone :
      exists h',
        (if negb (enable_stats (config h) =? 0)
         then Returns (0,
                set_stats double
                  (count_fault double d_add d_div d_gt d_of_u64 (config h)
                     match source_data with
                     | Some _ => true | None => false end
                     (d_sub (clock_end double env) (clock_start double env))
                     (stats h)) (set_bigcache double ctx h))
         else Returns (0, set_bigcache double ctx h))
        = Returns (0, h') /\
        bigcache h' = ctx /\
        copy_errors (stats h') = copy_errors (stats h) /\
        (enable_stats (config h) = 0 -> stats h' = stats h) /\
        (enable_stats (config h) <> 0 ->
         total_faults (stats h') = u64 (total_faults (stats h) + 1) /\
         cache_hits (stats h')
           = (if match source_data with
                 | Some _ => true | None => false end
              then u64 (cache_hits (stats h) + 1)
              else cache_hits (stats h)) /\
         zero_fills (stats h')
           = (if match source_data with
                 | Some _ => true | None => false end
              then zero_fills (stats h)
              else u64 (zero_fills (stats h) + 1)))).
    { destruct (Z.eqb_spec (enable_stats (config h)) 0) as [Hs|Hs];
        cbn [negb]; eexists; (split; [reflexivity|]);
        cbn [bigcache set_stats set_bigcache stats];
        repeat split; try reflexivity; try contradiction.
      all: unfold count_fault; cbn [zero_fills cache_hits];
        destruct source_data; [reflexivity|];
        rewrite (Hz eq_refl); reflexivity. }
    destruct Hcopy as [-> | ->]; [exact Hdone|].
    rewrite Z.eqb_refl. cbn [negb]. exact Hdone.
Qed.

(** X24.  A fault on a page the bundle holds is answered with that page.
    After a build from a well-formed packer and a load, a fault inside a
    registered region whose file and offset are those of entry [i] makes
    the routine copy 4096 bytes from page [i] of the data region, which
    hold the page image the build stored for the entry, to the faulting
    page; it returns 0 and counts one fault and one cache hit. *)
Theorem pagefault_served_from_bundle (benv : BuildEnv) (p : BigCachePacker)
    (out_path : list Z) (b : mem) (lenv : LoadEnv) (c c' : BigCacheContext)
    (path : list Z) (new_fd addr : Z)
    (env : FaultEnv double) (h : UffdHandler double)
    (fault_addr fault_flags : Z) (region : MemoryRegion)
    (i : nat) (pe : PackerPageEntry) :
  packer_wf p ->
  packer_in_range p ->
  build_output (packer_build benv (Some p) (Some out_path)) = Some b ->
  load_file lenv = LoadMapped new_fd addr b ->
  bigcache_load lenv (Some c) (Some path) = (0, Some c') ->
  bigcache h = Some c' ->
  _uffd_find_region double h (page_align fault_addr) = Some region ->
  entries p !! i = Some pe ->
  strcmp (pe_file_path pe) (region_file_path region) = 0 ->
  page_align (u64 (file_offset_base region
                   + u64 (page_align fault_addr - base region)))
    = pe_offset pe ->
  copy_errno env = None \/ copy_errno env = Some EEXIST ->
  pagefault_copy_request double h fault_addr
    = Returns (Some {| copy_dst := page_align fault_addr;
                       copy_src := addr + (data_offset p + 4096 * Z.of_nat i);
                       copy_len := PAGE_SIZE; copy_mode := 0 |}) /\
  mem_read (mapped c') (data_offset p + 4096 * Z.of_nat i) 4096
    = page_image (source_fs benv) pe /\
  exists h',
    _uffd_handle_pagefault double d_sub d_add d_div d_gt d_of_u64
      env h fault_addr fault_flags = Returns (0, h') /\
    bigcache h' = Some (count_served (count_hit c')) /\
    (enable_stats (config h) <> 0 ->
     total_faults (stats h') = u64 (total_faults (stats h) + 1) /\
     cache_hits (stats h') = u64 (cache_hits (stats h) + 1) /\
     zero_fills (stats h') = zero_fills (stats h) /\
     copy_errors (stats h') = copy_errors (stats h)).
Proof.
  intros Hwf Hr Hout Hfile Hload Hbc Hreg Hi Hf Hoff Hcopy.
  destruct (build_load_lookup_page benv p out_path b lenv c c' path new_fd addr
              i pe (region_file_path region)
              (u64 (file_offset_base region
                    + u64 (page_align fault_addr - base region)))
              Hwf Hr Hout Hfile Hload Hi Hf Hoff) as [Hlook Himg].
  rewrite <- Hbc in Hlook.
  destruct (pagefault_copy_done env h fault_addr fault_flags region _ _
              Hreg Hlook ltac:(left; discriminate) Hcopy)
    as (Hreq & h' & Hret & Hctx & Hce & _ & Hstats).
  split; [exact Hreq|]. split; [exact Himg|].
  exists h'. split; [exact Hret|]. split; [exact Hctx|].
  intros Hs. destruct (Hstats Hs) as (Ht & Hh & Hzf).
  repeat split; assumption.
Qed.

End ServedFacts.

(** A fault in the second page of the sample region. *)
Lemma pagefault_served_from_bundle_witness :
  pagefault_copy_request Z (sample_handler [sample_region]) 0x11008
    = Returns (Some {| copy_dst := page_align 0x11008;
                       copy_src := 0x7f0000000000
                                   + (data_offset sample_packer
                                      + 4096 * Z.of_nat 1);
                       copy_len := PAGE_SIZE; copy_mode := 0 |}) /\
  mem_read (mapped sample_ctx)
    (data_offset sample_packer + 4096 * Z.of_nat 1) 4096
    = page_image (source_fs sample_env) (sample_entry 1) /\
  exists h',
    _uffd_handle_pagefault Z Z.sub Z.add Z.div Z.gtb (fun n => n)
      (sample_fault_env None) (sample_handler [sample_region]) 0x11008 0
      = Returns (0, h') /\
    bigcache h' = Some (count_served (count_hit sample_ctx)) /\
    (enable_stats (config (sample_handler [sample_region])) <> 0 ->
     total_faults (stats h')
       = u64 (total_faults (stats (sample_handler [sample_region])) + 1) /\
     cache_hits (stats h')
       = u64 (cache_hits (stats (sample_handler [sample_region])) + 1) /\
     zero_fills (stats h')
       = zero_fills (stats (sample_handler [sample_region])) /\
     copy_errors (stats h')
       = copy_errors (stats (sample_handler [sample_region]))).
Proof.
  apply (pagefault_served_from_bundle Z Z.sub Z.add Z.div Z.gtb (fun n => n)
           sample_env sample_packer out_bin sample_bundle
           (load_env sample_bundle) bigcache_create sample_ctx out_bin
           3 0x7f0000000000 (sample_fault_env None)
           (sample_handler [sample_region]) 0x11008 0 sample_region
           1 (sample_entry 1)).
  - exact sample_packer_wf.
  - exact sample_packer_in_range.
  - exact sample_build_output.
  - reflexivity.
  - vm_compute. reflexivity.
  - reflexivity.
  - vm_compute. reflexivity.
  - vm_compute. reflexivity.
  - vm_compute. reflexivity.
  - vm_compute. reflexivity.
  - left. reflexivity.
Defined.

Section FaultTheorems.

Variable double : Type.
Variable d_sub d_add d_div : double -> double -> double.
Variable d_gt : double -> double -> bool.
Variable d_of_u64 : Z -> double.

Lemma pagefault_failure_counts (env : FaultEnv double)
    (h h' : UffdHandler double) (fault_addr fault_flags ret : Z) :
  _uffd_handle_pagefault double d_sub d_add d_div d_gt d_of_u64
    env h fault_addr fault_flags = Returns (ret, h') ->
  ret <> 0 ->
  total_faults (stats h') = total_faults (stats h) /\
  cache_hits (stats h') = cache_hits (stats h) /\
  zero_fills (stats h') = zero_fills (stats h).
Proof.
  unfold _uffd_handle_pagefault. cbv zeta.
  destruct (_uffd_find_region double h (page_align fault_addr))
    as [region|]; [|intros H; inversion H; subst; repeat split].
  destruct (bigcache_lookup _ _ _) as [[source_data ctx]|]; [|discriminate].
  cbn [config set_bigcache stats].
  destruct source_data as [src|]; cbn [negb andb];
    [|destruct (enable_zero_fill (config h) =? 0);
      [intros H; inversion H; subst; repeat split|]];
    (destruct (copy_errno env) as [errno|];
     [destruct (errno =? EEXIST); cbn [negb]|];
     destruct (enable_stats (config h) =? 0); cbn [negb];
     intros H; inversion H; subst; clear H; intros Hret;
     try (exfalso; apply Hret; reflexivity);
     cbn [stats set_stats set_bigcache count_copy_error total_faults
          cache_hits zero_fills];
     repeat split).
Qed.

(** X25.  What [_uffd_handle_pagefault] keeps.  A call that returns
    leaves the regions, the configuration, [running], the zero page and
    the descriptor as they were and never changes [cache_misses]; the
    difference between [total_faults] and the sum of [cache_hits],
    [zero_fills] and [cache_misses] is the same after the call (modulo
    2^64); a call that does not return 0 changes none of these
    counters. *)
Theorem uffd_pagefault_invariants (env : FaultEnv double)
    (h h' : UffdHandler double) (fault_addr fault_flags ret : Z) :
  _uffd_handle_pagefault double d_sub d_add d_div d_gt d_of_u64
    env h fault_addr fault_flags = Returns (ret, h') ->
  regions h' = regions h /\ config h' = config h /\
  running h' = running h /\ zero_page h' = zero_page h /\
  num_regions h' = num_regions h /\ uffd double h' = uffd double h /\
  cache_misses (stats h') = cache_misses (stats h) /\
  (total_faults (stats h')
   - (cache_hits (stats h') + zero_fills (stats h')
      + cache_misses (stats h'))) mod 2 ^ 64
  = (total_faults (stats h)
     - (cache_hits (stats h) + zero_fills (stats h)
        + cache_misses (stats h))) mod 2 ^ 64 /\
  (ret <> 0 ->
   total_faults (stats h') = total_faults (stats h) /\
   cache_hits (stats h') = cache_hits (stats h) /\
   zero_fills (stats h') = zero_fills (stats h)).
Proof.
  intros Hcall.
  destruct (pagefault_keeps double d_sub d_add d_div d_gt d_of_u64 env h h'
              fault_addr fault_flags ret Hcall)
    as (H1 & H2 & H3 & H4 & H5 & H6 & H7 & H8).
  repeat (split; [assumption|]).
  exact (pagefault_failure_counts env h h' fault_addr fault_flags ret Hcall).
Qed.

(** X26.  A fault on a page of a region that the bundle does not hold.
    With zero fill disabled the routine returns [-ENODATA] without a copy
    and without touching the statistics (the miss is not counted); with
    zero fill enabled it copies the zero page to the faulting page,
    returns 0, and counts the fault as a zero fill. *)
Theorem uffd_pagefault_zero_fill (env : FaultEnv double)
    (h : UffdHandler double) (fault_addr fault_flags : Z)
    (region : MemoryRegion) (ctx : option BigCacheContext) :
  _uffd_find_region double h (page_align fault_addr) = Some region ->
  bigcache_lookup (bigcache h) (Some (region_file_path region))
    (u64 (file_offset_base region
          + u64 (page_align fault_addr - base region)))
    = Returns (None, ctx) ->
  (enable_zero_fill (config h) = 0 ->
   pagefault_copy_request double h fault_addr = Returns None /\
   _uffd_handle_pagefault double d_sub d_add d_div d_gt d_of_u64
     env h fault_addr fault_flags
   = Returns (- ENODATA, set_bigcache double ctx h)) /\
  (enable_zero_fill (config h) <> 0 ->
   copy_errno env = None \/ copy_errno env = Some EEXIST ->
   pagefault_copy_request double h fault_addr
     = Returns (Some {| copy_dst := page_align fault_addr;
                        copy_src := zero_page h;
                        copy_len := PAGE_SIZE; copy_mode := 0 |}) /\
   exists h',
     _uffd_handle_pagefault double d_sub d_add d_div d_gt d_of_u64
       env h fault_addr fault_flags = Returns (0, h') /\
     bigcache h' = ctx /\
     (enable_stats (config h) <> 0 ->
      total_faults (stats h') = u64 (total_faults (stats h) + 1) /\
      zero_fills (stats h') = u64 (zero_fills (stats h) + 1) /\
      cache_hits (stats h') = cache_hits (stats h) /\
      cache_misses (stats h') = cache_misses (stats h))).
Proof.
  intros Hreg Hlook. split.
  - intros Hz. unfold pagefault_copy_request, _uffd_handle_pagefault.
    cbv zeta. rewrite Hreg, Hlook. cbn [config set_bigcache negb andb].
    rewrite Hz. split; reflexivity.
  - intros Hz Hcopy.
    destruct (pagefault_copy_done double d_sub d_add d_div d_gt d_of_u64
                env h fault_addr fault_flags region None ctx
                Hreg Hlook (or_intror Hz) Hcopy)
      as (Hreq & h' & Hret & Hctx & _ & _ & Hstats).
    split; [exact Hreq|]. exists h'.
    split; [exact Hret|]. split; [exact Hctx|].
    intros Hs. destruct (Hstats Hs) as (Ht & Hh & Hzf).
    destruct (pagefault_keeps double d_sub d_add d_div d_gt d_of_u64 env h
                h' fault_addr fault_flags 0 Hret)
      as (_ & _ & _ & _ & _ & _ & Hcm & _).
    repeat split; assumption.
Qed.

End FaultTheorems.

(** The same fault. *)
Lemma uffd_pagefault_invariants_witness :
  let h := sample_handler [sample_region] in
  let h' := snd (returned (sample_pagefault (sample_fault_env None) h 0x11008)
                   (0, h)) in
  regions h' = regions h /\ config h' = config h /\
  running h' = running h /\ zero_page h' = zero_page h /\
  num_regions h' = num_regions h /\ uffd Z h' = uffd Z h /\
  cache_misses (stats h') = cache_misses (stats h) /\
  (total_faults (stats h')
   - (cache_hits (stats h') + zero_fills (stats h')
      + cache_misses (stats h'))) mod 2 ^ 64
  = (total_faults (stats h)
     - (cache_hits (stats h) + zero_fills (stats h)
        + cache_misses (stats h))) mod 2 ^ 64 /\
  (0 <> 0 ->
   total_faults (stats h') = total_faults (stats h) /\
   cache_hits (stats h') = cache_hits (stats h) /\
   zero_fills (stats h') = zero_fills (stats h)).
Proof.
  apply (uffd_pagefault_invariants Z Z.sub Z.add Z.div Z.gtb (fun n => n)
           (sample_fault_env None) (sample_handler [sample_region])
           (snd (returned
                   (sample_pagefault (sample_fault_env None)
                      (sample_handler [sample_region]) 0x11008)
                   (0, sample_handler [sample_region])))
           0x11008 0 0).
  vm_compute. reflexivity.
Defined.

(** A fault in the third page of the sample region, which the sample
    bundle does not hold. *)
Lemma uffd_pagefault_zero_fill_witness :
  let h := sample_handler [sample_region] in
  (enable_zero_fill (config h) = 0 ->
   pagefault_copy_request Z h 0x12345 = Returns None /\
   _uffd_handle_pagefault Z Z.sub Z.add Z.div Z.gtb (fun n => n)
     (sample_fault_env None) h 0x12345 0
   = Returns (- ENODATA,
              set_bigcache Z (Some (count_miss sample_ctx)) h)) /\
  (enable_zero_fill (config h) <> 0 ->
   copy_errno (sample_fault_env None) = None \/
   copy_errno (sample_fault_env None) = Some EEXIST ->
   pagefault_copy_request Z h 0x12345
     = Returns (Some {| copy_dst := page_align 0x12345;
                        copy_src := zero_page h;
                        copy_len := PAGE_SIZE; copy_mode := 0 |}) /\
   exists h',
     _uffd_handle_pagefault Z Z.sub Z.add Z.div Z.gtb (fun n => n)
       (sample_fault_env None) h 0x12345 0 = Returns (0, h') /\
     bigcache h' = Some (count_miss sample_ctx) /\
     (enable_stats (config h) <> 0 ->
      total_faults (stats h') = u64 (total_faults (stats h) + 1) /\
      zero_fills (stats h') = u64 (zero_fills (stats h) + 1) /\
      cache_hits (stats h') = cache_hits (stats h) /\
      cache_misses (stats h') = cache_misses (stats h))).
Proof.
  apply (uffd_pagefault_zero_fill Z Z.sub Z.add Z.div Z.gtb (fun n => n)
           (sample_fault_env None) (sample_handler [sample_region])
           0x12345 0 sample_region (Some (count_miss sample_ctx))).
  - vm_compute. reflexivity.
  - vm_compute. reflexivity.
Defined.

Section LoopFacts.

Variable double : Type.
Variable d_sub d_add d_div : double -> double -> double.
Variable d_gt : double -> double -> bool.
Variable d_of_u64 : Z -> double.

(** X27.  The loop of [handler_thread_func] ends on a turn that stops it
    and on no other: [running] cleared, a [poll] failure other than
    [EINTR], the shutdown pipe readable, or a [read] failure other than
    [EAGAIN].  A timeout, a short read, an event of another kind and a
    fault the routine fails to serve keep it polling, with [running] as
    it was. *)
Theorem handler_thread_exits (turns : list (LoopTurn double))
    (h : UffdHandler double) :
  running h <> 0 ->
  match
    handler_thread_func double d_sub d_add d_div d_gt d_of_u64 turns h
  with
  | Returns (LoopExited, _) => Exists (fun t => turn_exits t = true) turns
  | Returns (LoopPolling, h') =>
      Forall (fun t => turn_exits t = false) turns /\ running h' = running h
  | NullDeref => True
  end.
Proof.
  revert h. induction turns as [|turn rest IH]; intros h Hrun.
  - cbn. split; [constructor|reflexivity].
  - cbn [handler_thread_func].
    assert (Hstep : forall h1, running h1 = running h ->
              stop_requested turn = false ->
              turn_exits turn = false ->
              match handler_thread_func double d_sub d_add d_div d_gt
                      d_of_u64 rest h1 with
              | Returns (LoopExited, _) =>
                  Exists (fun t => turn_exits t = true) (turn :: rest)
              | Returns (LoopPolling, h') =>
                  Forall (fun t => turn_exits t = false) (turn :: rest) /\
                  running h' = running h
              | NullDeref => True
              end).
    { intros h1 Hh1 Hstop Hno. specialize (IH h1 ltac:(congruence)).
      destruct (handler_thread_func _ _ _ _ _ _ rest h1)
        as [[[|] h']|]; [| |exact I].
      - apply Exists_cons_tl. exact IH.
      - destruct IH as [Hall Hr]. split; [|congruence].
        constructor; assumption. }
    unfold turn_exits at 1 2. unfold turn_exits in Hstep at 1.
    destruct (stop_requested turn) eqn:Hstop.
    + cbn [set_running running]. cbn. apply Exists_cons_hd.
      unfold turn_exits. rewrite Hstop. reflexivity.
    + destruct (Z.eqb_spec (running h) 0) as [|_]; [contradiction|].
      cbn [orb] in *.
      destruct (poll_outcome turn) as [errno| |shutdown_in uffd_in] eqn:Hp.
      * destruct (Z.eqb_spec errno EINTR) as [He|He]; cbn [negb] in *.
        -- apply Hstep; reflexivity.
        -- apply Exists_cons_hd. unfold turn_exits. rewrite Hstop, Hp.
           cbn [orb]. apply negb_true_iff, Z.eqb_neq. exact He.
      * apply Hstep; reflexivity.
      * destruct shutdown_in; cbn [orb] in *.
        -- apply Exists_cons_hd. unfold turn_exits. rewrite Hstop, Hp.
           reflexivity.
        -- destruct uffd_in; cbn [andb] in *; [|apply Hstep; reflexivity].
           destruct (read_outcome turn) as [errno|n|event address flags]
             eqn:Hr.
           ++ destruct (Z.eqb_spec errno EAGAIN) as [He|He]; cbn [negb] in *.
              ** apply Hstep; reflexivity.
              ** apply Exists_cons_hd. unfold turn_exits.
                 rewrite Hstop, Hp, Hr. cbn [orb andb].
                 apply negb_true_iff, Z.eqb_neq. exact He.
           ++ apply Hstep; reflexivity.
           ++ destruct (event =? UFFD_EVENT_PAGEFAULT);
                [|apply Hstep; reflexivity].
              destruct (_uffd_handle_pagefault double d_sub d_add d_div d_gt
                          d_of_u64 (fault_env turn) h address flags)
                as [[ret h1]|] eqn:Hfault; [|exact I].
              apply Hstep; try reflexivity.
              apply (pagefault_keeps double d_sub d_add d_div d_gt d_of_u64
                       _ _ _ _ _ _ Hfault).
Qed.

End LoopFacts.

(** The sample turns: the loop exits on the fourth. *)
Lemma handler_thread_exits_witness :
  Exists (fun t => turn_exits t = true) sample_turns.
Proof.
  pose proof (handler_thread_exits Z Z.sub Z.add Z.div Z.gtb (fun n => n)
                sample_turns (sample_handler [sample_region])) as H.
  destruct (handler_thread_func Z Z.sub Z.add Z.div Z.gtb (fun n => n)
              sample_turns (sample_handler [sample_region]))
    as [[[|] h']|] eqn:E.
  - apply H. vm_compute. discriminate.
  - vm_compute in E. discriminate E.
  - vm_compute in E. discriminate E.
Defined.

(* ================================================================== *)
(** * The [mmap] hook of the preloader *)

Section PreloaderFacts.

Variable double : Type.

(** X28.  [preloader_mmap] bypasses or intercepts.  A bypass calls the
    original [mmap] through a pointer that is null in every state
    [preloader_init] leaves disabled: there the call is a null
    dereference.  A call that returns keeps [enabled] and the pointer.
    When it bypassed, it returns what the original [mmap] returns, has
    counted one bypass and left the regions of the handler as they were.
    When it intercepted, the preloader is enabled, the mapping is
    [MAP_PRIVATE], the path contains one of the intercepted extensions and
    the lookup table of the loaded bundle holds an entry for the path at
    the page of the offset (one hit is counted); the call returns the
    address of the anonymous mapping, has counted one interception and
    the length, and has linked in one region over the path and offset. *)
Theorem preloader_mmap_result (mm : Z) (env : RegisterEnv)
    (st : PreloaderState double)
    (addr len pr flags fd offset : Z) (pathname : option (list Z)) :
  (forall e, register_errno env = Some e -> 0 < e) ->
  (original_mmap st = None ->
   enabled st = 0 \/ uffd_handler st = None \/
   Z.land flags MAP_PRIVATE = 0 \/ should_intercept pathname = 0 ->
   preloader_mmap double mm env st addr len pr flags fd offset pathname
   = NullDeref) /\
  (forall ret st',
     preloader_mmap double mm env st addr len pr flags fd offset pathname
     = Returns (ret, st') ->
     enabled st' = enabled st /\
     original_mmap st' = original_mmap st /\
     ((exists mmap,
         original_mmap st = Some mmap /\
         ret = mmap addr len pr flags fd offset /\
         bypassed_count st' = bypassed_count st + 1 /\
         intercepted_count st' = intercepted_count st /\
         total_intercepted_size st' = total_intercepted_size st /\
         option_map regions (uffd_handler st')
           = option_map regions (uffd_handler st))
      \/
      (ret = mm /\ mm <> MAP_FAILED /\
       intercepted_count st' = intercepted_count st + 1 /\
       bypassed_count st' = bypassed_count st /\
       total_intercepted_size st'
         = (total_intercepted_size st + len) mod 2 ^ 64 /\
       enabled st <> 0 /\ Z.land flags MAP_PRIVATE <> 0 /\
       should_intercept pathname = 1 /\
       exists path h h' c c'' t entry,
         pathname = Some path /\
         uffd_handler st = Some h /\ uffd_handler st' = Some h' /\
         bigcache h = Some c /\ is_loaded c <> 0 /\
         lookup_table c = Some t /\
         lookup_table_find t path (page_align (u64 offset)) = Some entry /\
         bigcache h' = Some c'' /\
         hit_count c'' = (hit_count c + 1) mod 2 ^ 64 /\
         miss_count c'' = miss_count c /\
         total_bytes_served c'' = total_bytes_served c /\
         keeps_mapping c c'' /\
         regions h'
         = {| base := mm; size := page_round_up len;
              region_file_path := cstr path;
              file_offset_base := u64 offset; prot := 0 |}
           :: regions h))).
Proof.
  intros Herrno. split.
  - intros Hnull Hwhy. unfold preloader_mmap, bypass. rewrite Hnull.
    destruct (uffd_handler st) as [h|]; [|reflexivity].
    destruct Hwhy as [Hw|[Hw|[Hw|Hw]]]; [|discriminate| |].
    + rewrite Hw. reflexivity.
    + rewrite Hw, orb_true_r. reflexivity.
    + rewrite Hw, !orb_true_r. reflexivity.
  - intros ret st'. unfold preloader_mmap.
    assert (Hbypass : forall handler,
              option_map regions handler
                = option_map regions (uffd_handler st) ->
              bypass double handler st addr len pr flags fd offset
                = Returns (ret, st') ->
              enabled st' = enabled st /\
              original_mmap st' = original_mmap st /\
              exists mmap,
                original_mmap st = Some mmap /\
                ret = mmap addr len pr flags fd offset /\
                bypassed_count st' = bypassed_count st + 1 /\
                intercepted_count st' = intercepted_count st /\
                total_intercepted_size st' = total_intercepted_size st /\
                option_map regions (uffd_handler st')
                  = option_map regions (uffd_handler st)).
    { intros handler Hregions. unfold bypass.
      destruct (original_mmap st) as [mmap|] eqn:Horig; [|discriminate].
      intros H. inversion H; subst. cbn.
      split; [reflexivity|]. split; [reflexivity|].
      exists mmap. repeat split. exact Hregions. }
    assert (Hleft : forall handler,
              option_map regions handler
                = option_map regions (uffd_handler st) ->
              bypass double handler st addr len pr flags fd offset
                = Returns (ret, st') ->
              enabled st' = enabled st /\
              original_mmap st' = original_mmap st /\
              ((exists mmap,
                  original_mmap st = Some mmap /\
                  ret = mmap addr len pr flags fd offset /\
                  bypassed_count st' = bypassed_count st + 1 /\
                  intercepted_count st' = intercepted_count st /\
                  total_intercepted_size st' = total_intercepted_size st /\
                  option_map regions (uffd_handler st')
                    = option_map regions (uffd_handler st))
               \/
               (ret = mm /\ mm <> MAP_FAILED /\
                intercepted_count st' = intercepted_count st + 1 /\
                bypassed_count st' = bypassed_count st /\
                total_intercepted_size st'
                  = (total_intercepted_size st + len) mod 2 ^ 64 /\
                enabled st <> 0 /\ Z.land flags MAP_PRIVATE <> 0 /\
                should_intercept pathname = 1 /\
                exists path h h' c c'' t entry,
                  pathname = Some path /\
                  uffd_handler st = Some h /\ uffd_handler st' = Some h' /\
                  bigcache h = Some c /\ is_loaded c <> 0 /\
                  lookup_table c = Some t /\
                  lookup_table_find t path (page_align (u64 offset))
                    = Some entry /\
                  bigcache h' = Some c'' /\
                  hit_count c'' = (hit_count c + 1) mod 2 ^ 64 /\
                  miss_count c'' = miss_count c /\
                  total_bytes_served c'' = total_bytes_served c /\
                  keeps_mapping c c'' /\
                  regions h'
                  = {| base := mm; size := page_round_up len;
                       region_file_path := cstr path;
                       file_offset_base := u64 offset; prot := 0 |}
                    :: regions h))).
    { intros handler Hregions Hcall.
      destruct (Hbypass handler Hregions Hcall) as (He & Ho & Hb).
      split; [exact He|]. split; [exact Ho|]. left. exact Hb. }
    destruct (uffd_handler st) as [h|] eqn:Hh;
      [|apply Hleft; reflexivity].
    destruct (Z.eqb_spec (enabled st) 0) as [|Hen];
      [apply Hleft; reflexivity|].
    destruct (Z.eqb_spec (Z.land flags MAP_PRIVATE) 0) as [|Hpriv];
      [apply Hleft; reflexivity|].
    destruct (Z.eqb_spec (should_intercept pathname) 0) as [|Hsi];
      [apply Hleft; reflexivity|].
    cbn [orb].
    destruct pathname as [path|]; [|contradiction Hsi; reflexivity].
    assert (Hsi1 : should_intercept (Some path) = 1).
    { revert Hsi. unfold should_intercept.
      repeat match goal with
             | |- context [if ?c then 1 else _] => destruct c; [reflexivity|]
             end.
      intros H; contradiction. }
    unfold bigcache_lookup_offset.
    destruct (bigcache h) as [c|] eqn:Hc.
    2:{ change (- EINVAL <? 0) with true. cbv iota.
        apply Hleft. destruct h; reflexivity. }
    destruct (Z.eqb_spec (is_loaded c) 0) as [|Hl].
    { change (- EINVAL <? 0) with true. cbv iota.
      apply Hleft. destruct h; reflexivity. }
    destruct (lookup_table c) as [t|] eqn:Ht; [|discriminate].
    destruct (lookup_table_find t path (page_align (u64 offset)))
      as [entry|] eqn:Hfind.
    2:{ change (- ENOENT <? 0) with true. cbv iota.
        apply Hleft. destruct h; reflexivity. }
    change (0 <? 0) with false. cbv iota zeta.
    set (h1 := set_bigcache double (Some (count_hit c)) h).
    pose proof (create_mapping_cases double mm env h1 len path
                  (u64 offset) pr Herrno) as Hmap.
    cbv zeta in Hmap.
    destruct (uffd_handler_create_mapping double mm env (Some h1) len
                (Some path) (u64 offset) pr) as [result handler].
    cbn [fst snd] in Hmap.
    destruct Hmap
      as [[Hres Hhandler]|(Hres & Hmm & _ & _ & _ & _ & Hhandler)].
    + subst result handler. rewrite Z.eqb_refl.
      apply Hleft. destruct h; reflexivity.
    + subst result handler.
      destruct (Z.eqb_spec mm MAP_FAILED) as [|_]; [contradiction|].
      intros H. inversion H; subst. split; [reflexivity|].
      split; [reflexivity|]. right.
      cbn [intercepted_count bypassed_count total_intercepted_size
           uffd_handler].
      repeat split; try assumption.
      exists path, h. eexists. exists c. eexists. exists t, entry.
      split; [reflexivity|]. split; [reflexivity|].
      split; [reflexivity|]. split; [exact Hc|]. split; [exact Hl|].
      split; [exact Ht|]. split; [exact Hfind|].
      split; [reflexivity|].
      unfold keeps_mapping. cbn. repeat split; reflexivity.
Qed.

End PreloaderFacts.

(** A private mapping of [path_a] from its offset 4100: on the state a
    disabled initialisation leaves the hook dereferences the null
    pointer; on the sample preloader it intercepts the mapping. *)
Lemma preloader_mmap_result_witness :
  preloader_mmap Z 0x50000 register_succeeds disabled_preloader
    0 5000 1 MAP_PRIVATE 7 4100 (Some path_a) = NullDeref /\
  exists st' h',
    preloader_mmap Z 0x50000 register_succeeds sample_preloader
      0 5000 1 MAP_PRIVATE 7 4100 (Some path_a) = Returns (0x50000, st') /\
    intercepted_count st' = 1 /\ bypassed_count st' = 0 /\
    total_intercepted_size st' = 5000 /\
    uffd_handler st' = Some h' /\
    regions h'
    = [{| base := 0x50000; size := 8192; region_file_path := path_a;
          file_offset_base := 4100; prot := 0 |}].
Proof.
  assert (Herrno : forall e, register_errno register_succeeds = Some e ->
                             0 < e) by (intros e He; discriminate He).
  split.
  - apply (proj1 (preloader_mmap_result Z 0x50000 register_succeeds
                    disabled_preloader 0 5000 1 MAP_PRIVATE 7 4100
                    (Some path_a) Herrno)).
    + reflexivity.
    + left. reflexivity.
  - set (r := returned
                (preloader_mmap Z 0x50000 register_succeeds sample_preloader
                   0 5000 1 MAP_PRIVATE 7 4100 (Some path_a))
                (0, sample_preloader)).
    assert (Hcall : preloader_mmap Z 0x50000 register_succeeds
                      sample_preloader 0 5000 1 MAP_PRIVATE 7 4100
                      (Some path_a) = Returns (fst r, snd r))
      by (vm_compute; reflexivity).
    destruct (proj2 (preloader_mmap_result Z 0x50000 register_succeeds
                       sample_preloader 0 5000 1 MAP_PRIVATE 7 4100
                       (Some path_a) Herrno) (fst r) (snd r) Hcall)
      as (_ & _ & [(mmap & Horig & Hret & _)|Hint]).
    + exfalso. vm_compute in Horig. injection Horig as <-.
      vm_compute in Hret. discriminate Hret.
    + destruct Hint as (Hret & _ & Hic & Hbc & Hsize & _ & _ & _ & path & h
                        & h' & _ & _ & _ & _ & Hpath & Hh & Hh' & _ & _ & _
                        & _ & _ & _ & _ & _ & _ & Hregions).
      exists (snd r), h'.
      split; [rewrite Hcall, Hret; reflexivity|].
      split; [exact Hic|]. split; [exact Hbc|]. split; [exact Hsize|].
      split; [exact Hh'|].
      rewrite Hregions. injection Hpath as <-.
      vm_compute in Hh. injection Hh as <-. vm_compute. reflexivity.
Defined.
(* ================================================================== *)
(** * The generator *)

Lemma mem_write_all (m bs : list Z) :
  length bs = length m -> mem_write m 0 bs = bs.
Proof.
  intros Hlen. rewrite mem_write_in_bounds by lia.
  change (Z.to_nat 0) with 0%nat. rewrite take_0.
  rewrite drop_ge by lia. apply app_nil_r.
Qed.

(** X29.  [read_source_page] of generate_bigcache.c always leaves a whole
    page in the buffer, whatever the buffer held: zeros with -1 when the
    file cannot be opened, positioned or read, and otherwise, with 0, the
    bytes read followed by zeros.  When the file opens, the page left
    after a failed read and after a full read is the one [packer_build]
    stores for the same entry. *)
Theorem generator_read_source_page (fs : SourceFs) (lseek_ok : bool)
    (pe : PackerPageEntry) (buffer : mem) :
  length buffer = 4096%nat ->
  let r := Generator.read_source_page fs lseek_ok (pe_file_path pe)
             (pe_offset pe) buffer in
  length (snd r) = 4096%nat /\
  match fs (cstr (pe_file_path pe)) with
  | None => r = (-1, zeros PAGE_SIZE)
  | Some file =>
      if lseek_ok then
        match pread file PAGE_SIZE (pe_offset pe) with
        | PreadError =>
            r = (-1, zeros PAGE_SIZE) /\
            snd r = page_image fs pe
        | PreadData bytes =>
            r = (0, bytes ++ zeros (PAGE_SIZE - Z.of_nat (length bytes))) /\
            (length bytes = 4096%nat -> snd r = page_image fs pe)
        end
      else r = (-1, zeros PAGE_SIZE)
  end.
Proof.
  intros Hlen. cbv zeta. unfold Generator.read_source_page, page_image.
  assert (Hz : mem_write buffer 0 (zeros PAGE_SIZE) = zeros PAGE_SIZE).
  { apply mem_write_all. rewrite length_zeros, Hlen. reflexivity. }
  assert (Hzl : length (zeros PAGE_SIZE) = 4096%nat)
    by (rewrite length_zeros; reflexivity).
  destruct (fs (cstr (pe_file_path pe))) as [file|];
    [|rewrite Hz; split; [exact Hzl|reflexivity]].
  destruct lseek_ok; cbn [negb];
    [|rewrite Hz; split; [exact Hzl|reflexivity]].
  destruct (pread file PAGE_SIZE (pe_offset pe)) as [|bytes] eqn:Hread.
  { rewrite Hz. split; [exact Hzl|]. split; reflexivity. }
  pose proof (pread_length file PAGE_SIZE _ bytes
                ltac:(unfold PAGE_SIZE; lia) Hread) as Hb.
  destruct (Z.ltb_spec (Z.of_nat (length bytes)) PAGE_SIZE) as [Hshort|Hfull].
  - cbn [snd].
    assert (Hw : mem_write (mem_write buffer 0 bytes)
                   (Z.of_nat (length bytes))
                   (zeros (PAGE_SIZE - Z.of_nat (length bytes)))
                 = bytes ++ zeros (PAGE_SIZE - Z.of_nat (length bytes))).
    { assert (H1 : mem_write buffer 0 bytes
                   = bytes ++ drop (length bytes) buffer).
      { rewrite mem_write_in_bounds by (unfold PAGE_SIZE in *; lia).
        change (Z.to_nat 0) with 0%nat. rewrite take_0. reflexivity. }
      rewrite H1.
      rewrite mem_write_in_bounds
        by (rewrite ?length_app, ?length_drop, ?length_zeros;
            unfold PAGE_SIZE in *; lia).
      rewrite Nat2Z.id, take_app_length.
      rewrite drop_ge
        by (rewrite ?length_app, ?length_drop, ?length_zeros;
            unfold PAGE_SIZE in *; lia).
      rewrite app_nil_r. reflexivity. }
    rewrite Hw. split; [|split; [reflexivity|]].
    + rewrite length_app, length_zeros. unfold PAGE_SIZE in *. lia.
    + intros Hl. unfold PAGE_SIZE in *. lia.
  - cbn [snd].
    assert (Hl : length bytes = 4096%nat) by (unfold PAGE_SIZE in *; lia).
    rewrite mem_write_all by lia.
    replace (PAGE_SIZE - Z.of_nat (length bytes)) with 0
      by (unfold PAGE_SIZE; lia).
    change (zeros 0) with (@nil Z). rewrite app_nil_r.
    split; [exact Hl|]. split; [reflexivity|]. intros _.
    replace (Z.of_nat (length bytes) =? PAGE_SIZE) with true; [reflexivity|].
    symmetry. apply Z.eqb_eq. unfold PAGE_SIZE. lia.
Qed.

(** The second page of the sample file, a short read into a buffer that
    held other bytes. *)
Lemma generator_read_source_page_witness :
  let r := Generator.read_source_page sample_fs true
             (pe_file_path (sample_entry 1)) (pe_offset (sample_entry 1))
             (repeat 255 4096) in
  length (snd r) = 4096%nat /\
  match sample_fs (cstr (pe_file_path (sample_entry 1))) with
  | None => r = (-1, zeros PAGE_SIZE)
  | Some file =>
      if true then
        match pread file PAGE_SIZE (pe_offset (sample_entry 1)) with
        | PreadError =>
            r = (-1, zeros PAGE_SIZE) /\
            snd r = page_image sample_fs (sample_entry 1)
        | PreadData bytes =>
            r = (0, bytes ++ zeros (PAGE_SIZE - Z.of_nat (length bytes))) /\
            (length bytes = 4096%nat ->
             snd r = page_image sample_fs (sample_entry 1))
        end
      else r = (-1, zeros PAGE_SIZE)
  end.
Proof.
  apply (generator_read_source_page sample_fs true (sample_entry 1)
           (repeat 255 4096)).
  vm_compute. reflexivity.
Defined.

Lemma cstr_nonzero_id (s : list Z) : Forall (fun c => c <> 0) s -> cstr s = s.
Proof.
  induction 1 as [|c s Hc _ IH]; [reflexivity|].
  cbn [cstr]. destruct (Z.eqb_spec c 0); [contradiction|].
  rewrite IH. reflexivity.
Qed.

Lemma cstr_drop_stored (path tail : list Z) (k : nat) :
  (k <= 511)%nat ->
  cstr (drop k (strncpy path (MAX_PATH_LEN - 1) ++ [0]) ++ tail)
  = drop k (take 511 (cstr path)).
Proof.
  intros Hk. unfold strncpy, zeros.
  change (Z.to_nat (MAX_PATH_LEN - 1)) with 511%nat.
  set (s := cstr path).
  assert (Hs : Forall (fun c => c <> 0) s) by apply cstr_nonzero.
  assert (Hx : Forall (fun c => c <> 0) (take 511 s)).
  { apply Forall_take. exact Hs. }
  assert (Hsplit : take 511 (s ++ repeat 0 511) ++ [0]
                   = take 511 s
                     ++ repeat 0 (S (511 - length (take 511 s)))).
  { rewrite take_app, take_repeat by lia.
    rewrite <- app_assoc. f_equal.
    replace (511 - length (take 511 s))%nat with (511 - length s)%nat
      by (rewrite length_take; lia).
    cbn [repeat]. apply (eq_sym (repeat_cons _ _)). }
  rewrite Hsplit, drop_app, <- app_assoc.
  rewrite drop_repeat.
  assert (Hpos : exists r,
            (S (511 - length (take 511 s)) - (k - length (take 511 s)))%nat
            = S r).
  { exists (511 - length (take 511 s) - (k - length (take 511 s)))%nat.
    rewrite length_take. lia. }
  destruct Hpos as (r & ->). cbn [repeat app].
  rewrite cstr_app_nul. apply cstr_nonzero_id.
  apply Forall_drop. exact Hx.
Qed.

Lemma generator_file_entry_image (f : Generator.FileEntry) :
  Generator.file_entry_bytes f
  = le_bytes 4 (Generator.file_id f)
    ++ le_bytes 4 (u32 (strlen (Generator.path f)))
    ++ (strncpy (Generator.path f) (MAX_PATH_LEN - 1) ++ [0])
    ++ le_bytes 4 (Generator.total_pages f)
    ++ le_bytes 8 (Generator.original_size f).
Proof.
  assert (Hlen : length (Generator.file_entry_bytes f) = 532%nat).
  { unfold Generator.file_entry_bytes, write_u32, write_u64. cbv zeta.
    rewrite !length_mem_write, length_zeros. reflexivity. }
  assert (Hall : Generator.file_entry_bytes f
                 = mem_read (Generator.file_entry_bytes f) 0 532).
  { unfold mem_read. change (Z.to_nat 0) with 0%nat. rewrite drop_0.
    symmetry. apply take_ge. rewrite Hlen. lia. }
  rewrite Hall at 1. clear Hall Hlen.
  unfold Generator.file_entry_bytes, write_u32, write_u64. cbv zeta.
  unfold field_off.
  change (offsetof Generator.BigCacheFileEntry "file_id") with 0.
  change (offsetof Generator.BigCacheFileEntry "path_len") with 4.
  change (offsetof Generator.BigCacheFileEntry "path") with 8.
  change (offsetof Generator.BigCacheFileEntry "total_pages") with 520.
  change (offsetof Generator.BigCacheFileEntry "original_size") with 524.
  change (sizeof Generator.BigCacheFileEntry) with 532.
  rewrite !Z.add_0_l.
  match goal with
  | |- mem_read ?m 0 532 = _ =>
      change (mem_read m 0 532)
        with (mem_read m 0 (4 + (4 + (512 + (4 + 8)))))
  end.
  rewrite !mem_read_split by lia.
  change (0 + 4) with 4. change (4 + 4) with 8.
  change (8 + 512) with 520. change (520 + 4) with 524.
  assert (Hzl : forall n, 0 <= n -> Z.of_nat (length (zeros n)) = n)
    by (intros n Hn; rewrite length_zeros; lia).
  f_equal; [|f_equal; [|f_equal; [|f_equal]]].
  - repeat (rewrite mem_read_write_other
              by (rewrite ?length_le_bytes, ?length_zeros,
                    ?length_strncpy by (unfold MAX_PATH_LEN; lia);
                  unfold MAX_PATH_LEN; lia)).
    apply mem_read_write_exact;
      rewrite ?length_le_bytes, ?length_zeros; lia.
  - repeat (rewrite mem_read_write_other
              by (rewrite ?length_le_bytes, ?length_zeros,
                    ?length_strncpy by (unfold MAX_PATH_LEN; lia);
                  unfold MAX_PATH_LEN; lia)).
    apply mem_read_write_exact;
      rewrite ?length_mem_write, ?length_le_bytes, ?length_zeros; lia.
  - rewrite mem_read_write_prefix
      by (rewrite ?length_mem_write, ?length_zeros,
            ?length_strncpy by (unfold MAX_PATH_LEN; lia);
          unfold MAX_PATH_LEN; lia).
    rewrite length_strncpy by (unfold MAX_PATH_LEN; lia).
    f_equal.
  - repeat (rewrite mem_read_write_other
              by (rewrite ?length_le_bytes, ?length_zeros,
                    ?length_strncpy by (unfold MAX_PATH_LEN; lia);
                  unfold MAX_PATH_LEN; lia)).
    apply mem_read_write_exact;
      rewrite ?length_mem_write, ?length_le_bytes, ?length_zeros; lia.
  - repeat (rewrite mem_read_write_other
              by (rewrite ?length_le_bytes, ?length_zeros,
                    ?length_strncpy by (unfold MAX_PATH_LEN; lia);
                  unfold MAX_PATH_LEN; lia)).
    apply mem_read_write_exact;
      rewrite ?length_mem_write, ?length_le_bytes, ?length_zeros; lia.
Qed.

(** X30.  The file record generate_bigcache.c writes keeps the path
    before [total_pages] and [original_size], while the loader's
    [BigCacheFileEntry] has it after them: from such a record the loader
    reads the path without its first twelve characters. *)
Theorem generator_file_record_path (m : mem) (h : Header) (id : Z)
    (f : Generator.FileEntry) :
  0 <= h_file_table_offset h + id * sizeof BigCacheFileEntry ->
  mem_read m (h_file_table_offset h + id * sizeof BigCacheFileEntry)
    (sizeof Generator.BigCacheFileEntry)
  = Generator.file_entry_bytes f ->
  cstr (file_entry_path m h id)
  = drop 12 (take 511 (cstr (Generator.path f))).
Proof.
  change (sizeof BigCacheFileEntry) with 532.
  change (sizeof Generator.BigCacheFileEntry) with 532.
  intros Hslot Hrec. rewrite generator_file_entry_image in Hrec.
  unfold file_entry_path. field_offsets.
  set (slot := h_file_table_offset h + id * 532) in *.
  set (stored := strncpy (Generator.path f) (MAX_PATH_LEN - 1) ++ [0])
    in *.
  assert (Hst : length stored = 512%nat).
  { subst stored. rewrite length_app, length_strncpy
      by (unfold MAX_PATH_LEN; lia). reflexivity. }
  set (tail := le_bytes 4 (Generator.total_pages f)
               ++ le_bytes 8 (Generator.original_size f)) in *.
  assert (Hsuffix : mem_read m (slot + 20) 512 = drop 12 stored ++ tail).
  { rewrite <- (take_drop 12 stored) in Hrec.
    rewrite !app_assoc in Hrec. rewrite <- !app_assoc in Hrec.
    rewrite !app_assoc in Hrec.
    rewrite <- (app_assoc _ (drop 12 stored) tail) in Hrec.
    change 532 with (Z.of_nat 20 + 512) in Hrec.
    match type of Hrec with
    | mem_read _ _ _ = ?xs ++ _ =>
        replace (Z.of_nat 20) with (Z.of_nat (length xs)) in Hrec
          by (rewrite !length_app, !length_le_bytes, length_take; lia)
    end.
    apply mem_read_suffix_of in Hrec; [|lia..].
    rewrite !length_app, !length_le_bytes, length_take in Hrec.
    replace (Z.of_nat (4 + 4 + 12 `min` length stored)) with 20 in Hrec
      by lia.
    exact Hrec. }
  rewrite (mem_from_read m (slot + 20) 512) by lia.
  rewrite Hsuffix, <- app_assoc. subst stored.
  apply cstr_drop_stored. lia.
Qed.

(** A record of the generator for a path of 23 characters, placed at the
    file table offset of the sample bundle's header. *)
Lemma generator_file_record_path_witness :
  cstr (file_entry_path
          (zeros 148 ++ Generator.file_entry_bytes sample_file_entry)
          (read_header sample_bundle) 0)
  = drop 12 (take 511 (cstr (Generator.path sample_file_entry))).
Proof.
  apply (generator_file_record_path
           (zeros 148 ++ Generator.file_entry_bytes sample_file_entry)
           (read_header sample_bundle) 0 sample_file_entry).
  - vm_compute. discriminate.
  - vm_compute. reflexivity.
Defined.
